(** * Text-to-SQL query service: the query-resolution pipeline

    A shallow embedding of the Python sources under [code/]:
    - [util/postgres_validation.py]   (module [PostgresValidation])
    - [services/cache.py]             (module [Cache])
    - [services/indexer.py]           (module [Indexer])
    - [services/text_to_sql.py]       (module [TextToSQL])
    - [prompt_handler.py]             (module [PromptHandler])
    - [indexer_handler.py]            (module [IndexerHandler])

    Python values that are dynamically typed in the source (responses, cache
    records, the result of SQL generation) are values of [pyval]; a Python
    [float] is an IEEE binary64 number, here Rocq's primitive [float]; a
    Python [str] is represented by its UTF-8 encoding in [string]; [bytes]
    are lists of [byte].  External collaborators (the text-generation model,
    the embedding model, the database driver, the vector engine of the cache
    cluster, the JSON encoder) are fields of an environment record [Env];
    what the code changes (the cache store, the client attribute of the cache
    service, the embeddings table) is in the [World] that is threaded through
    a state-and-exception monad, together with the trace of external calls. *)

From Stdlib Require Import ZArith List String Ascii Bool Lia Floats Sorted DecimalString.
From stdpp Require Import base gmap strings.
Import ListNotations.
Local Open Scope string_scope.
Local Open Scope Z_scope.
Set Warnings "-register-all,-inexact-float".

(* ===================================================================== *)
(** * Python values, exceptions                                           *)
(* ===================================================================== *)

Module Py.

(** The dynamically typed values the handler passes around.  A dict keeps
    its keys in insertion order, as Python's does; every dict of these
    sources has string keys. *)
Inductive pyval : Type :=
| PNone
| PBool (b : bool)
| PInt (z : Z)
| PFloat (f : float)
| PStr (s : string)
| PBytes (b : list Byte.byte)
| PList (l : list pyval)
| PTuple (l : list pyval)
| PDict (d : list (string * pyval)).

(** [bool(v)], the truth value used by [if v:] and [not v]. *)
Definition truthy (v : pyval) : bool :=
  match v with
  | PNone => false
  | PBool b => b
  | PInt z => negb (z =? 0)
  | PFloat f => negb (PrimFloat.eqb f 0%float)
  | PStr s => negb (String.eqb s "")
  | PBytes b => match b with [] => false | _ => true end
  | PList l => match l with [] => false | _ => true end
  | PTuple l => match l with [] => false | _ => true end
  | PDict d => match d with [] => false | _ => true end
  end.

(** Exception classes.  [ConnectionError] and [ResponseError] are the
    classes of [valkey.exceptions] and derive from [ValkeyError];
    [ClusterException] is [ValkeyClusterException], which derives from
    [Exception] directly. *)
Inductive exn : Type :=
| KeyError (key : string)
| TypeError (msg : string)
| AttributeError (msg : string)
| ValueError (msg : string)
| ConnectionError (msg : string)
| ResponseError (msg : string)
| ClusterException (msg : string)
| Exception (msg : string).

(** [isinstance(e, ValkeyError)] *)
Definition is_ValkeyError (e : exn) : bool :=
  match e with
  | ConnectionError _ | ResponseError _ => true
  | _ => false
  end.

(** [isinstance(e, ResponseError)] *)
Definition is_ResponseError (e : exn) : bool :=
  match e with
  | ResponseError _ => true
  | _ => false
  end.

(** The outcome of a call: a value, or a raised exception. *)
Inductive result (A : Type) : Type :=
| Ok (a : A)
| Raise (e : exn).
Arguments Ok {A} a.
Arguments Raise {A} e.

(** [d[k]]: subscription of a dict raises [KeyError] on a missing key and
    [TypeError] on a value that is no dict. *)
Fixpoint assoc (k : string) (d : list (string * pyval)) : option pyval :=
  match d with
  | [] => None
  | (k', v) :: d' => if String.eqb k' k then Some v else assoc k d'
  end.

Definition getitem (v : pyval) (k : string) : result pyval :=
  match v with
  | PDict d => match assoc k d with
               | Some x => Ok x
               | None => Raise (KeyError k)
               end
  | _ => Raise (TypeError "object is not subscriptable")
  end.

(** [d.get(k)] and [d.get(k, default)] on a dict. *)
Definition dict_get (d : list (string * pyval)) (k : string) (default : pyval) : pyval :=
  match assoc k d with
  | Some x => x
  | None => default
  end.

(** [v == s] for a [str] [s]: only a [str] with the same text is equal. *)
Definition eq_str (v : pyval) (s : string) : bool :=
  match v with
  | PStr s' => String.eqb s' s
  | _ => false
  end.

End Py.
Export Py.

(* ===================================================================== *)
(** * util/postgres_validation.py                                         *)
(* ===================================================================== *)

Module PostgresValidation.

Definition POSTGRES_RESERVED_WORDS : list string :=
  [ "all"; "analyse"; "analyze"; "and"; "any"; "array"; "as"; "asc"; "asymmetric"; "authorization"; "binary"; "both";
    "case"; "cast"; "check"; "collate"; "collation"; "column"; "concurrently"; "constraint"; "create"; "cross";
    "current_catalog"; "current_date"; "current_role"; "current_schema"; "current_time"; "current_timestamp";
    "current_user"; "default"; "deferrable"; "desc"; "distinct"; "do"; "else"; "end"; "except"; "false"; "fetch";
    "for"; "foreign"; "freeze"; "from"; "full"; "grant"; "group"; "having"; "ilike"; "in"; "initially"; "inner";
    "intersect"; "into"; "is"; "isnull"; "join"; "lateral"; "leading"; "left"; "like"; "limit"; "localtime";
    "localtimestamp"; "natural"; "not"; "notnull"; "null"; "offset"; "on"; "only"; "or"; "order"; "outer"; "overlaps";
    "placing"; "primary"; "references"; "returning"; "right"; "select"; "session_user"; "similar"; "some"; "symmetric";
    "system_user"; "table"; "tablesample"; "then"; "to"; "trailing"; "true"; "union"; "unique"; "user"; "using";
    "variadic"; "verbose"; "when"; "where"; "window"; "with" ].

(** The character classes of the pattern, on code points below 128 (a byte
    of the encoding of any other code point is 128 or more and in no
    class). *)
Definition is_upper (c : ascii) : bool :=
  let n := nat_of_ascii c in (65 <=? n)%nat && (n <=? 90)%nat.
Definition is_lower (c : ascii) : bool :=
  let n := nat_of_ascii c in (97 <=? n)%nat && (n <=? 122)%nat.
Definition is_digit (c : ascii) : bool :=
  let n := nat_of_ascii c in (48 <=? n)%nat && (n <=? 57)%nat.

(** [[a-zA-Z_]] *)
Definition first_class (c : ascii) : bool :=
  is_lower c || is_upper c || Ascii.eqb c "_"%char.
(** [[a-zA-Z0-9_$]] *)
Definition rest_class (c : ascii) : bool :=
  is_lower c || is_upper c || is_digit c || Ascii.eqb c "_"%char || Ascii.eqb c "$"%char.

(** [[a-zA-Z0-9_$]*$]: the star takes class characters; Python's [$]
    (without [re.MULTILINE]) holds at the end of the string and also just
    before a newline that ends the string. *)
Fixpoint match_rest (s : string) : bool :=
  match s with
  | EmptyString => true
  | String c s' =>
      if rest_class c then match_rest s'
      else Ascii.eqb c "010"%char && String.eqb s' ""
  end.

(** [re.match(r"^(?!pg_)[a-zA-Z_][a-zA-Z0-9_$]*$", name)] is not [None]. *)
Definition re_match_pattern (name : string) : bool :=
  negb (String.prefix "pg_" name) &&
  match name with
  | EmptyString => false
  | String c s' => first_class c && match_rest s'
  end.

(** [str.lower] on the code points below 128; the pattern has already
    refused every other string when [lower] is called. *)
Definition lower_char (c : ascii) : ascii :=
  if is_upper c then ascii_of_nat (nat_of_ascii c + 32) else c.
Fixpoint lower (s : string) : string :=
  match s with
  | EmptyString => EmptyString
  | String c s' => String (lower_char c) (lower s')
  end.

(** [w in POSTGRES_RESERVED_WORDS] *)
Definition is_reserved (w : string) : bool :=
  existsb (String.eqb w) POSTGRES_RESERVED_WORDS.

Definition is_valid_postgres_identifier (name : string) : bool :=
  if negb (re_match_pattern name) then false
  else if (63 <? Z.of_nat (String.length name)) then false
  else if is_reserved (lower name) then false
  else true.

End PostgresValidation.

(* ===================================================================== *)
(** * Single-precision numbers and their wire form                        *)
(* ===================================================================== *)

(** [array("f", vector)] stores every element as a C [float]: the binary64
    value is rounded to binary32 (to nearest, ties to even, overflow to an
    infinity), and [tobytes()] gives the four bytes of each element in the
    machine's byte order, little-endian on the platforms the function runs
    on.  A binary32 number is a [spec_float] of precision 24 and [emax]
    128. *)
Module Float32.

Definition prec : Z := 24.
Definition emax : Z := 128.

(** The C conversion [(float) x] of a binary64 number. *)
Definition to_single (x : float) : spec_float :=
  match Prim2SF x with
  | S754_finite s m e => binary_round prec emax s m e
  | f => f
  end.

Definition sign_bit (s : bool) : Z := if s then 0x80000000 else 0.

(** The IEEE 754 binary32 interchange encoding: sign, 8 bits of biased
    exponent, 23 bits of trailing significand (a NaN is the quiet one). *)
Definition bits_of_single (f : spec_float) : Z :=
  match f with
  | S754_zero s => sign_bit s
  | S754_infinity s => sign_bit s + 0x7f800000
  | S754_nan => 0x7fc00000
  | S754_finite s m e =>
      if Zpos m <? 0x800000 then sign_bit s + Zpos m
      else sign_bit s + (e + 150) * 0x800000 + (Zpos m - 0x800000)
  end.

Definition single_of_bits (w : Z) : spec_float :=
  let s := 0x80000000 <=? w in
  let biased := (w / 0x800000) mod 256 in
  let frac := w mod 0x800000 in
  if biased =? 0 then
    if frac =? 0 then S754_zero s else S754_finite s (Z.to_pos frac) (-149)
  else if biased =? 255 then
    if frac =? 0 then S754_infinity s else S754_nan
  else S754_finite s (Z.to_pos (frac + 0x800000)) (biased - 150).

Definition byte_of_Z (z : Z) : Byte.byte :=
  match Byte.of_N (Z.to_N (z mod 256)) with
  | Some b => b
  | None => Byte.x00
  end.

Definition Z_of_byte (b : Byte.byte) : Z := Z.of_N (Byte.to_N b).

(** The four bytes of a 32-bit word, least significant first. *)
Definition le_bytes (w : Z) : list Byte.byte :=
  [ byte_of_Z w; byte_of_Z (w / 0x100); byte_of_Z (w / 0x10000); byte_of_Z (w / 0x1000000) ].

Definition pack_f (x : float) : list Byte.byte :=
  le_bytes (bits_of_single (to_single x)).

End Float32.

(* ===================================================================== *)
(** * The world outside the handler                                       *)
(* ===================================================================== *)

Module Sys.

Inductive level : Type := DEBUG | INFO | ERROR.

(** The three prompts sent to the text-generation model; each is a fixed
    template of the source filled with these arguments. *)
Inductive prompt : Type :=
| FollowUpPrompt (full_prompt : string)
| SqlPrompt (query schema : string)
| TextPrompt (query : pyval) (schema : string) (results : pyval).

(** A document of a vector search result: its key, the returned fields that
    are present, and the distance [score]. *)
Record document : Type := {
  doc_id : string;
  doc_sql_statement : option string;
  doc_text_response : option string;
  doc_query_results : option string;
  doc_prompt_text : option string;
  doc_schema_text : option string;
  doc_column_names : option string;
  doc_score : float
}.

Inductive valkey_cmd : Type :=
| PING
| FT_INFO (index : string)
| FT_CREATE (index : string)
| FT_SEARCH (index : string)
| HSET (key : string)
| EXPIRE (key : string) (seconds : Z)
| TTL (key : string)
| HGET (key field : string).

(** A row of the table [embeddings]. *)
Record emb_row : Type := {
  row_id : Z;
  row_embedding : list float;
  row_database_name : string;
  row_schema_name : string;
  row_table_name : string;
  row_embedding_text : string;
  row_embedding_hash : string
}.

(** A call that leaves the process, in the order the calls are made. *)
Inductive event : Type :=
| Log (lvl : level) (msg : string)
| InvokeModel (p : prompt)
| InvokeEmbedding (text : string)
| GetSecretValue (secret_id : string)
| PgConnect
| PgSelectExists (database_name schema_name table_name embedding_hash : string)
| PgInsert (database_name schema_name table_name embedding_hash : string)
| PgSelectSimilar (top_k : nat)
| PgExecute (sql params : pyval)
| PgCommit
| PgClose
| ValkeyConnect (endpoint : string)
| ValkeyCommand (c : valkey_cmd).

(** A hash of the cache store with its time to live in seconds. *)
Record hash_entry : Type := {
  fields : gmap string pyval;
  ttl : option Z
}.

(** Configuration and the collaborators whose answers the code only
    consumes. *)
Record Env : Type := {
  RDS_DATABASE_NAME : string;
  RDS_SCHEMA : string;
  SECRET_NAME : string;
  MEMDB_ENDPOINT : string;
  db_name : string;
  (** [bedrock_client.invoke_model] with the text model, up to the text of
      the first content block *)
  invoke_model : prompt -> result string;
  (** the two [re.search] extractions of [check_if_follow_up_question]
      followed by [json.loads] *)
  loads_follow_up : string -> result pyval;
  (** [ast.literal_eval] *)
  literal_eval : string -> result pyval;
  (** [bedrock_client.invoke_model] with the embedding model, up to
      [response_body["embedding"]] *)
  invoke_embedding : string -> result (list float);
  (** [secret_client.get_secret_value] and [json.loads] of its string *)
  get_secret_value : string -> result pyval;
  (** [psycopg.connect] followed by [SET extra_float_digits = 3] *)
  psycopg_connect : pyval -> result unit;
  (** [cursor.execute(sql, params)]: the rows and the column names when
      the statement has a description *)
  cursor_execute : pyval -> pyval -> result (option (list pyval * list string));
  (** pgvector's [<=>] *)
  cosine_distance : list float -> list float -> float;
  (** the vector range search of the cache cluster, at most [top_k]
      documents in ascending order of distance *)
  ft_search : gmap string hash_entry -> list Byte.byte -> nat -> list document;
  (** [json.dumps] *)
  json_dumps : pyval -> result string;
  (** [hashlib.sha256(s.encode()).hexdigest()] *)
  sha256_hexdigest : string -> string;
  (** [json.loads] *)
  json_loads : string -> result pyval;
  (** [float(s)] for a [str] *)
  float_of_str : string -> result float;
  (** [round(x, ndigits)] *)
  py_round : float -> Z -> float;
  (** [str(v)] *)
  py_str : pyval -> string
}.

Record World : Type := {
  trace : list event;
  (** [cache.valkey_client] *)
  valkey_client : option string;
  (** [Some e] when the cache cluster is unreachable: every command, and
      the construction of a client, raises [e] *)
  cluster_fault : option exn;
  index_exists : bool;
  store : gmap string hash_entry;
  (** [pg.db_secret] *)
  db_secret : pyval;
  embeddings : list emb_row;
  next_id : Z
}.

(** ** State and exceptions *)

Definition M (A : Type) : Type := World -> result A * World.

Definition ret {A} (a : A) : M A := fun w => (Ok a, w).

Definition bind {A B} (m : M A) (k : A -> M B) : M B :=
  fun w => match m w with
           | (Ok a, w') => k a w'
           | (Raise e, w') => (Raise e, w')
           end.

Definition raise {A} (e : exn) : M A := fun w => (Raise e, w).

(** [lift r] returns or raises what the pure computation [r] did. *)
Definition lift {A} (r : result A) : M A := fun w => (r, w).

(** [try: m  except <classes>: h e]; [handles e] tells whether the clause
    catches [e]. *)
Definition try_except {A} (m : M A) (handles : exn -> bool) (h : exn -> M A) : M A :=
  fun w => match m w with
           | (Ok a, w') => (Ok a, w')
           | (Raise e, w') => if handles e then h e w' else (Raise e, w')
           end.

(** [try: m  finally: c] *)
Definition try_finally {A} (m : M A) (c : M unit) : M A :=
  fun w => match m w with
           | (r, w') => match c w' with
                        | (Ok _, w'') => (r, w'')
                        | (Raise e, w'') => (Raise e, w'')
                        end
           end.

Definition get {A} (f : World -> A) : M A := fun w => (Ok (f w), w).

(** The world after the calls [evs]. *)
Definition add_events (evs : list event) (w : World) : World :=
  {| trace := trace w ++ evs;
     valkey_client := valkey_client w;
     cluster_fault := cluster_fault w;
     index_exists := index_exists w;
     store := store w;
     db_secret := db_secret w;
     embeddings := embeddings w;
     next_id := next_id w |}.

Definition emit (ev : event) : M unit :=
  fun w => (Ok tt, add_events [ev] w).

Definition log (lvl : level) (msg : string) : M unit := emit (Log lvl msg).

Definition set_valkey_client (c : option string) : M unit :=
  fun w => (Ok tt, {| trace := trace w;
                      valkey_client := c;
                      cluster_fault := cluster_fault w;
                      index_exists := index_exists w;
                      store := store w;
                      db_secret := db_secret w;
                      embeddings := embeddings w;
                      next_id := next_id w |}).

Definition set_index_exists (b : bool) : M unit :=
  fun w => (Ok tt, {| trace := trace w;
                      valkey_client := valkey_client w;
                      cluster_fault := cluster_fault w;
                      index_exists := b;
                      store := store w;
                      db_secret := db_secret w;
                      embeddings := embeddings w;
                      next_id := next_id w |}).

Definition set_store (s : gmap string hash_entry) : M unit :=
  fun w => (Ok tt, {| trace := trace w;
                      valkey_client := valkey_client w;
                      cluster_fault := cluster_fault w;
                      index_exists := index_exists w;
                      store := s;
                      db_secret := db_secret w;
                      embeddings := embeddings w;
                      next_id := next_id w |}).

Definition set_db_secret (v : pyval) : M unit :=
  fun w => (Ok tt, {| trace := trace w;
                      valkey_client := valkey_client w;
                      cluster_fault := cluster_fault w;
                      index_exists := index_exists w;
                      store := store w;
                      db_secret := v;
                      embeddings := embeddings w;
                      next_id := next_id w |}).

Definition set_embeddings (rows : list emb_row) (n : Z) : M unit :=
  fun w => (Ok tt, {| trace := trace w;
                      valkey_client := valkey_client w;
                      cluster_fault := cluster_fault w;
                      index_exists := index_exists w;
                      store := store w;
                      db_secret := db_secret w;
                      embeddings := rows;
                      next_id := n |}).

End Sys.
Export Sys.

Notation "x <- m ;; k" := (Sys.bind m (fun x => k))
  (at level 100, m at next level, right associativity, only parsing).
Notation "m ;; k" := (Sys.bind m (fun _ => k))
  (at level 100, right associativity, only parsing).

(* ===================================================================== *)
(** * services/cache.py                                                   *)
(* ===================================================================== *)

Module Cache.

Definition DATA_INDEX_NAME : string := "cache_vector_index".

(** [array("f", vector).tobytes()] *)
Definition _vector_to_bytes (vector : list float) : list Byte.byte :=
  flat_map Float32.pack_f vector.

Section WithEnv.
Context (env : Env).

(** [f"{prefix}:{hashlib.sha256(key.encode()).hexdigest()}"] *)
Definition _hash_key (prefix key : string) : string :=
  prefix ++ ":" ++ sha256_hexdigest env key.

(** A method call on [self.valkey_client]: an [AttributeError] when the
    attribute is still [None]. *)
Definition on_client {A} (method : string) (call : M A) : M A :=
  c <- get valkey_client ;;
  match c with
  | None => raise (AttributeError ("'NoneType' object has no attribute '" ++ method ++ "'"))
  | Some _ => call
  end.

(** A command sent to the cluster: it raises the fault of an unreachable
    cluster, and otherwise does [run]. *)
Definition command {A} (c : valkey_cmd) (run : M A) : M A :=
  emit (ValkeyCommand c) ;;
  fault <- get cluster_fault ;;
  match fault with
  | Some e => raise e
  | None => run
  end.

(** [ValkeyCluster(host=memdb_endpoint, port=6379, ssl=True)]: the
    constructor discovers the cluster and raises when no node answers. *)
Definition ValkeyCluster (memdb_endpoint : string) : M string :=
  emit (ValkeyConnect memdb_endpoint) ;;
  fault <- get cluster_fault ;;
  match fault with
  | Some e => raise e
  | None => ret memdb_endpoint
  end.

(** [self.valkey_client.ft(name).info()] raises [ResponseError] for an
    index that does not exist. *)
Definition ft_info (name : string) : M unit :=
  on_client "ft"
    (command (FT_INFO name)
       (b <- get index_exists ;;
        if b then ret tt else raise (ResponseError "Unknown index name"))).

Definition ft_create_index (name : string) : M unit :=
  on_client "ft" (command (FT_CREATE name) (set_index_exists true)).

Definition setup_index : M unit :=
  try_except
    (ft_info DATA_INDEX_NAME ;;
     log INFO "Cache index already exists!")
    is_ResponseError
    (fun _ =>
       ft_create_index DATA_INDEX_NAME ;;
       log INFO "Created cache index {self.DATA_INDEX_NAME}").

Definition connect_to_cluster (memdb_endpoint : string) : M unit :=
  try_except
    (c <- ValkeyCluster memdb_endpoint ;;
     set_valkey_client (Some c) ;;
     on_client "ping" (command PING (ret tt)) ;;
     log INFO "Connection to Amazon MemoryDB successful" ;;
     setup_index)
    (fun _ => true)
    (fun _ => log ERROR "Error connecting to Valkey cluster: {e}").

(** [getattr(doc, name, None)] *)
Definition attr (o : option string) : pyval :=
  match o with
  | Some s => PStr s
  | None => PNone
  end.

Definition doc_dict (doc : document) : pyval :=
  PDict [ ("id", PStr (doc_id doc));
          ("sql_statement", attr (doc_sql_statement doc));
          ("text_response", attr (doc_text_response doc));
          ("query_results", attr (doc_query_results doc));
          ("prompt_text", attr (doc_prompt_text doc));
          ("schema_text", attr (doc_schema_text doc));
          ("column_names", attr (doc_column_names doc));
          ("vector_score", PFloat (py_round env (1 - doc_score doc)%float 2)) ].

Definition search (vector : list float) (top_k : nat) : M (list pyval) :=
  let vector_bytes := _vector_to_bytes vector in
  let index_name := DATA_INDEX_NAME in
  log DEBUG "@vector:[VECTOR_RANGE $radius $vec]=>{$YIELD_DISTANCE_AS: score}" ;;
  response <- on_client "ft"
                (command (FT_SEARCH index_name)
                   (s <- get store ;; ret (ft_search env s vector_bytes top_k))) ;;
  let flattened_response := map doc_dict response in
  log DEBUG "{flattened_response}" ;;
  ret flattened_response.

(** [self.valkey_client.hset(key, mapping=mapping)]: the fields of the
    mapping are set in the hash at [key], which is created when absent;
    other fields and the time to live of an existing hash stay. *)
Definition hset (key : string) (mapping : list (string * pyval)) : M unit :=
  on_client "hset"
    (command (HSET key)
       (s <- get store ;;
        let old := default {| fields := ∅; ttl := None |} (s !! key) in
        set_store (<[key := {| fields := list_to_map mapping ∪ fields old; ttl := ttl old |}]> s))).

(** [self.valkey_client.expire(key, time)] *)
Definition expire (key : string) (seconds : Z) : M unit :=
  on_client "expire"
    (command (EXPIRE key seconds)
       (s <- get store ;;
        match s !! key with
        | Some h => set_store (<[key := {| fields := fields h; ttl := Some seconds |}]> s)
        | None => ret tt
        end)).

Definition get_ttl (key : string) : M (option Z) :=
  on_client "ttl"
    (command (TTL key) (s <- get store ;; ret (h ← s !! key; ttl h))).

Definition hget (key field : string) : M (option pyval) :=
  on_client "hget"
    (command (HGET key field) (s <- get store ;; ret (h ← s !! key; fields h !! field))).

Definition is_list_or_tuple (v : pyval) : bool :=
  match v with
  | PList _ | PTuple _ => true
  | _ => false
  end.

Definition is_str (v : pyval) : bool :=
  match v with
  | PStr _ => true
  | _ => false
  end.

(** [timedelta(minutes=10)] in seconds *)
Definition expiration_time : Z := 10 * 60.

Definition add (key : string) (vector : list float) (data : list (string * pyval)) (prefix : string)
  : M bool :=
  let key := _hash_key prefix key in
  let vector_bytes := _vector_to_bytes vector in
  sql_statement <- lift (getitem (PDict data) "sql_statement") ;;
  sql_statement <- (if is_list_or_tuple sql_statement
                    then s <- lift (json_dumps env sql_statement) ;; ret (PStr s)
                    else ret sql_statement) ;;
  query_results <- lift (getitem (PDict data) "query_results") ;;
  let query_results := if is_str query_results then query_results
                       else PStr (py_str env query_results) in
  let column_names := dict_get data "column_names" (PList []) in
  column_names <- (if is_str column_names then ret column_names
                   else s <- lift (json_dumps env column_names) ;; ret (PStr s)) ;;
  text_response <- lift (getitem (PDict data) "text_response") ;;
  schema_text <- lift (getitem (PDict data) "schema_text") ;;
  prompt_text <- lift (getitem (PDict data) "prompt_text") ;;
  let mapping := [ ("vector", PBytes vector_bytes);
                   ("sql_statement", sql_statement);
                   ("text_response", text_response);
                   ("query_results", query_results);
                   ("schema_text", schema_text);
                   ("prompt_text", prompt_text);
                   ("column_names", column_names) ] in
  text_response <- lift (getitem (PDict data) "text_response") ;;
  if negb (truthy text_response) then
    log ERROR "Unable to add to cache, missing SQL statement." ;;
    ret false
  else
    log DEBUG "Adding to cache index: {key} {json.dumps(mapping, default=str)}" ;;
    try_except
      (hset key mapping ;;
       expire key expiration_time ;;
       _ <- get_ttl key ;;
       log DEBUG "Time to live for '{key}': {ttl} seconds" ;;
       _ <- hget key "prompt_text" ;;
       log DEBUG "Retrieved value: {retrieved_value}" ;;
       ret true)
      is_ValkeyError
      (fun _ =>
         log ERROR "Error adding to cache: {str(e)}" ;;
         ret false).

End WithEnv.
End Cache.

(* ===================================================================== *)
(** * services/embed.py                                                   *)
(* ===================================================================== *)

Module Embed.
Section WithEnv.
Context (env : Env).

Definition get_embedding (text : string) : M (list float) :=
  try_except
    (log DEBUG "Generating embedding for {text}" ;;
     emit (InvokeEmbedding text) ;;
     embedding <- lift (invoke_embedding env text) ;;
     log DEBUG "Embedding generated: {response_body['embedding']}" ;;
     ret embedding)
    (fun _ => true)
    (fun e =>
       log ERROR "Error generating embedding: {e}" ;;
       raise e).

End WithEnv.
End Embed.

(* ===================================================================== *)
(** * services/indexer.py                                                 *)
(* ===================================================================== *)

Module Indexer.

(** An element of [metadata_w_embedding]: the dict built by
    [create_embedding_string] with the key ["embedding"] added by
    [generate_embeddings]. *)
Record table_metadata : Type := {
  md_database : string;
  md_schema : string;
  md_table : string;
  md_embedding_text : string;
  md_embedding_hash : string;
  md_embedding : list float
}.

(** [WHERE database_name = %s AND schema_name = %s AND table_name = %s
    AND embedding_hash = %s] *)
Definition where_key (database_name schema_name table_name embedding_hash : string)
    (r : emb_row) : bool :=
  String.eqb (row_database_name r) database_name
  && String.eqb (row_schema_name r) schema_name
  && String.eqb (row_table_name r) table_name
  && String.eqb (row_embedding_hash r) embedding_hash.

(** [SELECT id FROM embeddings WHERE ...] followed by [cur.fetchone()] *)
Definition select_id (database_name schema_name table_name embedding_hash : string)
  : M (option Z) :=
  emit (PgSelectExists database_name schema_name table_name embedding_hash) ;;
  rows <- get embeddings ;;
  ret (option_map row_id
         (List.find (where_key database_name schema_name table_name embedding_hash) rows)).

(** [INSERT INTO embeddings (...) VALUES (...)]; [id] is a serial column. *)
Definition insert_row (embedding : list float)
    (database_name schema_name table_name embedding_text embedding_hash : string) : M unit :=
  emit (PgInsert database_name schema_name table_name embedding_hash) ;;
  rows <- get embeddings ;;
  n <- get next_id ;;
  set_embeddings
    (rows ++ [ {| row_id := n;
                  row_embedding := embedding;
                  row_database_name := database_name;
                  row_schema_name := schema_name;
                  row_table_name := table_name;
                  row_embedding_text := embedding_text;
                  row_embedding_hash := embedding_hash |} ])
    (n + 1).

Fixpoint store_embeddings (metadata_w_embedding : list table_metadata) : M unit :=
  match metadata_w_embedding with
  | [] => ret tt
  | metadata :: rest =>
      let embedding := md_embedding metadata in
      let embedding_text := md_embedding_text metadata in
      let embedding_hash := md_embedding_hash metadata in
      let database_name := md_database metadata in
      let schema_name := md_schema metadata in
      let table_name := md_table metadata in
      found <- select_id database_name schema_name table_name embedding_hash ;;
      match found with
      | Some _ =>
          log INFO "Embedding for {database_name}.{schema_name}.{table_name} already exists." ;;
          store_embeddings rest
      | None =>
          insert_row embedding database_name schema_name table_name embedding_text embedding_hash ;;
          emit PgCommit ;;
          log INFO "Embedding for {database_name}.{schema_name}.{table_name} stored successfully." ;;
          store_embeddings rest
      end
  end.

(** A row fetched by the similarity query: [database_name, schema_name,
    table_name, embedding_text, similarity]. *)
Definition sim_row : Type := string * string * string * string * float.

Definition similarity (row : sim_row) : float := snd row.

(** The order of [float8] values in PostgreSQL: the usual one, with NaN
    equal to itself and above every other value. *)
Definition float8_le (a b : float) : bool :=
  PrimFloat.is_nan b || (negb (PrimFloat.is_nan a) && PrimFloat.leb a b).

(** [ORDER BY similarity DESC] *)
Fixpoint insert_desc (x : sim_row) (l : list sim_row) : list sim_row :=
  match l with
  | [] => [x]
  | y :: l' => if float8_le (similarity x) (similarity y) then y :: insert_desc x l'
               else x :: l
  end.

Definition order_by_similarity_desc (l : list sim_row) : list sim_row :=
  fold_right insert_desc [] l.

Section WithEnv.
Context (env : Env).

(** [SELECT database_name, schema_name, table_name, embedding_text,
    1 - (embedding <=> %s::vector) AS similarity FROM embeddings
    ORDER BY similarity DESC LIMIT %s] followed by [cur.fetchall()] *)
Definition select_similar (user_embedding : list float) (top_k : nat) : M (list sim_row) :=
  emit (PgSelectSimilar top_k) ;;
  rows <- get embeddings ;;
  ret (firstn top_k
         (order_by_similarity_desc
            (map (fun r => (row_database_name r, row_schema_name r, row_table_name r,
                            row_embedding_text r,
                            (1 - cosine_distance env (row_embedding r) user_embedding)%float))
                 rows))).

Definition result_dict (row : sim_row) : pyval :=
  let '(database_name, schema_name, table_name, embedding_text, sim) := row in
  PDict [ ("database", PStr database_name);
          ("schema", PStr schema_name);
          ("table", PStr table_name);
          ("embedding_text", PStr embedding_text);
          ("similarity", PFloat sim) ].

Definition compare_embeddings (user_prompt : string) (top_k : nat) : M (list pyval) :=
  try_except
    (user_embedding <- Embed.get_embedding env user_prompt ;;
     fetched <- select_similar user_embedding top_k ;;
     let results :=
       map result_dict (List.filter (fun row => (0.10 <? similarity row)%float) fetched) in
     ret results)
    (fun _ => true)
    (fun e =>
       log ERROR "Error in compare_embeddings: {str(e)}" ;;
       raise e).

End WithEnv.
End Indexer.

(* ===================================================================== *)
(** * services/postgres.py                                                *)
(* ===================================================================== *)

Module PostgreSQLService.
Section WithEnv.
Context (env : Env).

(** A [psycopg.Connection]; the class defines neither [__bool__] nor
    [__len__], so a connection is true. *)
Definition connection : Type := unit.
Definition conn_truthy (c : connection) : bool := true.

Definition set_secret (secret_id : string) : M unit :=
  try_except
    (emit (GetSecretValue secret_id) ;;
     secret <- lift (get_secret_value env secret_id) ;;
     set_db_secret secret)
    (fun _ => true)
    (fun e =>
       log ERROR "Error retrieving secret: {e}" ;;
       raise e).

Definition connect_to_db : M connection :=
  try_except
    (secret <- get db_secret ;;
     if negb (truthy secret) then raise (Exception "Database secret not available")
     else
       _ <- lift (getitem secret "username") ;;
       _ <- lift (getitem secret "password") ;;
       emit PgConnect ;;
       lift (psycopg_connect env secret))
    (fun _ => true)
    (fun e =>
       log ERROR "Error connecting to database or retrieving secret: {e}" ;;
       raise e).

Definition close (c : connection) : M unit := emit PgClose.

End WithEnv.
End PostgreSQLService.

(* ===================================================================== *)
(** * services/text_to_sql.py                                             *)
(* ===================================================================== *)

Module TextToSQL.

(** The first occurrence of [pat] in [s]: the text before it and the text
    after it. *)
Fixpoint split_at_first (pat s : string) : option (string * string) :=
  if String.prefix pat s then
    Some ("", String.substring (String.length pat) (String.length s - String.length pat) s)
  else
    match s with
    | EmptyString => None
    | String c s' =>
        match split_at_first pat s' with
        | Some (before, after) => Some (String c before, after)
        | None => None
        end
    end.

(** [re.compile(open + r"(.*?)" + close, re.DOTALL).findall(s)] for two
    literal tags: the matches are found from left to right without
    overlap, and the lazy group is the text up to the next closing tag. *)
Fixpoint findall_between (fuel : nat) (open close s : string) : list string :=
  match fuel with
  | O => []
  | S fuel' =>
      match split_at_first open s with
      | None => []
      | Some (_, rest) =>
          match split_at_first close rest with
          | None => []
          | Some (group, rest') => group :: findall_between fuel' open close rest'
          end
      end
  end.

Definition findall (open close s : string) : list string :=
  findall_between (S (String.length s)) open close s.

Definition no_sql_response : pyval :=
  PDict [ ("statusCode", PInt 500);
          ("body", PDict [ ("response", PStr "Unable to generate SQL for the provided prompt, please try again.") ]);
          ("headers", PDict [ ("Content-Type", PStr "application/json") ]) ].

Section WithEnv.
Context (env : Env).

Definition __call_bedrock (p : prompt) : M string :=
  emit (InvokeModel p) ;;
  lift (invoke_model env p).

Definition check_if_follow_up_question (full_prompt : string) : M pyval :=
  response <- __call_bedrock (FollowUpPrompt full_prompt) ;;
  try_except
    (lift (loads_follow_up env response))
    (fun _ => true)
    (fun _ =>
       log ERROR "Error parsing follow-up check response: {e}" ;;
       ret (PDict [ ("is_follow_up", PBool false); ("answer", PNone) ])).

Definition get_sql_from_bedrock (query schema : string) : M pyval :=
  let sql_prompt := SqlPrompt query schema in
  log DEBUG "{sql_prompt}" ;;
  text_content <- __call_bedrock sql_prompt ;;
  let sql_statements := findall "<sql>" "</sql>" text_content in
  let params_match := findall "<params>" "</params>" text_content in
  log DEBUG "{sql_statements}" ;;
  log DEBUG "{params_match}" ;;
  match sql_statements with
  | [] => ret no_sql_response
  | sql0 :: _ =>
      params <- match params_match with
                | [] => ret (PList [])
                | params0 :: _ =>
                    try_except
                      (lift (literal_eval env params0))
                      (fun _ => true)
                      (fun _ =>
                         log ERROR "Error parsing parameters: {e}" ;;
                         log ERROR "Raw parameters string: {params_match[0]}" ;;
                         ret (PList []))
                end ;;
      ret (PTuple [PStr sql0; params])
  end.

Definition execute_sql (conn : PostgreSQLService.connection) (sql_data : pyval)
  : M (list pyval * list string) :=
  let '(sql, params) :=
    match sql_data with
    | PTuple [sql; params] => (sql, params)
    | _ => (sql_data, PList [])
    end in
  log INFO "Executing SQL: {sql}" ;;
  log INFO "With parameters: {params}" ;;
  emit (PgExecute sql params) ;;
  description <- lift (cursor_execute env sql params) ;;
  let '(results, column_names) :=
    match description with
    | Some (rows, names) => (rows, names)
    | None => ([], [])
    end in
  log INFO "Results: {results}" ;;
  log INFO "Column names: {column_names}" ;;
  ret (results, column_names).

Definition describe_results_from_query (sql_statements : pyval)
    (results_tuple : list pyval * list string) (schema : string) : M pyval :=
  let '(results, column_names) := results_tuple in
  let text_prompt := TextPrompt sql_statements schema (PList results) in
  text_content <- __call_bedrock text_prompt ;;
  ret (PDict [ ("statusCode", PInt 200);
               ("body", PDict [ ("response", PStr text_content);
                                ("query", sql_statements);
                                ("query_results", PList results);
                                ("column_names", PList (map PStr column_names));
                                ("cache_id", PNone) ]);
               ("headers", PDict [ ("Content-Type", PStr "application/json") ]) ]).

End WithEnv.
End TextToSQL.

(* ===================================================================== *)
(** * prompt_handler.py                                                   *)
(* ===================================================================== *)

Module PromptHandler.

(** The request: [{query: string, conversation_context: [{role, content}]}],
    the context being optional. *)
Record message : Type := { role : string; content : string }.
Record request : Type := {
  query : string;
  conversation_context : option (list message)
}.

Definition VECTOR_SCORE_THRESHOLD : float := 0.85%float.

Definition nl : string := String "010"%char "".

(** ["\n".join([f"{msg['role']}: {msg['content']}" for msg in
    conversation_context]) + f"\nHuman: {prompt}"] *)
Definition full_prompt_of (conversation_context : list message) (prompt : string) : string :=
  String.concat nl (map (fun msg => role msg ++ ": " ++ content msg) conversation_context)
  ++ nl ++ "Human: " ++ prompt.

Definition follow_up_response (answer : pyval) : pyval :=
  PDict [ ("statusCode", PInt 200);
          ("body", PDict [ ("response", answer);
                           ("query", PStr "Follow-up question answered directly");
                           ("query_results", PList []);
                           ("cache_id", PNone) ]);
          ("headers", PDict [ ("Content-Type", PStr "application/json") ]) ].

(** [entry.get(k)] and [entry.get(k, default)] *)
Definition entry_get (entry : pyval) (k : string) (default : pyval) : result pyval :=
  match entry with
  | PDict d => Ok (dict_get d k default)
  | _ => Raise (AttributeError "object has no attribute 'get'")
  end.

Section WithEnv.
Context (env : Env).

(** [float(v)] *)
Definition py_float (v : pyval) : result float :=
  match v with
  | PFloat f => Ok f
  | PInt z =>
      match binary_normalize FloatOps.prec FloatOps.emax z 0 false with
      | S754_infinity _ => Raise (Exception "OverflowError: int too large to convert to float")
      | f => Ok (SF2Prim f)
      end
  | PBool b => Ok (if b then 1 else 0)%float
  | PStr s => float_of_str env s
  | _ => Raise (TypeError "float() argument must be a string or a real number")
  end.

(** The loop over [cache_lookup] that looks for the stored prompt;
    [cache_entry] is the variable it assigns. *)
Fixpoint scan_exact_match (cache_lookup : list pyval) (prompt : string)
    (cache_entry : option pyval) : M (option pyval) :=
  match cache_lookup with
  | [] => ret cache_entry
  | entry :: rest =>
      log DEBUG "{entry}" ;;
      stored_prompt <- lift (entry_get entry "prompt_text" PNone) ;;
      if eq_str stored_prompt prompt then
        _ <- lift (getitem entry "vector_score") ;;
        log DEBUG "EXACT MATCH FOUND with vector score: {entry['vector_score']}" ;;
        scan_exact_match rest prompt (Some entry)
      else scan_exact_match rest prompt cache_entry
  end.

(** The admission of a cache entry: the entry that counts as the hit, or
    [None] on a miss ([cache_hit] is [False]). *)
Definition select_cache_entry (cache_lookup : list pyval) (prompt : string) : M (option pyval) :=
  cache_entry <- (match cache_lookup with
                  | [] => ret None
                  | _ => scan_exact_match cache_lookup prompt None
                  end) ;;
  match cache_entry with
  | Some entry =>
      log INFO "Exact match cache hit" ;;
      ret (Some entry)
  | None =>
      match cache_lookup with
      | [] => ret None
      | top :: _ =>
          score <- lift (getitem top "vector_score") ;;
          score <- lift (py_float score) ;;
          if (VECTOR_SCORE_THRESHOLD <=? score)%float then
            log INFO "Vector-based cache hit" ;;
            ret (Some top)
          else ret None
      end
  end.

(** [result["embedding_text"]] of every schema result, as the items that
    [str.join] accepts. *)
Fixpoint schema_context_of (schema_results : list pyval) : M (list pyval) :=
  match schema_results with
  | [] => ret []
  | result :: rest =>
      log DEBUG "{result}" ;;
      text <- lift (getitem result "embedding_text") ;;
      texts <- schema_context_of rest ;;
      ret (text :: texts)
  end.

(** [sep.join(items)]: a [TypeError] for an item that is no [str]. *)
Fixpoint join_strs (sep : string) (items : list pyval) : result string :=
  match items with
  | [] => Ok ""
  | PStr s :: rest =>
      match rest with
      | [] => Ok s
      | _ => match join_strs sep rest with
             | Ok t => Ok (s ++ sep ++ t)
             | Raise e => Raise e
             end
      end
  | _ :: _ => Raise (TypeError "sequence item: expected str instance")
  end.

(** The branch of a cache miss. *)
Definition resolve_miss (t2sql_conn : PostgreSQLService.connection) (prompt : string)
    (embeddings_for_prompt : list float) : M pyval :=
  log INFO "Cache miss" ;;
  schema_results <- Indexer.compare_embeddings env prompt 5 ;;
  schema_context <- schema_context_of schema_results ;;
  scehma_context_text <- lift (join_strs (nl ++ nl) schema_context) ;;
  sql <- TextToSQL.get_sql_from_bedrock env prompt scehma_context_text ;;
  log DEBUG "sql::{sql}" ;;
  if negb (truthy sql) then
    ret (PDict [ ("statusCode", PInt 500);
                 ("body", PDict [ ("response", PStr "Unable to generate SQL for the provided prompt, please try again.") ]);
                 ("headers", PDict [ ("Content-Type", PStr "application/json") ]) ])
  else
    executed <- TextToSQL.execute_sql env t2sql_conn sql ;;
    let '(sql_response, column_names) := executed in
    log DEBUG "sql_response::{sql_response}" ;;
    log DEBUG "column_names::{column_names}" ;;
    response <- TextToSQL.describe_results_from_query env sql (sql_response, column_names)
                  scehma_context_text ;;
    body <- lift (getitem response "body") ;;
    text_response <- lift (getitem body "response") ;;
    let cache_data := [ ("sql_statement", sql);
                        ("text_response", text_response);
                        ("query_results", PStr (py_str env (PList sql_response)));
                        ("column_names", PList (map PStr column_names));
                        ("schema_text", PStr scehma_context_text);
                        ("prompt_text", PStr prompt) ] in
    _ <- Cache.add env prompt embeddings_for_prompt cache_data "cache" ;;
    ret response.

(** The branch of a cache hit. *)
Definition serve_hit (cache_entry : pyval) (cache_lookup : list pyval) : M pyval :=
  log INFO "Cache hit" ;;
  cache_entry <- (if truthy cache_entry then ret cache_entry
                  else match cache_lookup with
                       | top :: _ => ret top
                       | [] => raise (Exception "list index out of range")
                       end) ;;
  _ <- lift (getitem cache_entry "vector_score") ;;
  log INFO "Cache similarity: {cache_entry['vector_score']}" ;;
  sql_statement <- lift (entry_get cache_entry "sql_statement" PNone) ;;
  sql_statement <-
    (if truthy sql_statement then
       match sql_statement with
       | PStr s =>
           if String.prefix "[" s then
             try_except
               (lift (json_loads env s))
               (fun e => match e with ValueError _ => true | _ => false end)
               (fun _ => ret sql_statement)
           else ret sql_statement
       | _ => raise (AttributeError "object has no attribute 'startswith'")
       end
     else ret sql_statement) ;;
  text_response <- lift (getitem cache_entry "text_response") ;;
  query_results <- lift (getitem cache_entry "query_results") ;;
  column_names <- lift (entry_get cache_entry "column_names" (PList [])) ;;
  cache_id <- lift (getitem cache_entry "id") ;;
  ret (PDict [ ("statusCode", PInt 200);
               ("body", PDict [ ("response", text_response);
                                ("query", sql_statement);
                                ("query_results", query_results);
                                ("column_names", column_names);
                                ("cache_id", cache_id) ]);
               ("headers", PDict [ ("Content-Type", PStr "application/json") ]) ]).

(** The body of the [try] statement. *)
Definition resolve (t2sql_conn : PostgreSQLService.connection) (prompt : string)
    (conversation_context : list message) : M pyval :=
  let full_prompt := full_prompt_of conversation_context prompt in
  embeddings_for_prompt <- Embed.get_embedding env prompt ;;
  Cache.connect_to_cluster (MEMDB_ENDPOINT env) ;;
  cache_lookup <- Cache.search env embeddings_for_prompt 20 ;;
  cache_entry <- select_cache_entry cache_lookup prompt ;;
  match cache_entry with
  | None => resolve_miss t2sql_conn prompt embeddings_for_prompt
  | Some entry => serve_hit entry cache_lookup
  end.

(** The handler after the follow-up check. *)
Definition answer_from_data (prompt : string) (conversation_context : list message) : M pyval :=
  if negb (PostgresValidation.is_valid_postgres_identifier (RDS_DATABASE_NAME env)
           || PostgresValidation.is_valid_postgres_identifier (RDS_SCHEMA env)) then
    raise (Exception "'{RDS_SCHEMA}' or '{RDS_DATABASE_NAME}' is not a valid PostgreSQL name.")
  else
    PostgreSQLService.set_secret env (SECRET_NAME env) ;;
    t2sql_conn <- PostgreSQLService.connect_to_db env ;;
    if negb (PostgreSQLService.conn_truthy t2sql_conn) then
      raise (Exception "Failed to connect to database for text-to-SQL user")
    else
      try_finally
        (resolve t2sql_conn prompt conversation_context)
        (log INFO "Closing connection" ;;
         log INFO "End" ;;
         PostgreSQLService.close t2sql_conn).

(** The follow-up check: the response to return at once, if any. *)
Definition follow_up (prompt : string) (conversation_context : list message) : M (option pyval) :=
  match conversation_context with
  | [] => ret None
  | _ :: _ =>
      let full_prompt := full_prompt_of conversation_context prompt in
      follow_up_check <- TextToSQL.check_if_follow_up_question env full_prompt ;;
      is_follow_up <- lift (getitem follow_up_check "is_follow_up") ;;
      if truthy is_follow_up then
        log INFO "Handling as follow-up question without SQL" ;;
        answer <- lift (getitem follow_up_check "answer") ;;
        ret (Some (follow_up_response answer))
      else ret None
  end.

Definition lambda_handler (event : request) : M pyval :=
  log DEBUG "{event}" ;;
  log INFO "Start" ;;
  let prompt := query event in
  let conversation_context := default [] (conversation_context event) in
  answered <- follow_up prompt conversation_context ;;
  match answered with
  | Some response => ret response
  | None => answer_from_data prompt conversation_context
  end.

End WithEnv.
End PromptHandler.

(* ===================================================================== *)
(** * services/indexer.py: the descriptors of the tables                  *)
(* ===================================================================== *)

Module Metadata.

(** A row that [fetch_metadata] returns: the fourteen columns of the select
    list of its query, in order. *)
Record column_row : Type := {
  table_schema : string;
  table_name : string;
  column_name : string;
  data_type : string;
  character_maximum_length : option Z;
  numeric_precision : option Z;
  numeric_scale : option Z;
  is_nullable : string;
  column_default : option string;
  constraint_type : option string;
  constraint_name : option string;
  referenced_table_schema : option string;
  referenced_table_name : option string;
  referenced_column_name : option string
}.

(** [str(n)] for an [int], as an f-string formats it. *)
Definition str_int (n : Z) : string := NilZero.string_of_int (Z.to_int n).

(** The text of a value that is a [str] or [None] in an f-string. *)
Definition fmt (o : option string) : string :=
  match o with
  | Some s => s
  | None => "None"
  end.

(** [o == s] for a value that is a [str] or [None]. *)
Definition opt_eqb (o : option string) (s : string) : bool :=
  match o with
  | Some s' => String.eqb s' s
  | None => false
  end.

(** [s in l] for a list of [str]. *)
Definition str_in (s : string) (l : list string) : bool := existsb (String.eqb s) l.

Definition lf : string := String "010"%char "".

(** The key of the dict [tables]: [(row[0], row[1])]. *)
Definition table_key : Type := (string * string)%type.

Definition key_of (row : column_row) : table_key := (table_schema row, table_name row).

Definition key_eqb (a b : table_key) : bool :=
  String.eqb (fst a) (fst b) && String.eqb (snd a) (snd b).

(** [if table_key not in tables: tables[table_key] = []] followed by
    [tables[table_key].append(row)]; the dict keeps its keys in the order
    of their insertion. *)
Fixpoint append_row (tables : list (table_key * list column_row)) (key : table_key)
    (row : column_row) : list (table_key * list column_row) :=
  match tables with
  | [] => [(key, [row])]
  | (k, rows) :: rest =>
      if key_eqb k key then (k, (rows ++ [row])%list) :: rest
      else (k, rows) :: append_row rest key row
  end.

(** The first loop of [create_embedding_string]. *)
Definition group_rows (query_result : list column_row)
  : list (table_key * list column_row) :=
  fold_left (fun tables row => append_row tables (key_of row) row) query_result [].

(** The line of a column, the body of the inner loop. *)
Definition column_line (col : column_row) : string :=
  let col_name := column_name col in
  let data_type := data_type col in
  let max_length := character_maximum_length col in
  let precision := numeric_precision col in
  let scale := numeric_scale col in
  let is_nullable := if String.eqb (is_nullable col) "YES" then "NULL" else "NOT NULL" in
  let constraint_type := constraint_type col in
  let foreign_key :=
    "FOREIGN KEY references " ++ fmt (referenced_table_schema col) ++ "."
    ++ fmt (referenced_table_name col) ++ "(" ++ fmt (referenced_column_name col) ++ ")" in
  let constraints :=
    ((if opt_eqb constraint_type "UNIQUE" then ["UNIQUE"] else [])
     ++ (if opt_eqb constraint_type "FOREIGN KEY" then [foreign_key] else []))%list in
  let constraint_str :=
    match constraints with
    | [] => ""
    | _ => " [" ++ String.concat ", " constraints ++ "]"
    end in
  let data_type :=
    if str_in data_type ["numeric"; "decimal"; "real"; "double precision"] then
      match precision with
      | Some p =>
          data_type ++ "(" ++ str_int p
          ++ (match scale with Some sc => "," ++ str_int sc | None => "" end) ++ ")"
      | None => data_type
      end
    else if str_in data_type ["character"; "character varying"; "varchar"; "char"] then
      match max_length with
      | Some n => data_type ++ "(" ++ str_int n ++ ")"
      | None => data_type
      end
    else data_type in
  "- " ++ col_name ++ " (" ++ data_type ++ ", " ++ is_nullable ++ ")" ++ constraint_str ++ lf.

(** [table_string] at the end of the outer loop. *)
Definition table_string (key : table_key) (columns : list column_row) : string :=
  let '(schema, table_name) := key in
  fold_left (fun table_string col => table_string ++ column_line col) columns
    ("Table: " ++ table_name ++ " (Schema: " ++ schema ++ ")" ++ lf ++ "Columns:" ++ lf).

(** An element of the list that [create_embedding_string] returns. *)
Record table_definition : Type := {
  database : string;
  schema : string;
  table : string;
  embedding_text : string;
  embedding_hash : string
}.

Section WithEnv.
Context (env : Env).

Definition create_embedding_string (query_result : list column_row) : list table_definition :=
  map (fun entry : table_key * list column_row =>
         let table_string := table_string (fst entry) (snd entry) in
         {| database := db_name env;
            schema := fst (fst entry);
            table := snd (fst entry);
            embedding_text := table_string;
            embedding_hash := sha256_hexdigest env table_string |})
      (group_rows query_result).

Fixpoint generate_embeddings (metadata : list table_definition)
  : M (list Indexer.table_metadata) :=
  match metadata with
  | [] => ret []
  | db_metadata :: rest =>
      db_embedding <- Embed.get_embedding env (embedding_text db_metadata) ;;
      rest <- generate_embeddings rest ;;
      ret ({| Indexer.md_database := database db_metadata;
              Indexer.md_schema := schema db_metadata;
              Indexer.md_table := table db_metadata;
              Indexer.md_embedding_text := embedding_text db_metadata;
              Indexer.md_embedding_hash := embedding_hash db_metadata;
              Indexer.md_embedding := db_embedding |} :: rest)
  end.

End WithEnv.
End Metadata.

(* ===================================================================== *)
(** * indexer_handler.py                                                  *)
(* ===================================================================== *)

Module IndexerHandler.
Section WithEnv.
Context (env : Env).
(** [INDEXER_SECRET_ID], and what the metadata query of [fetch_metadata]
    answers. *)
Context (INDEXER_SECRET_ID : string) (catalog : result (list Metadata.column_row)).

Definition metadata_query : pyval :=
  PStr "SELECT t.table_schema, t.table_name, c.column_name, c.data_type, c.character_maximum_length, c.numeric_precision, c.numeric_scale, c.is_nullable, c.column_default, tc.constraint_type, tc.constraint_name, ccu.table_schema, ccu.table_name, ccu.column_name FROM information_schema.tables t ...".

Definition fetch_metadata (conn : PostgreSQLService.connection)
  : M (list Metadata.column_row) :=
  emit (PgExecute metadata_query PNone) ;;
  lift catalog.

Definition lambda_handler : M unit :=
  if negb (PostgresValidation.is_valid_postgres_identifier (RDS_DATABASE_NAME env)
           || PostgresValidation.is_valid_postgres_identifier (RDS_SCHEMA env)) then
    raise (Exception "'{RDS_SCHEMA}' or '{RDS_DATABASE_NAME}' is not a valid PostgreSQL name.")
  else
    PostgreSQLService.set_secret env INDEXER_SECRET_ID ;;
    idx_conn <- PostgreSQLService.connect_to_db env ;;
    if negb (PostgreSQLService.conn_truthy idx_conn) then
      raise (Exception "Failed to connect to database for index user")
    else
      try_finally
        (cursor_result <- fetch_metadata idx_conn ;;
         let metadata := Metadata.create_embedding_string env cursor_result in
         metadata_w_embeddings <- Metadata.generate_embeddings env metadata ;;
         Indexer.store_embeddings metadata_w_embeddings)
        (log INFO "Closing connection" ;;
         log INFO "End" ;;
         PostgreSQLService.close idx_conn).

End WithEnv.
End IndexerHandler.

(* ===================================================================== *)
(** * A concrete environment                                              *)
(* ===================================================================== *)

Module Demo.

Definition describe (p : prompt) : result string :=
  match p with
  | FollowUpPrompt _ => Ok "is_follow_up: false"
  | SqlPrompt _ _ => Ok "Here it is: <sql>SELECT count(*) FROM t WHERE c = %s</sql> <params>['x']</params>"
  | TextPrompt _ _ _ => Ok "There are 5 properties."
  end.

Definition unit_vector : list float := [1%float; 0%float; 0%float].

(** An environment whose model answers every prompt, whose classifier
    result is [follow_up], and whose driver runs a statement only when it
    is a [str]. *)
Definition env_with (database schema : string) (model : prompt -> result string)
    (follow_up : result pyval) (found : list document) : Env :=
  {| RDS_DATABASE_NAME := database;
     RDS_SCHEMA := schema;
     SECRET_NAME := "secret";
     MEMDB_ENDPOINT := "memdb";
     db_name := database;
     invoke_model := model;
     loads_follow_up := fun _ => follow_up;
     literal_eval := fun _ => Ok (PList [PStr "x"]);
     invoke_embedding := fun _ => Ok unit_vector;
     get_secret_value := fun _ => Ok (PDict [("username", PStr "u"); ("password", PStr "p")]);
     psycopg_connect := fun _ => Ok tt;
     cursor_execute := fun sql _ =>
       match sql with
       | PStr _ => Ok (Some ([PTuple [PInt 5]], ["count"]))
       | _ => Raise (TypeError "query must be str, bytes or Composable")
       end;
     cosine_distance := fun _ _ => 0.5%float;
     ft_search := fun _ _ top_k => firstn top_k found;
     json_dumps := fun _ => Ok "[]";
     json_loads := fun _ => Ok (PList []);
     float_of_str := fun _ => Raise (ValueError "could not convert string to float");
     sha256_hexdigest := fun s => s;
     py_round := fun x _ => x;
     py_str := fun _ => "[(5,)]" |}.

Definition env : Env :=
  env_with "postgres" "public" describe
    (Ok (PDict [("is_follow_up", PBool false); ("answer", PNone)])) [].

Definition world (fault : option exn) : World :=
  {| trace := [];
     valkey_client := None;
     cluster_fault := fault;
     index_exists := false;
     store := ∅;
     db_secret := PNone;
     embeddings :=
       [ {| row_id := 1;
            row_embedding := unit_vector;
            row_database_name := "postgres";
            row_schema_name := "public";
            row_table_name := "t";
            row_embedding_text := "Table: t (Schema: public)";
            row_embedding_hash := "h1" |} ];
     next_id := 2 |}.

(** Two documents of the cache: the nearer one answers another question,
    the farther one stores the prompt of [request] verbatim. *)
Definition found : list document :=
  [ {| doc_id := "cache:1";
       doc_sql_statement := Some "SELECT count(*) FROM u";
       doc_text_response := Some "There are 7 users.";
       doc_query_results := Some "[(7,)]";
       doc_prompt_text := Some "How many users are there?";
       doc_schema_text := Some "Table: u (Schema: public)";
       doc_column_names := Some "[]";
       doc_score := 0.25%float |};
    {| doc_id := "cache:2";
       doc_sql_statement := Some "SELECT count(*) FROM t";
       doc_text_response := Some "There are 5 properties.";
       doc_query_results := Some "[(5,)]";
       doc_prompt_text := Some "How many properties are there?";
       doc_schema_text := Some "Table: t (Schema: public)";
       doc_column_names := Some "[]";
       doc_score := 0.5%float |} ].

Definition lookup : list pyval := map (Cache.doc_dict env) found.

(** The configuration of [env] with a vector engine that finds the two
    documents. *)
Definition warm_env : Env :=
  env_with "postgres" "public" describe
    (Ok (PDict [("is_follow_up", PBool false); ("answer", PNone)])) found.

(** An entry of a lookup result. *)
Definition stored_entry : pyval :=
  Cache.doc_dict env
    {| doc_id := "cache:2";
       doc_sql_statement := Some "SELECT count(*) FROM t";
       doc_text_response := Some "There are 5 properties.";
       doc_query_results := Some "[(5,)]";
       doc_prompt_text := Some "How many properties are there?";
       doc_schema_text := Some "Table: t (Schema: public)";
       doc_column_names := Some "[]";
       doc_score := 0.5%float |}.




(** A record of a cache write with an answer. *)
Definition answer_record : list (string * pyval) :=
  [ ("sql_statement", PTuple [PStr "SELECT count(*) FROM t"; PList []]);
    ("text_response", PStr "There are 5 properties.");
    ("query_results", PStr "[(5,)]");
    ("column_names", PList [PStr "count"]);
    ("schema_text", PStr "Table: t (Schema: public)");
    ("prompt_text", PStr "How many?") ].

(** Two descriptors: the table [t] that the table of embeddings holds
    already, and a table [u] that it does not hold. *)
Definition metadata : list Indexer.table_metadata :=
  [ {| Indexer.md_database := "postgres";
       Indexer.md_schema := "public";
       Indexer.md_table := "t";
       Indexer.md_embedding_text := "Table: t (Schema: public)";
       Indexer.md_embedding_hash := "h1";
       Indexer.md_embedding := unit_vector |};
    {| Indexer.md_database := "postgres";
       Indexer.md_schema := "public";
       Indexer.md_table := "u";
       Indexer.md_embedding_text := "Table: u (Schema: public)";
       Indexer.md_embedding_hash := "h2";
       Indexer.md_embedding := unit_vector |} ].

(** The world after a client of the reachable cluster has been built. *)
Definition connected : World :=
  {| trace := [];
     valkey_client := Some "memdb";
     cluster_fault := None;
     index_exists := true;
     store := ∅;
     db_secret := PNone;
     embeddings := [];
     next_id := 1 |}.

(** What the metadata query answers for the schema of two tables, [t]
    with an id and a name, and [u] with a price. *)
Definition column (table_name column_name data_type : string) (max_length precision : option Z)
  : Metadata.column_row :=
  {| Metadata.table_schema := "public";
     Metadata.table_name := table_name;
     Metadata.column_name := column_name;
     Metadata.data_type := data_type;
     Metadata.character_maximum_length := max_length;
     Metadata.numeric_precision := precision;
     Metadata.numeric_scale := option_map (fun _ => 2) precision;
     Metadata.is_nullable := "YES";
     Metadata.column_default := None;
     Metadata.constraint_type := None;
     Metadata.constraint_name := None;
     Metadata.referenced_table_schema := None;
     Metadata.referenced_table_name := None;
     Metadata.referenced_column_name := None |}.

Definition catalog : list Metadata.column_row :=
  [ column "t" "id" "integer" None None;
    column "u" "price" "numeric" None (Some 10);
    column "t" "name" "character varying" (Some 80) None ].

(** The world with the cache cluster unreachable. *)
Definition down : World := world (Some (ConnectionError "Connection refused")).

(** The world of a client whose cluster has become unreachable. *)
Definition lost : World :=
  {| trace := [];
     valkey_client := Some "memdb";
     cluster_fault := Some (ConnectionError "Connection refused");
     index_exists := true;
     store := ∅;
     db_secret := PNone;
     embeddings := [];
     next_id := 1 |}.

Definition request : PromptHandler.request :=
  {| PromptHandler.query := "How many properties are there?";
     PromptHandler.conversation_context := None |}.

(** The configuration with the reserved word [select] as schema name. *)
Definition invalid_schema_env : Env :=
  env_with "postgres" "select" describe
    (Ok (PDict [("is_follow_up", PBool false); ("answer", PNone)])) [].

(** A model whose answer to the SQL prompt has no [<sql>] block. *)
Definition refuse (p : prompt) : result string :=
  match p with
  | SqlPrompt _ _ => Ok "I cannot write a query for this request."
  | _ => describe p
  end.

Definition no_sql_env : Env :=
  env_with "postgres" "public" refuse
    (Ok (PDict [("is_follow_up", PBool false); ("answer", PNone)])) [].

(** The configuration of [env] with a database that refuses the
    connection. *)
Definition refused_env : Env :=
  {| RDS_DATABASE_NAME := RDS_DATABASE_NAME env;
     RDS_SCHEMA := RDS_SCHEMA env;
     SECRET_NAME := SECRET_NAME env;
     MEMDB_ENDPOINT := MEMDB_ENDPOINT env;
     db_name := db_name env;
     invoke_model := invoke_model env;
     loads_follow_up := loads_follow_up env;
     literal_eval := literal_eval env;
     invoke_embedding := invoke_embedding env;
     get_secret_value := get_secret_value env;
     psycopg_connect := fun _ => Raise (Exception "connection refused");
     cursor_execute := cursor_execute env;
     cosine_distance := cosine_distance env;
     ft_search := ft_search env;
     json_dumps := json_dumps env;
     json_loads := json_loads env;
     float_of_str := float_of_str env;
     sha256_hexdigest := sha256_hexdigest env;
     py_round := py_round env;
     py_str := py_str env |}.

(** The configuration of [env] with an embedding model that refuses the
    call. *)
Definition throttled_env : Env :=
  {| RDS_DATABASE_NAME := RDS_DATABASE_NAME env;
     RDS_SCHEMA := RDS_SCHEMA env;
     SECRET_NAME := SECRET_NAME env;
     MEMDB_ENDPOINT := MEMDB_ENDPOINT env;
     db_name := db_name env;
     invoke_model := invoke_model env;
     loads_follow_up := loads_follow_up env;
     literal_eval := literal_eval env;
     invoke_embedding := fun _ => Raise (Exception "ThrottlingException");
     get_secret_value := get_secret_value env;
     psycopg_connect := psycopg_connect env;
     cursor_execute := cursor_execute env;
     cosine_distance := cosine_distance env;
     ft_search := ft_search env;
     json_dumps := json_dumps env;
     json_loads := json_loads env;
     float_of_str := float_of_str env;
     sha256_hexdigest := sha256_hexdigest env;
     py_round := py_round env;
     py_str := py_str env |}.


(** A classifier whose answer is no JSON. *)
Definition garbled_env : Env :=
  env_with "postgres" "public" describe (Raise (ValueError "Expecting value")) [].


Definition turn : PromptHandler.message :=
  {| PromptHandler.role := "Human";
     PromptHandler.content := "What are the top properties in San Francisco?" |}.

Definition follow_up_request : PromptHandler.request :=
  {| PromptHandler.query := "How many properties are there?";
     PromptHandler.conversation_context := Some [turn] |}.

End Demo.

(* ===================================================================== *)
(** * Vocabulary of the properties                                        *)
(* ===================================================================== *)

Module Props.

(** [m] run in [w] returns [a]. *)
Definition returns {A} (m : M A) (w : World) (a : A) : Prop := fst (m w) = Ok a.

(** Every call [m] makes satisfies [P]. *)
Definition only_events (P : event -> bool) {A} (m : M A) : Prop :=
  forall w, exists evs, trace (snd (m w)) = (trace w ++ evs)%list /\ forallb P evs = true.

(** The first call of [m] is [ev]. *)
Definition begins_with (ev : event) {A} (m : M A) : Prop :=
  forall w, exists evs, trace (snd (m w)) = (trace w ++ ev :: evs)%list.

(** What [m] returns, when it returns, satisfies [Q]. *)
Definition yields {A} (Q : A -> Prop) (m : M A) : Prop :=
  forall w a, fst (m w) = Ok a -> Q a.


(** The call of the follow-up classification. *)
Definition is_follow_up_check (e : event) : bool :=
  match e with
  | InvokeModel (FollowUpPrompt _) => true
  | _ => false
  end.

Definition not_follow_up_check (e : event) : bool := negb (is_follow_up_check e).



(** The response has the status code 200. *)
Definition status_200 (response : pyval) : Prop :=
  getitem response "statusCode" = Ok (PInt 200).

Definition is_ok {A} (r : result A) : bool :=
  match r with
  | Ok _ => true
  | Raise _ => false
  end.

(** The record of a cache write has the fields of a cache entry, and its
    SQL statement and column names are serialised by [json.dumps] where
    [add] serialises them. *)
Definition well_formed_record (env : Env) (data : list (string * pyval)) : bool :=
  match assoc "sql_statement" data, assoc "query_results" data, assoc "text_response" data,
        assoc "schema_text" data, assoc "prompt_text" data with
  | Some sql_statement, Some _, Some _, Some _, Some _ =>
      (if Cache.is_list_or_tuple sql_statement then is_ok (json_dumps env sql_statement)
       else true)
      && (let column_names := dict_get data "column_names" (PList []) in
          if Cache.is_str column_names then true else is_ok (json_dumps env column_names))
  | _, _, _, _, _ => false
  end.

(** The part of [add] after the record has been read: the test of the
    answer and the write. *)
Definition add_body (key : string) (mapping : list (string * pyval)) (text_response : pyval)
  : M bool :=
  if negb (truthy text_response) then
    bind (log ERROR "Unable to add to cache, missing SQL statement.") (fun _ => ret false)
  else
    bind (log DEBUG "Adding to cache index: {key} {json.dumps(mapping, default=str)}")
      (fun _ =>
         try_except
           (bind (Cache.hset key mapping) (fun _ =>
            bind (Cache.expire key Cache.expiration_time) (fun _ =>
            bind (Cache.get_ttl key) (fun _ =>
            bind (log DEBUG "Time to live for '{key}': {ttl} seconds") (fun _ =>
            bind (Cache.hget key "prompt_text") (fun _ =>
            bind (log DEBUG "Retrieved value: {retrieved_value}") (fun _ =>
            ret true)))))))
           is_ValkeyError
           (fun _ => bind (log ERROR "Error adding to cache: {str(e)}") (fun _ => ret false))).


(** [m] leaves the reachability of the cache cluster as it is. *)
Definition keeps_fault {A} (m : M A) : Prop :=
  forall w, cluster_fault (snd (m w)) = cluster_fault w.

(** [m] raises whenever the cache cluster is unreachable. *)
Definition fails_when_down {A} (m : M A) : Prop :=
  forall w e, cluster_fault w = Some e -> exists e', fst (m w) = Raise e'.

(** ** Cache entries *)

(** An element of a lookup result: a dict with a float [vector_score]. *)
Definition is_cache_entry (entry : pyval) : bool :=
  match entry with
  | PDict d => match assoc "vector_score" d with
               | Some (PFloat _) => true
               | _ => false
               end
  | _ => false
  end.

Definition entry_score (entry : pyval) : float :=
  match entry with
  | PDict d => match assoc "vector_score" d with
               | Some (PFloat score) => score
               | _ => 0%float
               end
  | _ => 0%float
  end.

(** The stored [prompt_text] of the entry equals the prompt verbatim. *)
Definition exact_match (prompt : string) (entry : pyval) : bool :=
  match entry with
  | PDict d => eq_str (dict_get d "prompt_text" PNone) prompt
  | _ => false
  end.

(** The value of the variable [cache_entry] after the loop over the
    lookup result. *)
Fixpoint last_exact_match (prompt : string) (cache_lookup : list pyval)
    (cache_entry : option pyval) : option pyval :=
  match cache_lookup with
  | [] => cache_entry
  | entry :: rest =>
      last_exact_match prompt rest (if exact_match prompt entry then Some entry else cache_entry)
  end.

Definition is_log (e : event) : bool :=
  match e with
  | Log _ _ => true
  | _ => false
  end.

(** ** The table of embeddings *)





Definition is_insert (e : event) : bool :=
  match e with
  | PgInsert _ _ _ _ => true
  | _ => false
  end.

(** ** Retrieval *)





Definition is_select_similar (e : event) : bool :=
  match e with
  | PgSelectSimilar _ => true
  | _ => false
  end.

(** ** The cache cluster *)

Definition is_ft_create (e : event) : bool :=
  match e with
  | ValkeyCommand (FT_CREATE _) => true
  | _ => false
  end.

(** The hash that a write leaves at its key: the fields of the mapping
    over those of the hash that was there, and the time to live of ten
    minutes. *)
Definition written_entry (mapping : list (string * pyval)) (old : option hash_entry)
  : hash_entry :=
  {| fields := list_to_map mapping ∪ fields (default {| fields := ∅; ttl := None |} old);
     ttl := Some Cache.expiration_time |}.

(** ** The database connection *)

(** The opening and the closing of a database connection. *)
Definition is_connection_event (e : event) : bool :=
  match e with
  | PgConnect | PgClose => true
  | _ => false
  end.

(** The calls made while the connection is set up: the read of the
    secret, the attempt to connect, and logs. *)
Definition is_connection_setup (e : event) : bool :=
  match e with
  | GetSecretValue _ | PgConnect | Log _ _ => true
  | _ => false
  end.

(** ** Cache hits *)

(** [m] changes nothing in the world but the trace, to which it adds logs
    only. *)
Definition logs_only {A} (m : M A) : Prop :=
  forall w, exists evs, snd (m w) = add_events evs w /\ forallb is_log evs = true.

(** The response carries the stored answer, results and key of the
    entry. *)
Definition served_from (entry response : pyval) : Prop :=
  exists body,
    getitem response "body" = Ok body
    /\ getitem body "response" = getitem entry "text_response"
    /\ getitem body "query_results" = getitem entry "query_results"
    /\ getitem body "cache_id" = getitem entry "id".

(** ** Identifiers *)

(** A name made of a letter or underscore followed by letters, digits,
    underscores and dollar signs. *)
Definition plain_name (name : string) : bool :=
  match name with
  | EmptyString => false
  | String c s =>
      PostgresValidation.first_class c
      && forallb PostgresValidation.rest_class (list_ascii_of_string s)
  end.

(** ** The wire form of a vector, read back *)

(** The 32-bit word of four bytes, least significant first. *)
Definition word_of_le_bytes (b0 b1 b2 b3 : Byte.byte) : Z :=
  Float32.Z_of_byte b0 + 0x100 * Float32.Z_of_byte b1 + 0x10000 * Float32.Z_of_byte b2
  + 0x1000000 * Float32.Z_of_byte b3.

(** The reading of a wire form as binary32 numbers, four bytes for a
    number, as [array("f").frombytes] and the vector engine do it. *)
Fixpoint unpack_vector (b : list Byte.byte) : list spec_float :=
  match b with
  | b0 :: b1 :: b2 :: b3 :: rest =>
      Float32.single_of_bits (word_of_le_bytes b0 b1 b2 b3) :: unpack_vector rest
  | _ => []
  end.

(** A binary32 number: a mantissa of at most 24 bits in canonical form and
    an exponent in range. *)
Definition is_single (f : spec_float) : bool :=
  SpecFloat.valid_binary Float32.prec Float32.emax f.

(** ** The descriptors of the tables *)

(** The rows of the table with the key [k], in the order of the query
    result. *)
Definition rows_of (k : Metadata.table_key) (rows : list Metadata.column_row)
  : list Metadata.column_row :=
  List.filter (fun row => Metadata.key_eqb (Metadata.key_of row) k) rows.

Definition definition_key (d : Metadata.table_definition) : Metadata.table_key :=
  (Metadata.schema d, Metadata.table d).

(** The dict [tables] after the rows [rows]: a key for every table that
    has a row, no key twice, and under every key the rows of the table. *)
Definition grouped (tables : list (Metadata.table_key * list Metadata.column_row))
    (rows : list Metadata.column_row) : Prop :=
  List.NoDup (map fst tables)
  /\ (forall k columns, In (k, columns) tables -> columns = rows_of k rows /\ columns <> [])
  /\ (forall row, In row rows -> In (Metadata.key_of row) (map fst tables)).


End Props.
Import Props.

(* ===================================================================== *)
(** * The monad and the calls of the pipeline                             *)
(* ===================================================================== *)

Section Monad.
Context {A B : Type}.

Lemma add_events_add_events e1 e2 w :
  add_events e2 (add_events e1 w) = add_events (e1 ++ e2)%list w.
Proof. unfold add_events; simpl. by rewrite app_assoc. Qed.

Lemma add_events_nil w : add_events [] w = w.
Proof. destruct w; unfold add_events; simpl. by rewrite app_nil_r. Qed.

Lemma bind_emit ev (k : unit -> M B) w : bind (emit ev) k w = k tt (add_events [ev] w).
Proof. reflexivity. Qed.

Lemma bind_log lvl msg (k : unit -> M B) w :
  bind (log lvl msg) k w = k tt (add_events [Log lvl msg] w).
Proof. reflexivity. Qed.

Lemma bind_lift_ok (a : A) (k : A -> M B) : bind (lift (Ok a)) k = k a.
Proof. reflexivity. Qed.

Lemma bind_lift_raise e (k : A -> M B) w : bind (lift (Raise e)) k w = (Raise e, w).
Proof. reflexivity. Qed.

Lemma bind_ret (a : A) (k : A -> M B) : bind (ret a) k = k a.
Proof. reflexivity. Qed.

Lemma bind_raised (m : M A) (k : A -> M B) w e w1 :
  m w = (Raise e, w1) -> bind m k w = (Raise e, w1).
Proof. unfold bind. by intros ->. Qed.

Lemma bind_get {X} (f : World -> X) (k : X -> M B) w : bind (get f) k w = k (f w) w.
Proof. reflexivity. Qed.

Variable P : event -> bool.

Lemma only_ret (a : A) : only_events P (ret a).
Proof. intros w. exists []. simpl. by rewrite app_nil_r. Qed.

Lemma only_raise e : only_events P (@raise A e).
Proof. intros w. exists []. simpl. by rewrite app_nil_r. Qed.

Lemma only_lift (r : result A) : only_events P (lift r).
Proof. intros w. exists []. simpl. by rewrite app_nil_r. Qed.

Lemma only_get (f : World -> A) : only_events P (get f).
Proof. intros w. exists []. simpl. by rewrite app_nil_r. Qed.

Lemma only_emit ev : P ev = true -> only_events P (emit ev).
Proof. intros H w. exists [ev]. simpl. by rewrite H. Qed.

Lemma only_bind (m : M A) (k : A -> M B) :
  only_events P m -> (forall a, only_events P (k a)) -> only_events P (bind m k).
Proof.
  intros Hm Hk w. unfold bind. destruct (Hm w) as (e1 & H1 & F1).
  destruct (m w) as [[a|e] w1]; simpl in *.
  - destruct (Hk a w1) as (e2 & H2 & F2). exists (e1 ++ e2)%list.
    rewrite H2, H1, app_assoc, forallb_app, F1, F2. done.
  - exists e1. done.
Qed.

Lemma only_try_except (m : M A) handles (h : exn -> M A) :
  only_events P m -> (forall e, only_events P (h e)) -> only_events P (try_except m handles h).
Proof.
  intros Hm Hh w. unfold try_except. destruct (Hm w) as (e1 & H1 & F1).
  destruct (m w) as [[a|e] w1]; simpl in *.
  - exists e1. done.
  - destruct (handles e); [|by exists e1].
    destruct (Hh e w1) as (e2 & H2 & F2). exists (e1 ++ e2)%list.
    rewrite H2, H1, app_assoc, forallb_app, F1, F2. done.
Qed.

Lemma only_try_finally (m : M A) (c : M unit) :
  only_events P m -> only_events P c -> only_events P (try_finally m c).
Proof.
  intros Hm Hc w. unfold try_finally. destruct (Hm w) as (e1 & H1 & F1).
  destruct (m w) as [r w1]; simpl in *.
  destruct (Hc w1) as (e2 & H2 & F2).
  destruct (c w1) as [[[]|e] w2]; simpl in *; exists (e1 ++ e2)%list;
    rewrite H2, H1, app_assoc, forallb_app, F1, F2; done.
Qed.

End Monad.

Lemma only_set_valkey_client P c : only_events P (set_valkey_client c).
Proof. intros w. exists []. simpl. by rewrite app_nil_r. Qed.
Lemma only_set_index_exists P c : only_events P (set_index_exists c).
Proof. intros w. exists []. simpl. by rewrite app_nil_r. Qed.
Lemma only_set_store P c : only_events P (set_store c).
Proof. intros w. exists []. simpl. by rewrite app_nil_r. Qed.
Lemma only_set_db_secret P c : only_events P (set_db_secret c).
Proof. intros w. exists []. simpl. by rewrite app_nil_r. Qed.
Lemma only_set_embeddings P c n : only_events P (set_embeddings c n).
Proof. intros w. exists []. simpl. by rewrite app_nil_r. Qed.

Ltac only_step :=
  lazymatch goal with
  | |- only_events _ (bind _ _) => apply only_bind; [|intros]
  | |- only_events _ (ret _) => apply only_ret
  | |- only_events _ (raise _) => apply only_raise
  | |- only_events _ (lift _) => apply only_lift
  | |- only_events _ (get _) => apply only_get
  | |- only_events _ (set_valkey_client _) => apply only_set_valkey_client
  | |- only_events _ (set_index_exists _) => apply only_set_index_exists
  | |- only_events _ (set_store _) => apply only_set_store
  | |- only_events _ (set_db_secret _) => apply only_set_db_secret
  | |- only_events _ (set_embeddings _ _) => apply only_set_embeddings
  | |- only_events _ (emit _) => apply only_emit; reflexivity
  | |- only_events _ (log _ _) => apply only_emit; reflexivity
  | |- only_events _ (try_except _ _ _) => apply only_try_except; [|intros]
  | |- only_events _ (try_finally _ _) => apply only_try_finally
  | |- only_events _ (match ?x with _ => _ end) => destruct x
  end.

Ltac only_tac := repeat only_step.

Lemma only_check P env fp :
  P (InvokeModel (FollowUpPrompt fp)) = true -> (forall l s, P (Log l s) = true) ->
  only_events P (TextToSQL.check_if_follow_up_question env fp).
Proof.
  intros H1 H2. unfold TextToSQL.check_if_follow_up_question, TextToSQL.__call_bedrock, log.
  only_tac. all: try (apply only_emit; auto).
Qed.


Section Quiet.
Context (env : Env).
Let Q := not_follow_up_check.

Ltac unf := unfold Cache.on_client, Cache.command.

Lemma quiet_get_embedding t : only_events Q (Embed.get_embedding env t).
Proof. unfold Embed.get_embedding; unf; only_tac. Qed.


Lemma quiet_connect_to_db : only_events Q (PostgreSQLService.connect_to_db env).
Proof. unfold PostgreSQLService.connect_to_db; unf; only_tac. Qed.

Lemma quiet_connect_to_cluster ep : only_events Q (Cache.connect_to_cluster ep).
Proof.
  unfold Cache.connect_to_cluster, Cache.setup_index, Cache.ValkeyCluster,
    Cache.ft_info, Cache.ft_create_index; unf; only_tac.
Qed.

Lemma quiet_search v k : only_events Q (Cache.search env v k).
Proof. unfold Cache.search; unf; only_tac. Qed.

Lemma quiet_add key v data prefix : only_events Q (Cache.add env key v data prefix).
Proof.
  unfold Cache.add, Cache.hset, Cache.expire, Cache.get_ttl, Cache.hget; unf; only_tac.
Qed.

Lemma quiet_scan l p acc : only_events Q (PromptHandler.scan_exact_match l p acc).
Proof.
  revert acc; induction l as [|e l IH]; intros acc; simpl; unf; only_tac; apply IH.
Qed.

Lemma quiet_select_cache_entry l p : only_events Q (PromptHandler.select_cache_entry env l p).
Proof.
  unfold PromptHandler.select_cache_entry; unf; only_tac; try apply quiet_scan.
Qed.

Lemma quiet_compare p k : only_events Q (Indexer.compare_embeddings env p k).
Proof.
  unfold Indexer.compare_embeddings, Indexer.select_similar; unf; only_tac; try apply quiet_get_embedding.
Qed.

Lemma quiet_schema_context l : only_events Q (PromptHandler.schema_context_of l).
Proof. induction l as [|e l IH]; simpl; unf; only_tac; apply IH. Qed.

Lemma quiet_get_sql q s : only_events Q (TextToSQL.get_sql_from_bedrock env q s).
Proof. unfold TextToSQL.get_sql_from_bedrock, TextToSQL.__call_bedrock; unf; only_tac. Qed.

Lemma quiet_execute_sql c s : only_events Q (TextToSQL.execute_sql env c s).
Proof. unfold TextToSQL.execute_sql; unf; only_tac. Qed.

Lemma quiet_describe s r sc : only_events Q (TextToSQL.describe_results_from_query env s r sc).
Proof. unfold TextToSQL.describe_results_from_query, TextToSQL.__call_bedrock; unf; only_tac. Qed.

Lemma quiet_resolve_miss c p v : only_events Q (PromptHandler.resolve_miss env c p v).
Proof.
  unfold PromptHandler.resolve_miss; unf; only_tac;
    auto using quiet_compare, quiet_schema_context, quiet_get_sql, quiet_execute_sql,
      quiet_describe, quiet_add.
Qed.

Lemma quiet_serve_hit e l : only_events Q (PromptHandler.serve_hit env e l).
Proof. unfold PromptHandler.serve_hit; unf; only_tac. Qed.


End Quiet.


Section Yields.
Context {A B : Type}.

Lemma yields_ret (Q : A -> Prop) a : Q a -> yields Q (ret a).
Proof. intros H w a' [= <-]. done. Qed.

Lemma yields_raise (Q : A -> Prop) e : yields Q (raise e).
Proof. intros w a [=]. Qed.

Lemma yields_bind (Q1 : A -> Prop) (Q : B -> Prop) (m : M A) (k : A -> M B) :
  yields Q1 m -> (forall a, Q1 a -> yields Q (k a)) -> yields Q (bind m k).
Proof.
  intros Hm Hk w b. unfold bind. specialize (Hm w).
  destruct (m w) as [[a|e] w1]; simpl in *; [|done].
  apply (Hk a); auto.
Qed.

Lemma yields_any (m : M A) : yields (fun _ => True) m.
Proof. done. Qed.

Lemma yields_try_except (Q : A -> Prop) (m : M A) handles h :
  yields Q m -> (forall e, yields Q (h e)) -> yields Q (try_except m handles h).
Proof.
  intros Hm Hh w a. unfold try_except. specialize (Hm w).
  destruct (m w) as [[a'|e] w1]; simpl in *; [auto|].
  destruct (handles e); [apply Hh|done].
Qed.

Lemma yields_try_finally (Q : A -> Prop) (m : M A) c :
  yields Q m -> yields Q (try_finally m c).
Proof.
  intros Hm w a. unfold try_finally. specialize (Hm w).
  destruct (m w) as [r w1]; simpl in *.
  destruct (c w1) as [[[]|e] w2]; simpl; [auto|done].
Qed.

End Yields.



Ltac ystep :=
  lazymatch goal with
  | |- yields _ (bind _ _) => eapply yields_bind; [apply yields_any|intros ? _]
  | |- yields _ (ret _) => apply yields_ret
  | |- yields _ (raise _) => apply yields_raise
  | |- yields _ (try_except _ _ _) => apply yields_try_except; [|intros]
  | |- yields _ (try_finally _ _) => apply yields_try_finally
  | |- yields _ (match ?x with _ => _ end) => destruct x
  end.

Section Shape.
Context (env : Env).





End Shape.


Section Stages.
Context (env : Env).

Lemma bind_ok {A B} (m : M A) (k : A -> M B) w a w1 :
  m w = (Ok a, w1) -> bind m k w = k a w1.
Proof. unfold bind. by intros ->. Qed.

Lemma bind_extends {A B} P (m : M A) (k : A -> M B) w :
  (forall a, only_events P (k a)) ->
  exists evs, trace (snd (bind m k w)) = (trace (snd (m w)) ++ evs)%list.
Proof.
  intros Hk. unfold bind. destruct (m w) as [[a|e] w1]; simpl.
  - destruct (Hk a w1) as (evs & H & _). eauto.
  - exists []. by rewrite app_nil_r.
Qed.


Lemma set_secret_ok s sec w :
  get_secret_value env s = Ok sec ->
  PostgreSQLService.set_secret env s w
  = (Ok tt, snd (set_db_secret sec (add_events [GetSecretValue s] w))).
Proof.
  intros H. unfold PostgreSQLService.set_secret, try_except, bind, emit, lift.
  rewrite H. reflexivity.
Qed.

Lemma connect_to_db_ok sec u p w :
  db_secret w = sec -> truthy sec = true ->
  getitem sec "username" = Ok u -> getitem sec "password" = Ok p ->
  psycopg_connect env sec = Ok tt ->
  PostgreSQLService.connect_to_db env w = (Ok tt, add_events [PgConnect] w).
Proof.
  intros Hs Ht Hu Hp Hc.
  unfold PostgreSQLService.connect_to_db, try_except, bind, get, emit, lift.
  rewrite Hs, Ht. simpl. rewrite Hu, Hp. simpl. rewrite Hc. reflexivity.
Qed.

Lemma get_embedding_ok t emb w :
  invoke_embedding env t = Ok emb ->
  Embed.get_embedding env t w
  = (Ok emb, add_events [ Log DEBUG "Generating embedding for {text}";
                          InvokeEmbedding t;
                          Log DEBUG "Embedding generated: {response_body['embedding']}" ] w).
Proof.
  intros H. unfold Embed.get_embedding, try_except, bind, log, emit, lift.
  rewrite H. rewrite !add_events_add_events. reflexivity.
Qed.


Lemma begins_emit ev : begins_with ev (emit ev).
Proof. intros w. by exists []. Qed.

Lemma begins_bind {A B} P ev (m : M A) (k : A -> M B) :
  begins_with ev m -> (forall a, only_events P (k a)) -> begins_with ev (bind m k).
Proof.
  intros Hm Hk w. destruct (bind_extends P m k w Hk) as (e2 & H2).
  destruct (Hm w) as (e1 & H1). exists (e1 ++ e2)%list.
  rewrite H2, H1. by rewrite <- app_assoc.
Qed.

Lemma begins_try_except {A} P ev (m : M A) handles h :
  begins_with ev m -> (forall e, only_events P (h e)) -> begins_with ev (try_except m handles h).
Proof.
  intros Hm Hh w. unfold try_except. destruct (Hm w) as (e1 & H1).
  destruct (m w) as [[a|e] w1]; simpl in *; [eauto|].
  destruct (handles e); [|eauto].
  destruct (Hh e w1) as (e2 & H2 & _). exists (e1 ++ e2)%list.
  rewrite H2, H1. by rewrite <- app_assoc.
Qed.




End Stages.

Import PromptHandler.

Lemma no_context_runs_pipeline env event w :
  conversation_context event = None \/ conversation_context event = Some [] ->
  lambda_handler env event w
  = answer_from_data env (query event) []
      (add_events [Log DEBUG "{event}"; Log INFO "Start"] w).
Proof.
  intros [H|H]; unfold lambda_handler; rewrite H;
    cbv [bind log emit follow_up ret default]; by rewrite add_events_add_events.
Qed.




(* ===================================================================== *)
(** * The follow-up short circuit                                         *)
(* ===================================================================== *)






(* ===================================================================== *)
(** * Identifier validation and the guard of the handler                  *)
(* ===================================================================== *)

Lemma is_valid_postgres_identifier_spec name :
  PostgresValidation.is_valid_postgres_identifier name = true
  <-> PostgresValidation.re_match_pattern name = true
      /\ (Z.of_nat (String.length name) <= 63)%Z
      /\ PostgresValidation.is_reserved (PostgresValidation.lower name) = false.
Proof.
  unfold PostgresValidation.is_valid_postgres_identifier.
  destruct (PostgresValidation.re_match_pattern name); cbn [negb];
    [|split; [discriminate|intros [? _]; discriminate]].
  destruct (Z.ltb_spec 63 (Z.of_nat (String.length name)));
    [split; [discriminate|intros (_ & ? & _); lia]|].
  destruct (PostgresValidation.is_reserved _);
    [split; [discriminate|intros (_ & _ & ?); discriminate]|].
  split; auto.
Qed.

Lemma identifier_examples :
  map PostgresValidation.is_valid_postgres_identifier
    [ "123bad"; "pg_internal"; "select"; "SeLeCt";
      "a234567890123456789012345678901234567890123456789012345678901234";
      "valid_name"; "_ok123";
      "a23456789012345678901234567890123456789012345678901234567890123" ]
  = [ false; false; false; false; false; true; true; true ].
Proof. reflexivity. Qed.

(** The guard raises exactly when both names are invalid, and then before
    any call. *)
Lemma guard_rejects_both_invalid env prompt ctx w :
  PostgresValidation.is_valid_postgres_identifier (RDS_DATABASE_NAME env) = false ->
  PostgresValidation.is_valid_postgres_identifier (RDS_SCHEMA env) = false ->
  answer_from_data env prompt ctx w
  = (Raise (Exception "'{RDS_SCHEMA}' or '{RDS_DATABASE_NAME}' is not a valid PostgreSQL name."), w).
Proof. intros H1 H2. unfold answer_from_data. rewrite H1, H2. reflexivity. Qed.

Lemma guard_accepts_one_valid env prompt ctx :
  PostgresValidation.is_valid_postgres_identifier (RDS_DATABASE_NAME env)
  || PostgresValidation.is_valid_postgres_identifier (RDS_SCHEMA env) = true ->
  begins_with (GetSecretValue (SECRET_NAME env)) (answer_from_data env prompt ctx).
Proof.
  intros H. unfold answer_from_data. rewrite H. cbn [negb].
  apply (begins_bind not_follow_up_check).
  - unfold PostgreSQLService.set_secret.
    apply (begins_try_except not_follow_up_check); [|intros; repeat only_step].
    apply (begins_bind not_follow_up_check); [apply begins_emit|intros; repeat only_step].
  - intros _. repeat only_step; auto using quiet_connect_to_db.
    all: unfold resolve, PostgreSQLService.close.
    all: repeat only_step;
      auto using quiet_get_embedding, quiet_connect_to_cluster, quiet_search,
        quiet_select_cache_entry, quiet_resolve_miss, quiet_serve_hit.
Qed.

(** C2 (the code departs from the claim): with the valid database name
    [postgres] and the reserved word [select] as schema name, identifier
    validation refuses the schema name, and yet the request is not
    rejected: the secret is read, the database connection is opened and a
    response is returned. *)
Theorem invalid_schema_is_not_rejected :
  PostgresValidation.is_valid_postgres_identifier (RDS_SCHEMA Demo.invalid_schema_env) = false
  /\ PostgresValidation.is_valid_postgres_identifier (RDS_DATABASE_NAME Demo.invalid_schema_env)
     = true
  /\ (exists response,
        fst (lambda_handler Demo.invalid_schema_env Demo.request (Demo.world None)) = Ok response)
  /\ In PgConnect
       (trace (snd (lambda_handler Demo.invalid_schema_env Demo.request (Demo.world None)))).
Proof.
  split; [reflexivity|]. split; [reflexivity|]. split.
  - eexists. vm_compute. reflexivity.
  - vm_compute. tauto.
Qed.

(* ===================================================================== *)
(** * The response when no SQL is generated                               *)
(* ===================================================================== *)

Section NoSql.
Context (env : Env).

(** What [get_sql_from_bedrock] returns is true for [if sql:], also the
    error response. *)
Lemma get_sql_truthy query schema :
  yields (fun sql => truthy sql = true) (TextToSQL.get_sql_from_bedrock env query schema).
Proof. unfold TextToSQL.get_sql_from_bedrock. repeat ystep; reflexivity. Qed.

Lemma describe_status s r sc :
  yields status_200 (TextToSQL.describe_results_from_query env s r sc).
Proof. unfold TextToSQL.describe_results_from_query. repeat ystep. reflexivity. Qed.

Lemma resolve_miss_status c p v : yields status_200 (resolve_miss env c p v).
Proof.
  unfold resolve_miss.
  do 4 ystep.
  eapply yields_bind; [apply get_sql_truthy|intros sql Hsql].
  ystep. rewrite Hsql. cbn [negb].
  ystep. ystep. ystep. ystep.
  eapply yields_bind; [apply describe_status|intros resp Hresp].
  repeat ystep. exact Hresp.
Qed.

Lemma serve_hit_status e l : yields status_200 (serve_hit env e l).
Proof. unfold serve_hit. repeat ystep; reflexivity. Qed.

Lemma follow_up_status p ctx :
  yields (fun r => match r with Some response => status_200 response | None => True end)
    (follow_up env p ctx).
Proof. unfold follow_up. repeat ystep; try exact I. reflexivity. Qed.

(** No response of the handler has a status other than 200. *)
Lemma handler_status_200 event : yields status_200 (lambda_handler env event).
Proof.
  unfold lambda_handler. do 2 ystep.
  eapply yields_bind; [apply follow_up_status|intros [response|] H].
  - by apply yields_ret.
  - unfold answer_from_data, resolve.
    repeat ystep; auto using resolve_miss_status, serve_hit_status.
Qed.

End NoSql.

(** C1 (the code departs from the claim): when the answer of the model has
    no [<sql>] block, [get_sql_from_bedrock] returns the error response with
    status 500, a dict that is true for [if not sql:]; the handler does not
    return it but passes it to [execute_sql] as the statement, and the
    request ends with the exception of the driver. *)
Theorem no_sql_block_raises :
  TextToSQL.findall "<sql>" "</sql>" "I cannot write a query for this request." = []
  /\ fst (TextToSQL.get_sql_from_bedrock Demo.no_sql_env "How many properties are there?"
            "Table: t (Schema: public)" (Demo.world None))
     = Ok TextToSQL.no_sql_response
  /\ truthy TextToSQL.no_sql_response = true
  /\ fst (lambda_handler Demo.no_sql_env Demo.request (Demo.world None))
     = Raise (TypeError "query must be str, bytes or Composable")
  /\ In (PgExecute TextToSQL.no_sql_response (PList []))
       (trace (snd (lambda_handler Demo.no_sql_env Demo.request (Demo.world None)))).
Proof.
  split; [reflexivity|]. split; [reflexivity|]. split; [reflexivity|]. split.
  - vm_compute. reflexivity.
  - vm_compute. tauto.
Qed.

(* ===================================================================== *)
(** * Cache writes                                                        *)
(* ===================================================================== *)

Section CacheAdd.
Context (env : Env).

Lemma add_well_formed key vector data prefix w :
  well_formed_record env data = true ->
  exists mapping text_response,
    getitem (PDict data) "text_response" = Ok text_response
    /\ Cache.add env key vector data prefix w
       = add_body (Cache._hash_key env prefix key) mapping text_response w.
Proof.
  unfold well_formed_record, Cache.add. cbv zeta. cbn [getitem].
  destruct (assoc "sql_statement" data) as [sql|]; [|discriminate].
  destruct (assoc "query_results" data) as [qr|]; [|discriminate].
  destruct (assoc "text_response" data) as [tr|]; [|discriminate].
  destruct (assoc "schema_text" data) as [st|]; [|discriminate].
  destruct (assoc "prompt_text" data) as [pt|]; [|discriminate].
  intros [H1 H2]%andb_prop. cbv zeta in H2.
  rewrite bind_lift_ok.
  assert (Hsql : exists sql', 
     (if Cache.is_list_or_tuple sql
      then bind (lift (json_dumps env sql)) (fun s => ret (PStr s))
      else ret sql) = ret sql').
  { destruct (Cache.is_list_or_tuple sql); [|eauto].
    destruct (json_dumps env sql) as [s1|]; [eauto|discriminate H1]. }
  destruct Hsql as (sql' & ->). rewrite bind_ret, bind_lift_ok.
  assert (Hcn : exists cn',
     (if Cache.is_str (dict_get data "column_names" (PList []))
      then ret (dict_get data "column_names" (PList []))
      else bind (lift (json_dumps env (dict_get data "column_names" (PList []))))
             (fun s => ret (PStr s))) = ret cn').
  { destruct (Cache.is_str (dict_get data "column_names" (PList []))); [eauto|].
    destruct (json_dumps env (dict_get data "column_names" (PList []))) as [s2|];
      [eauto|discriminate H2]. }
  destruct Hcn as (cn' & ->). rewrite bind_ret, !bind_lift_ok.
  eexists _, tr. split; [reflexivity|]. unfold add_body. reflexivity.
Qed.

End CacheAdd.

Lemma add_body_empty_answer key mapping text w :
  truthy text = false ->
  add_body key mapping text w
  = (Ok false, add_events [Log ERROR "Unable to add to cache, missing SQL statement."] w).
Proof. intros H. unfold add_body. rewrite H. reflexivity. Qed.





(* ===================================================================== *)
(** * An unreachable cache cluster                                        *)
(* ===================================================================== *)

Section KeepsFault.
Context {A B : Type}.

Lemma keeps_ret (a : A) : keeps_fault (ret a).
Proof. done. Qed.
Lemma keeps_raise e : keeps_fault (@raise A e).
Proof. done. Qed.
Lemma keeps_lift (r : result A) : keeps_fault (lift r).
Proof. done. Qed.
Lemma keeps_get (f : World -> A) : keeps_fault (get f).
Proof. done. Qed.
Lemma keeps_emit ev : keeps_fault (emit ev).
Proof. done. Qed.

Lemma keeps_bind (m : M A) (k : A -> M B) :
  keeps_fault m -> (forall a, keeps_fault (k a)) -> keeps_fault (bind m k).
Proof.
  intros Hm Hk w. unfold bind. specialize (Hm w).
  destruct (m w) as [[a|e] w1]; simpl in *; [|done].
  by rewrite Hk.
Qed.

Lemma keeps_try_except (m : M A) handles h :
  keeps_fault m -> (forall e, keeps_fault (h e)) -> keeps_fault (try_except m handles h).
Proof.
  intros Hm Hh w. unfold try_except. specialize (Hm w).
  destruct (m w) as [[a|e] w1]; simpl in *; [done|].
  destruct (handles e); [|done]. by rewrite Hh.
Qed.

Lemma fails_bind_l (m : M A) (k : A -> M B) :
  fails_when_down m -> fails_when_down (bind m k).
Proof.
  intros Hm w e Hw. destruct (Hm w e Hw) as (e' & H). exists e'.
  unfold bind. destruct (m w) as [[a|e0] w1]; simpl in *; congruence.
Qed.

Lemma fails_bind_r (m : M A) (k : A -> M B) :
  keeps_fault m -> (forall a, fails_when_down (k a)) -> fails_when_down (bind m k).
Proof.
  intros Hm Hk w e Hw. unfold bind. specialize (Hm w).
  destruct (m w) as [[a|e0] w1]; simpl in *; [|eauto].
  apply (Hk a w1 e). congruence.
Qed.

Lemma fails_try_finally (m : M A) c :
  fails_when_down m -> fails_when_down (try_finally m c).
Proof.
  intros Hm w e Hw. destruct (Hm w e Hw) as (e' & H).
  unfold try_finally. destruct (m w) as [r w1]; simpl in *; subst r.
  destruct (c w1) as [[[]|e0] w2]; simpl; eauto.
Qed.

Lemma fails_raise e : fails_when_down (@raise A e).
Proof. intros w e0 _. by exists e. Qed.

End KeepsFault.

Ltac keeps_step :=
  lazymatch goal with
  | |- keeps_fault (bind _ _) => apply keeps_bind; [|intros]
  | |- keeps_fault (ret _) => apply keeps_ret
  | |- keeps_fault (raise _) => apply keeps_raise
  | |- keeps_fault (lift _) => apply keeps_lift
  | |- keeps_fault (get _) => apply keeps_get
  | |- keeps_fault (emit _) => apply keeps_emit
  | |- keeps_fault (log _ _) => apply keeps_emit
  | |- keeps_fault (set_valkey_client _) => by intros ?
  | |- keeps_fault (set_index_exists _) => by intros ?
  | |- keeps_fault (set_store _) => by intros ?
  | |- keeps_fault (set_db_secret _) => by intros ?
  | |- keeps_fault (set_embeddings _ _) => by intros ?
  | |- keeps_fault (try_except _ _ _) => apply keeps_try_except; [|intros]
  | |- keeps_fault (match ?x with _ => _ end) => destruct x
  end.

Section Unreachable.
Context (env : Env).

Lemma keeps_get_embedding t : keeps_fault (Embed.get_embedding env t).
Proof. unfold Embed.get_embedding. repeat keeps_step. Qed.

Lemma keeps_set_secret s : keeps_fault (PostgreSQLService.set_secret env s).
Proof. unfold PostgreSQLService.set_secret. repeat keeps_step. Qed.

Lemma keeps_connect_to_db : keeps_fault (PostgreSQLService.connect_to_db env).
Proof. unfold PostgreSQLService.connect_to_db. repeat keeps_step. Qed.

Lemma keeps_connect_to_cluster ep : keeps_fault (Cache.connect_to_cluster ep).
Proof.
  unfold Cache.connect_to_cluster, Cache.ValkeyCluster, Cache.setup_index, Cache.ft_info,
    Cache.ft_create_index, Cache.on_client, Cache.command.
  repeat keeps_step.
Qed.

Lemma keeps_check fp : keeps_fault (TextToSQL.check_if_follow_up_question env fp).
Proof.
  unfold TextToSQL.check_if_follow_up_question, TextToSQL.__call_bedrock. repeat keeps_step.
Qed.

Lemma keeps_follow_up p ctx : keeps_fault (follow_up env p ctx).
Proof. unfold follow_up. repeat keeps_step. apply keeps_check. Qed.

Lemma ValkeyCluster_down ep w e :
  cluster_fault w = Some e ->
  Cache.ValkeyCluster ep w = (Raise e, add_events [ValkeyConnect ep] w).
Proof.
  intros H. unfold Cache.ValkeyCluster. rewrite bind_emit, bind_get.
  change (cluster_fault (add_events [ValkeyConnect ep] w)) with (cluster_fault w).
  by rewrite H.
Qed.

(** With the cluster unreachable, [connect_to_cluster] logs the error and
    returns; the attribute [valkey_client] is not assigned. *)
Lemma connect_to_cluster_down ep w e :
  cluster_fault w = Some e ->
  Cache.connect_to_cluster ep w
  = (Ok tt, add_events [ ValkeyConnect ep;
                         Log ERROR "Error connecting to Valkey cluster: {e}" ] w).
Proof.
  intros H. unfold Cache.connect_to_cluster, try_except.
  rewrite (bind_raised _ _ _ _ _ (ValkeyCluster_down ep w e H)).
  unfold log, emit. by rewrite add_events_add_events.
Qed.

Lemma command_down {A} c (run : M A) w e :
  cluster_fault w = Some e ->
  Cache.command c run w = (Raise e, add_events [ValkeyCommand c] w).
Proof.
  intros H. unfold Cache.command. rewrite bind_emit, bind_get.
  change (cluster_fault (add_events [ValkeyCommand c] w)) with (cluster_fault w).
  by rewrite H.
Qed.

Lemma on_client_none {A} method (call : M A) w :
  valkey_client w = None ->
  Cache.on_client method call w
  = (Raise (AttributeError ("'NoneType' object has no attribute '" ++ method ++ "'")), w).
Proof. intros H. unfold Cache.on_client. rewrite bind_get, H. reflexivity. Qed.

Lemma on_client_some {A} method (call : M A) w c :
  valkey_client w = Some c -> Cache.on_client method call w = call w.
Proof. intros H. unfold Cache.on_client. rewrite bind_get, H. reflexivity. Qed.

(** With the cluster unreachable a lookup raises: an [AttributeError] when
    no client was ever built, the error of the cluster otherwise. *)
Lemma search_down vector top_k w e :
  cluster_fault w = Some e ->
  fst (Cache.search env vector top_k w)
  = Raise (match valkey_client w with
           | None => AttributeError "'NoneType' object has no attribute 'ft'"
           | Some _ => e
           end)
  /\ store (snd (Cache.search env vector top_k w)) = store w.
Proof.
  intros H. unfold Cache.search. cbv zeta. rewrite bind_log.
  set (w0 := add_events _ w).
  assert (Hf : cluster_fault w0 = Some e) by exact H.
  destruct (valkey_client w) as [c|] eqn:Hc.
  - rewrite (bind_raised _ _ w0 e (add_events [ValkeyCommand (FT_SEARCH Cache.DATA_INDEX_NAME)] w0));
      [done|].
    rewrite (on_client_some _ _ w0 c) by exact Hc.
    by apply command_down.
  - rewrite (bind_raised _ _ w0 (AttributeError "'NoneType' object has no attribute 'ft'") w0);
      [done|].
    by apply on_client_none.
Qed.

Lemma search_fails vector top_k : fails_when_down (Cache.search env vector top_k).
Proof. intros w e H. destruct (search_down vector top_k w e H) as [-> _]. eauto. Qed.

(** With the cluster unreachable, a write whose record is well formed and
    whose answer is not empty returns [False] when a client exists and the
    error of the cluster is a [ValkeyError]; without a client it raises. *)
Lemma add_down key vector data prefix w e text :
  well_formed_record env data = true ->
  getitem (PDict data) "text_response" = Ok text ->
  truthy text = true ->
  cluster_fault w = Some e ->
  store (snd (Cache.add env key vector data prefix w)) = store w
  /\ fst (Cache.add env key vector data prefix w)
     = match valkey_client w with
       | None => Raise (AttributeError "'NoneType' object has no attribute 'hset'")
       | Some _ => if is_ValkeyError e then Ok false else Raise e
       end.
Proof.
  intros Hwf Hget Htext Hfault.
  destruct (add_well_formed env key vector data prefix w Hwf) as (mapping & text' & Hget' & ->).
  rewrite Hget in Hget'. injection Hget' as <-.
  unfold add_body. rewrite Htext. cbn [negb]. rewrite bind_log.
  set (w0 := add_events _ w).
  assert (Hf : cluster_fault w0 = Some e) by exact Hfault.
  unfold try_except.
  destruct (valkey_client w) as [c|] eqn:Hc.
  - rewrite (bind_raised _ _ w0 e
               (add_events [ValkeyCommand (HSET (Cache._hash_key env prefix key))] w0)).
    + destruct (is_ValkeyError e); [rewrite bind_log|]; done.
    + unfold Cache.hset. rewrite (on_client_some _ _ w0 c) by exact Hc.
      by apply command_down.
  - rewrite (bind_raised _ _ w0 (AttributeError "'NoneType' object has no attribute 'hset'") w0).
    + done.
    + unfold Cache.hset. by apply on_client_none.
Qed.

Lemma resolve_fails c p ctx : fails_when_down (resolve env c p ctx).
Proof.
  unfold resolve. cbv zeta.
  apply fails_bind_r; [apply keeps_get_embedding|intros emb].
  apply fails_bind_r; [apply keeps_connect_to_cluster|intros _].
  apply fails_bind_l, search_fails.
Qed.

Lemma answer_from_data_fails p ctx : fails_when_down (answer_from_data env p ctx).
Proof.
  unfold answer_from_data.
  destruct (negb _); [apply fails_raise|].
  apply fails_bind_r; [apply keeps_set_secret|intros _].
  apply fails_bind_r; [apply keeps_connect_to_db|intros c].
  destruct (negb _); [apply fails_raise|].
  apply fails_try_finally, resolve_fails.
Qed.

Lemma follow_up_yields p ctx :
  yields (fun r => match r with
                   | Some response => exists answer, response = follow_up_response answer
                   | None => True
                   end) (follow_up env p ctx).
Proof. unfold follow_up. repeat ystep; try exact I. eauto. Qed.

(** With the cluster unreachable the handler returns nothing but the
    answer to a follow-up question. *)
Lemma handler_down event w e response :
  cluster_fault w = Some e ->
  fst (lambda_handler env event w) = Ok response ->
  exists answer, response = follow_up_response answer.
Proof.
  intros Hfault. unfold lambda_handler. rewrite !bind_log. unfold bind.
  set (w0 := add_events _ (add_events _ w)).
  pose proof (follow_up_yields (query event) (default [] (conversation_context event)) w0) as Hy.
  pose proof (keeps_follow_up (query event) (default [] (conversation_context event)) w0) as Hk.
  destruct (follow_up env _ _ w0) as [[[r|]|e0] w1]; simpl in *.
  - intros [= <-]. exact (Hy (Some r) eq_refl).
  - intros H. destruct (answer_from_data_fails (query event)
                          (default [] (conversation_context event)) w1 e) as (e' & He').
    + by rewrite Hk.
    + congruence.
  - discriminate.
Qed.

End Unreachable.

(** C3 (the code departs from the claim): with the cluster unreachable,
    [connect_to_cluster] logs the error and returns, as the claim says, and
    a write through a client returns [False]; but the lookup, which has no
    handler of its own, raises: the error of the cluster through a client,
    and an [AttributeError] when [connect_to_cluster] has swallowed the
    error and left no client.  So the request that is resolved as a cache
    miss when the cluster is reachable and empty ends with that exception
    when the cluster is unreachable. *)
Theorem unreachable_cache_is_fatal :
  cluster_fault Demo.down = Some (ConnectionError "Connection refused")
  /\ Cache.connect_to_cluster "memdb" Demo.down
     = (Ok tt, add_events [ ValkeyConnect "memdb";
                            Log ERROR "Error connecting to Valkey cluster: {e}" ] Demo.down)
  /\ fst (Cache.add Demo.env "How many?" Demo.unit_vector Demo.answer_record "cache"
            Demo.lost)
     = Ok false
  /\ fst (Cache.search Demo.env Demo.unit_vector 20 Demo.lost)
     = Raise (ConnectionError "Connection refused")
  /\ fst (bind (Cache.connect_to_cluster "memdb")
            (fun _ => Cache.search Demo.env Demo.unit_vector 20) Demo.down)
     = Raise (AttributeError "'NoneType' object has no attribute 'ft'")
  /\ (exists response,
        fst (lambda_handler Demo.env Demo.request (Demo.world None)) = Ok response)
  /\ fst (lambda_handler Demo.env Demo.request Demo.down)
     = Raise (AttributeError "'NoneType' object has no attribute 'ft'").
Proof.
  split; [reflexivity|]. split; [reflexivity|]. split; [vm_compute; reflexivity|].
  split; [reflexivity|]. split; [reflexivity|]. split.
  - eexists. vm_compute. reflexivity.
  - vm_compute. reflexivity.
Qed.

(** The lookup and the request when the cluster is unreachable, whatever
    the configuration: the lookup raises the error of the cluster, or an
    [AttributeError] when no client was built; the data pipeline of the
    handler raises, so that the only response the handler still returns is
    the answer to a follow-up question. *)
Lemma unreachable_cache_lookup env w e :
  cluster_fault w = Some e ->
  (forall vector top_k,
     fst (Cache.search env vector top_k w)
     = Raise (match valkey_client w with
              | None => AttributeError "'NoneType' object has no attribute 'ft'"
              | Some _ => e
              end)
     /\ store (snd (Cache.search env vector top_k w)) = store w)
  /\ (forall prompt conversation_context,
        exists e', fst (answer_from_data env prompt conversation_context w) = Raise e')
  /\ (forall event response,
        fst (lambda_handler env event w) = Ok response ->
        exists answer, response = follow_up_response answer).
Proof.
  intros Hfault. split; [|split].
  - intros vector top_k. by apply search_down.
  - intros prompt ctx. by apply (answer_from_data_fails env prompt ctx w e).
  - intros event response. by apply handler_down with (e := e).
Qed.

(** X1 (CacheService.connect_to_cluster, CacheService.add): the two
    cache operations that handle an unreachable cluster.  With the cluster
    unreachable, [connect_to_cluster] logs the error and returns without
    raising, and assigns no client; a write of a well-formed record with an
    answer, through a client built earlier, leaves the store alone, returns
    [False] when the error of the cluster is a [ValkeyError], and raises
    the error otherwise. *)
Theorem unreachable_cache env w e :
  cluster_fault w = Some e ->
  (forall endpoint,
     Cache.connect_to_cluster endpoint w
     = (Ok tt, add_events [ ValkeyConnect endpoint;
                            Log ERROR "Error connecting to Valkey cluster: {e}" ] w))
  /\ (forall key vector data prefix text client,
        well_formed_record env data = true ->
        getitem (PDict data) "text_response" = Ok text ->
        truthy text = true ->
        valkey_client w = Some client ->
        store (snd (Cache.add env key vector data prefix w)) = store w
        /\ fst (Cache.add env key vector data prefix w)
           = if is_ValkeyError e then Ok false else Raise e).
Proof.
  intros Hfault. split.
  - intros endpoint. exact (connect_to_cluster_down endpoint w e Hfault).
  - intros key vector data prefix text client Hwf Hget Htext Hclient.
    destruct (add_down env key vector data prefix w e text Hwf Hget Htext Hfault) as [Hs Hr].
    rewrite Hclient in Hr. done.
Qed.

Lemma unreachable_cache_witness :
  cluster_fault Demo.lost = Some (ConnectionError "Connection refused")
  /\ fst (Cache.add Demo.env "How many?" Demo.unit_vector Demo.answer_record "cache" Demo.lost)
     = Ok false.
Proof.
  split; [reflexivity|].
  exact (proj2 (proj2 (unreachable_cache Demo.env Demo.lost
                         (ConnectionError "Connection refused") eq_refl)
                  "How many?" Demo.unit_vector Demo.answer_record "cache"
                  (PStr "There are 5 properties.") "memdb" eq_refl eq_refl eq_refl eq_refl)).
Defined.

(* ===================================================================== *)
(** * Cache admission                                                     *)
(* ===================================================================== *)

Lemma last_exact_match_none prompt l acc :
  (forall E, In E l -> exact_match prompt E = false) ->
  last_exact_match prompt l acc = acc.
Proof.
  revert acc; induction l as [|e l IH]; intros acc H; simpl; [done|].
  rewrite (H e) by (by left). apply IH. intros E HE. apply H. by right.
Qed.

Lemma last_exact_match_some prompt l acc E :
  last_exact_match prompt l acc = Some E ->
  (In E l /\ exact_match prompt E = true) \/ acc = Some E.
Proof.
  revert acc; induction l as [|e l IH]; intros acc H; simpl in *; [by right|].
  destruct (IH _ H) as [[Hin Hex]|Hacc].
  - left. split; [by right|done].
  - destruct (exact_match prompt e) eqn:He; [|by right].
    injection Hacc as <-. left. split; [by left|done].
Qed.

Lemma last_exact_match_is_some prompt l x :
  exists E', last_exact_match prompt l (Some x) = Some E'.
Proof.
  revert x; induction l as [|e l IH]; intros x; simpl; [eauto|].
  destruct (exact_match prompt e); apply IH.
Qed.

Lemma last_exact_match_found prompt l acc E :
  In E l -> exact_match prompt E = true ->
  exists E', last_exact_match prompt l acc = Some E'.
Proof.
  revert acc; induction l as [|e l IH]; intros acc Hin Hex; simpl in *; [done|].
  destruct Hin as [->|Hin]; [|by apply IH].
  rewrite Hex. apply last_exact_match_is_some.
Qed.

Section Admission.
Context (env : Env).

(** The loop leaves the last exact match in [cache_entry] and only logs. *)
Lemma scan_exact_match_run cache_lookup prompt cache_entry w :
  forallb is_cache_entry cache_lookup = true ->
  exists evs,
    forallb is_log evs = true
    /\ scan_exact_match cache_lookup prompt cache_entry w
       = (Ok (last_exact_match prompt cache_lookup cache_entry), add_events evs w).
Proof.
  revert cache_entry w.
  induction cache_lookup as [|entry rest IH]; intros cache_entry w Hwf.
  - exists []. split; [done|]. simpl. by rewrite add_events_nil.
  - simpl in Hwf. apply andb_prop in Hwf as [He Hrest].
    destruct entry as [| | | | | | | |d]; try discriminate.
    simpl in He. destruct (assoc "vector_score" d) as [[| | |score| | | | |]|] eqn:Hs;
      try discriminate.
    cbn [scan_exact_match]. rewrite bind_log.
    unfold bind at 1, lift at 1. cbn [entry_get last_exact_match exact_match].
    destruct (eq_str (dict_get d "prompt_text" PNone) prompt).
    + unfold bind at 1, lift at 1. cbn [getitem]. rewrite Hs. rewrite bind_log.
      destruct (IH (Some (PDict d)) (add_events
                  [Log DEBUG "EXACT MATCH FOUND with vector score: {entry['vector_score']}"]
                  (add_events [Log DEBUG "{entry}"] w)) Hrest) as (evs & Hlog & ->).
      rewrite !add_events_add_events. eexists. split; [|reflexivity].
      rewrite !forallb_app, Hlog. reflexivity.
    + destruct (IH cache_entry (add_events [Log DEBUG "{entry}"] w) Hrest) as (evs & Hlog & ->).
      rewrite !add_events_add_events. eexists. split; [|reflexivity].
      rewrite !forallb_app, Hlog. reflexivity.
Qed.

(** The decision of the admission, as a function of the lookup result. *)
Lemma select_cache_entry_run cache_lookup prompt w :
  forallb is_cache_entry cache_lookup = true ->
  exists evs,
    forallb is_log evs = true
    /\ select_cache_entry env cache_lookup prompt w
       = (Ok match last_exact_match prompt cache_lookup None with
             | Some entry => Some entry
             | None =>
                 match cache_lookup with
                 | [] => None
                 | top :: _ =>
                     if (VECTOR_SCORE_THRESHOLD <=? entry_score top)%float then Some top
                     else None
                 end
             end, add_events evs w).
Proof.
  intros Hwf. unfold select_cache_entry.
  destruct cache_lookup as [|top rest].
  - exists []. split; [done|]. cbn. by rewrite add_events_nil.
  - unfold bind at 1.
    destruct (scan_exact_match_run (top :: rest) prompt None w Hwf) as (evs & Hlog & ->).
    destruct (last_exact_match prompt (top :: rest) None) as [entry|].
    + rewrite bind_log, add_events_add_events. eexists. split; [|reflexivity].
      rewrite forallb_app, Hlog. reflexivity.
    + simpl in Hwf. apply andb_prop in Hwf as [He _].
      destruct top as [| | | | | | | |d]; try discriminate.
      simpl in He. unfold entry_score.
      destruct (assoc "vector_score" d) as [[| | |score| | | | |]|] eqn:Hs; try discriminate.
      unfold bind at 1, lift at 1. cbn [getitem]. rewrite Hs.
      unfold bind at 1, lift at 1. cbn [py_float].
      destruct (VECTOR_SCORE_THRESHOLD <=? score)%float.
      * rewrite bind_log, add_events_add_events. eexists. split; [|reflexivity].
        rewrite forallb_app, Hlog. reflexivity.
      * eexists. split; [exact Hlog|reflexivity].
Qed.

End Admission.

(** C4: the admission of a cache entry, on a lookup result whose elements
    are entries with a float score, returns a decision and only logs.
    (1) If some entry stores the prompt verbatim, the hit is an entry of the
    lookup result that stores the prompt verbatim, whatever its score and
    the scores of the others; it is that entry when no other entry stores
    the prompt.  (2) If no entry stores the prompt, the hit is the first
    entry when its score is at least 0.85, and there is no hit otherwise,
    also when the lookup result is empty.  (3) So an entry that is the hit
    either stores the prompt verbatim or is the first entry with a score of
    at least 0.85. *)
Theorem cache_admission env cache_lookup prompt w :
  forallb is_cache_entry cache_lookup = true ->
  exists decision evs,
    select_cache_entry env cache_lookup prompt w = (Ok decision, add_events evs w)
    /\ forallb is_log evs = true
    /\ (forall E, In E cache_lookup -> exact_match prompt E = true ->
          (exists E', decision = Some E' /\ In E' cache_lookup /\ exact_match prompt E' = true)
          /\ ((forall E', In E' cache_lookup -> exact_match prompt E' = true -> E' = E) ->
              decision = Some E))
    /\ ((forall E, In E cache_lookup -> exact_match prompt E = false) ->
        decision = match cache_lookup with
                   | [] => None
                   | top :: _ =>
                       if (0.85 <=? entry_score top)%float then Some top else None
                   end)
    /\ (forall E, decision = Some E ->
          (In E cache_lookup /\ exact_match prompt E = true)
          \/ (exists rest, cache_lookup = E :: rest
                           /\ (0.85 <=? entry_score E)%float = true)).
Proof.
  intros Hwf.
  destruct (select_cache_entry_run env cache_lookup prompt w Hwf) as (evs & Hlog & Hrun).
  eexists _, evs. split; [exact Hrun|]. split; [exact Hlog|]. split; [|split].
  - intros E Hin Hex.
    destruct (last_exact_match_found prompt cache_lookup None E Hin Hex) as (E' & HE').
    rewrite HE'.
    destruct (last_exact_match_some prompt cache_lookup None E' HE') as [[Hin' Hex']|]; [|done].
    split; [eauto|]. intros Huniq. by rewrite (Huniq E' Hin' Hex').
  - intros Hnone. by rewrite (last_exact_match_none prompt cache_lookup None Hnone).
  - intros E. destruct (last_exact_match prompt cache_lookup None) as [E'|] eqn:HE'.
    + intros [= <-].
      destruct (last_exact_match_some prompt cache_lookup None E' HE') as [|]; [by left|done].
    + destruct cache_lookup as [|top rest]; [done|].
      unfold VECTOR_SCORE_THRESHOLD.
      destruct (0.85 <=? entry_score top)%float eqn:Hs; [|done].
      intros [= <-]. right. eauto.
Qed.

Lemma cache_admission_witness :
  forallb is_cache_entry Demo.lookup = true
  /\ exists decision evs,
       select_cache_entry Demo.env Demo.lookup "How many properties are there?" (Demo.world None)
       = (Ok decision, add_events evs (Demo.world None))
       /\ forallb is_log evs = true.
Proof.
  split; [reflexivity|].
  destruct (cache_admission Demo.env Demo.lookup "How many properties are there?"
              (Demo.world None) eq_refl) as (decision & evs & H1 & H2 & _).
  exists decision, evs. split; assumption.
Defined.

(** The exact match wins over a nearer entry, and the nearest entry is
    admitted by its score only from 0.85 on. *)
Example exact_match_overrides_score :
  map entry_score Demo.lookup = [0.75%float; 0.5%float]
  /\ fst (select_cache_entry Demo.env Demo.lookup "How many properties are there?"
            (Demo.world None))
     = Ok (nth_error Demo.lookup 1)
  /\ fst (select_cache_entry Demo.env Demo.lookup "How many users?" (Demo.world None))
     = Ok None.
Proof. repeat split; reflexivity. Qed.

(** What [search] returns is a list of entries with a float score. *)
Lemma search_returns_entries env vector top_k w cache_lookup :
  fst (Cache.search env vector top_k w) = Ok cache_lookup ->
  forallb is_cache_entry cache_lookup = true.
Proof.
  unfold Cache.search, Cache.on_client, Cache.command, bind, get, emit, log, raise, ret.
  cbn. destruct (valkey_client w); cbn; [|discriminate].
  destruct (cluster_fault w); cbn; [discriminate|].
  intros [= <-]. induction (ft_search env _ _ _) as [|d l IH]; [done|]. simpl. exact IH.
Qed.

(* ===================================================================== *)
(** * The schema index: storing descriptors                               *)
(* ===================================================================== *)
















(* ===================================================================== *)
(** * The schema index: retrieval                                         *)
(* ===================================================================== *)

(** ** The order of binary64 numbers *)



Lemma SFcompare_nan_l y : SFcompare S754_nan y = None.
Proof. reflexivity. Qed.











(** ** The ranking *)














Section Retrieval.
Context (env : Env).






End Retrieval.





(* ===================================================================== *)
(** * The cache cluster when it is reachable                              *)
(* ===================================================================== *)

Section CacheUp.
Context (env : Env).

Lemma command_up {A} c (run : M A) w :
  cluster_fault w = None ->
  Cache.command c run w = run (add_events [ValkeyCommand c] w).
Proof.
  intros H. unfold Cache.command. rewrite bind_emit, bind_get.
  change (cluster_fault (add_events [ValkeyCommand c] w)) with (cluster_fault w).
  by rewrite H.
Qed.

Lemma hset_up key mapping w c :
  valkey_client w = Some c -> cluster_fault w = None ->
  Cache.hset key mapping w
  = (Ok tt,
     snd (set_store
            (<[key := {| fields := list_to_map mapping
                                   ∪ fields (default {| fields := ∅; ttl := None |}
                                               (store w !! key));
                         ttl := ttl (default {| fields := ∅; ttl := None |}
                                       (store w !! key)) |}]> (store w))
            (add_events [ValkeyCommand (HSET key)] w))).
Proof.
  intros Hc Hf. unfold Cache.hset. rewrite (on_client_some _ _ w c Hc), (command_up _ _ w Hf).
  rewrite bind_get. reflexivity.
Qed.

Lemma expire_up key seconds w c h :
  valkey_client w = Some c -> cluster_fault w = None -> store w !! key = Some h ->
  Cache.expire key seconds w
  = (Ok tt,
     snd (set_store (<[key := {| fields := fields h; ttl := Some seconds |}]> (store w))
            (add_events [ValkeyCommand (EXPIRE key seconds)] w))).
Proof.
  intros Hc Hf Hh. unfold Cache.expire.
  rewrite (on_client_some _ _ w c Hc), (command_up _ _ w Hf), bind_get.
  change (store (add_events [ValkeyCommand (EXPIRE key seconds)] w)) with (store w).
  rewrite Hh. reflexivity.
Qed.

Lemma get_ttl_up key w c :
  valkey_client w = Some c -> cluster_fault w = None ->
  Cache.get_ttl key w
  = (Ok (h ← store w !! key; ttl h), add_events [ValkeyCommand (TTL key)] w).
Proof.
  intros Hc Hf. unfold Cache.get_ttl.
  rewrite (on_client_some _ _ w c Hc), (command_up _ _ w Hf), bind_get. reflexivity.
Qed.

Lemma hget_up key field w c :
  valkey_client w = Some c -> cluster_fault w = None ->
  Cache.hget key field w
  = (Ok (h ← store w !! key; fields h !! field), add_events [ValkeyCommand (HGET key field)] w).
Proof.
  intros Hc Hf. unfold Cache.hget.
  rewrite (on_client_some _ _ w c Hc), (command_up _ _ w Hf), bind_get. reflexivity.
Qed.

(** The write of [add], once the record is read and the answer is not
    empty. *)
Lemma add_body_up key mapping text w c :
  valkey_client w = Some c -> cluster_fault w = None -> truthy text = true ->
  fst (add_body key mapping text w) = Ok true
  /\ store (snd (add_body key mapping text w))
     = <[key := written_entry mapping (store w !! key)]> (store w).
Proof.
  intros Hc Hf Ht. unfold add_body. rewrite Ht. cbn [negb]. rewrite bind_log.
  set (w0 := add_events _ w).
  assert (Hc0 : valkey_client w0 = Some c) by exact Hc.
  assert (Hf0 : cluster_fault w0 = None) by exact Hf.
  unfold try_except.
  rewrite (bind_ok _ _ _ _ _ (hset_up key mapping w0 c Hc0 Hf0)).
  set (w1 := snd (set_store _ _)).
  assert (Hc1 : valkey_client w1 = Some c) by exact Hc.
  assert (Hf1 : cluster_fault w1 = None) by exact Hf.
  assert (Hs1 : store w1 !! key
                = Some {| fields := list_to_map mapping
                                    ∪ fields (default {| fields := ∅; ttl := None |}
                                                (store w !! key));
                          ttl := ttl (default {| fields := ∅; ttl := None |}
                                        (store w !! key)) |}).
  { subst w1. cbn [snd set_store store]. apply lookup_insert_eq. }
  rewrite (bind_ok _ _ _ _ _ (expire_up key Cache.expiration_time w1 c _ Hc1 Hf1 Hs1)).
  set (w2 := snd (set_store _ _)).
  assert (Hc2 : valkey_client w2 = Some c) by exact Hc.
  assert (Hf2 : cluster_fault w2 = None) by exact Hf.
  rewrite (bind_ok _ _ _ _ _ (get_ttl_up key w2 c Hc2 Hf2)).
  rewrite bind_log.
  set (w3 := add_events _ _).
  assert (Hc3 : valkey_client w3 = Some c) by exact Hc.
  assert (Hf3 : cluster_fault w3 = None) by exact Hf.
  rewrite (bind_ok _ _ _ _ _ (hget_up key "prompt_text" w3 c Hc3 Hf3)).
  rewrite bind_log. unfold ret. cbn [fst snd]. split; [reflexivity|].
  change (store (add_events _ (add_events _ w3))) with (store w2).
  subst w2. cbn [snd set_store store].
  change (store w1) with
    (<[key := {| fields := list_to_map mapping
                           ∪ fields (default {| fields := ∅; ttl := None |} (store w !! key));
                 ttl := ttl (default {| fields := ∅; ttl := None |} (store w !! key)) |}]>
       (store w)).
  rewrite insert_insert_eq. reflexivity.
Qed.

(** The mapping that [add] writes for a well-formed record. *)
Lemma add_well_formed_mapping key vector data prefix w :
  well_formed_record env data = true ->
  exists sql_statement query_results column_names text_response schema_text prompt_text,
    assoc "text_response" data = Some text_response
    /\ assoc "schema_text" data = Some schema_text
    /\ assoc "prompt_text" data = Some prompt_text
    /\ Cache.add env key vector data prefix w
       = add_body (Cache._hash_key env prefix key)
           [ ("vector", PBytes (Cache._vector_to_bytes vector));
             ("sql_statement", sql_statement);
             ("text_response", text_response);
             ("query_results", query_results);
             ("schema_text", schema_text);
             ("prompt_text", prompt_text);
             ("column_names", column_names) ]
           text_response w.
Proof.
  unfold well_formed_record, Cache.add. cbv zeta. cbn [getitem].
  destruct (assoc "sql_statement" data) as [sql|]; [|discriminate].
  destruct (assoc "query_results" data) as [qr|]; [|discriminate].
  destruct (assoc "text_response" data) as [tr|]; [|discriminate].
  destruct (assoc "schema_text" data) as [st|]; [|discriminate].
  destruct (assoc "prompt_text" data) as [pt|]; [|discriminate].
  intros [H1 H2]%andb_prop. cbv zeta in H2.
  rewrite bind_lift_ok.
  assert (Hsql : exists sql',
     (if Cache.is_list_or_tuple sql
      then bind (lift (json_dumps env sql)) (fun s => ret (PStr s))
      else ret sql) = ret sql').
  { destruct (Cache.is_list_or_tuple sql); [|eauto].
    destruct (json_dumps env sql) as [s1|]; [eauto|discriminate H1]. }
  destruct Hsql as (sql' & ->). rewrite bind_ret, bind_lift_ok.
  assert (Hcn : exists cn',
     (if Cache.is_str (dict_get data "column_names" (PList []))
      then ret (dict_get data "column_names" (PList []))
      else bind (lift (json_dumps env (dict_get data "column_names" (PList []))))
             (fun s => ret (PStr s))) = ret cn').
  { destruct (Cache.is_str (dict_get data "column_names" (PList []))); [eauto|].
    destruct (json_dumps env (dict_get data "column_names" (PList []))) as [s2|];
      [eauto|discriminate H2]. }
  destruct Hcn as (cn' & ->). rewrite bind_ret, !bind_lift_ok.
  exists sql', (if Cache.is_str qr then qr else PStr (py_str env qr)), cn', tr, st, pt.
  repeat (split; [reflexivity|]). unfold add_body. reflexivity.
Qed.

End CacheUp.

(** X5 (CacheService.add): with a client and the cluster reachable, the
    write of a well-formed record whose answer is not empty returns [True];
    afterwards the hash at the key [prefix:sha256(key)] has a time to live
    of 600 seconds, its field [vector] holds the bytes of the vector and
    its fields [text_response], [prompt_text] and [schema_text] those of
    the record; every other key of the store is as it was. *)
Theorem add_stores_entry env key vector data prefix w c text :
  valkey_client w = Some c -> cluster_fault w = None ->
  well_formed_record env data = true ->
  getitem (PDict data) "text_response" = Ok text ->
  truthy text = true ->
  let w' := snd (Cache.add env key vector data prefix w) in
  fst (Cache.add env key vector data prefix w) = Ok true
  /\ (exists h, store w' !! Cache._hash_key env prefix key = Some h
                /\ ttl h = Some 600
                /\ fields h !! "vector" = Some (PBytes (Cache._vector_to_bytes vector))
                /\ fields h !! "text_response" = Some text
                /\ fields h !! "prompt_text" = assoc "prompt_text" data
                /\ fields h !! "schema_text" = assoc "schema_text" data)
  /\ (forall k, k <> Cache._hash_key env prefix key -> store w' !! k = store w !! k).
Proof.
  intros Hc Hf Hwf Hget Ht w'. subst w'.
  destruct (add_well_formed_mapping env key vector data prefix w Hwf)
    as (sql & qr & cn & tr & st & pt & Htr & Hst & Hpt & ->).
  assert (tr = text) as ->.
  { cbn [getitem] in Hget. rewrite Htr in Hget. by injection Hget. }
  destruct (add_body_up (Cache._hash_key env prefix key)
              [ ("vector", PBytes (Cache._vector_to_bytes vector)); ("sql_statement", sql);
                ("text_response", text); ("query_results", qr); ("schema_text", st);
                ("prompt_text", pt); ("column_names", cn) ] text w c Hc Hf Ht) as [-> ->].
  split; [reflexivity|]. split.
  - eexists. split; [apply lookup_insert_eq|]. rewrite Hpt, Hst.
    split; [reflexivity|].
    unfold written_entry. cbn [fields list_to_map foldr uncurry fst snd].
    repeat split; apply lookup_union_Some_l;
      repeat (first [ apply lookup_insert_eq | rewrite lookup_insert_ne by done ]).
  - intros k Hk. by rewrite lookup_insert_ne.
Qed.

Lemma add_stores_entry_witness :
  exists h,
    store (snd (Cache.add Demo.env "How many?" Demo.unit_vector Demo.answer_record "cache"
                  Demo.connected))
      !! Cache._hash_key Demo.env "cache" "How many?" = Some h
    /\ ttl h = Some 600.
Proof.
  destruct (add_stores_entry Demo.env "How many?" Demo.unit_vector Demo.answer_record "cache"
              Demo.connected "memdb" (PStr "There are 5 properties.")
              eq_refl eq_refl eq_refl eq_refl eq_refl) as (_ & (h & H1 & H2 & _) & _).
  exists h. split; assumption.
Defined.

(** X6 (CacheService.connect_to_cluster, setup_index): with the cluster
    reachable, [connect_to_cluster] returns with the client assigned and
    the index in place; it sends the command that creates the index exactly
    when the index did not exist; the store is as it was. *)
Theorem connect_to_cluster_sets_up_index memdb_endpoint w :
  cluster_fault w = None ->
  let w' := snd (Cache.connect_to_cluster memdb_endpoint w) in
  fst (Cache.connect_to_cluster memdb_endpoint w) = Ok tt
  /\ valkey_client w' = Some memdb_endpoint
  /\ index_exists w' = true
  /\ store w' = store w
  /\ exists evs, trace w' = (trace w ++ evs)%list
                 /\ existsb is_ft_create evs = negb (index_exists w).
Proof.
  intros Hf. cbv zeta.
  unfold Cache.connect_to_cluster, Cache.ValkeyCluster, Cache.setup_index, Cache.ft_info,
    Cache.ft_create_index, Cache.on_client, Cache.command, try_except, bind, get, emit, log,
    raise, ret, set_valkey_client, set_index_exists.
  cbn. rewrite Hf. cbn. rewrite Hf. cbn.
  destruct (index_exists w) eqn:Hi; cbn; rewrite ?Hf; cbn.
  - repeat split; try done. eexists. rewrite <- !app_assoc. split; reflexivity.
  - repeat split; try done. eexists. rewrite <- !app_assoc. split; reflexivity.
Qed.

Lemma connect_to_cluster_sets_up_index_witness :
  index_exists (snd (Cache.connect_to_cluster "memdb" (Demo.world None))) = true.
Proof.
  exact (proj1 (proj2 (proj2 (connect_to_cluster_sets_up_index "memdb" (Demo.world None)
                                eq_refl)))).
Defined.

(* ===================================================================== *)
(** * The handler: the database connection                                *)
(* ===================================================================== *)

Section Inner.
Context (env : Env).
Let Q := fun e => negb (is_connection_event e).

Ltac unf := unfold Cache.on_client, Cache.command.

Lemma inner_get_embedding t : only_events Q (Embed.get_embedding env t).
Proof. unfold Embed.get_embedding; unf; only_tac. Qed.

Lemma inner_connect_to_cluster ep : only_events Q (Cache.connect_to_cluster ep).
Proof.
  unfold Cache.connect_to_cluster, Cache.setup_index, Cache.ValkeyCluster,
    Cache.ft_info, Cache.ft_create_index; unf; only_tac.
Qed.

Lemma inner_search v k : only_events Q (Cache.search env v k).
Proof. unfold Cache.search; unf; only_tac. Qed.

Lemma inner_add key v data prefix : only_events Q (Cache.add env key v data prefix).
Proof.
  unfold Cache.add, Cache.hset, Cache.expire, Cache.get_ttl, Cache.hget; unf; only_tac.
Qed.

Lemma inner_scan l p acc : only_events Q (scan_exact_match l p acc).
Proof.
  revert acc; induction l as [|e l IH]; intros acc; simpl; unf; only_tac; apply IH.
Qed.

Lemma inner_select_cache_entry l p : only_events Q (select_cache_entry env l p).
Proof. unfold select_cache_entry; unf; only_tac; try apply inner_scan. Qed.

Lemma inner_compare p k : only_events Q (Indexer.compare_embeddings env p k).
Proof.
  unfold Indexer.compare_embeddings, Indexer.select_similar; unf; only_tac;
    try apply inner_get_embedding.
Qed.

Lemma inner_schema_context l : only_events Q (schema_context_of l).
Proof. induction l as [|e l IH]; simpl; unf; only_tac; apply IH. Qed.

Lemma inner_get_sql q s : only_events Q (TextToSQL.get_sql_from_bedrock env q s).
Proof. unfold TextToSQL.get_sql_from_bedrock, TextToSQL.__call_bedrock; unf; only_tac. Qed.

Lemma inner_execute_sql c s : only_events Q (TextToSQL.execute_sql env c s).
Proof. unfold TextToSQL.execute_sql; unf; only_tac. Qed.

Lemma inner_describe s r sc : only_events Q (TextToSQL.describe_results_from_query env s r sc).
Proof. unfold TextToSQL.describe_results_from_query, TextToSQL.__call_bedrock; unf; only_tac. Qed.

Lemma inner_resolve_miss c p v : only_events Q (resolve_miss env c p v).
Proof.
  unfold resolve_miss; unf; only_tac;
    auto using inner_compare, inner_schema_context, inner_get_sql, inner_execute_sql,
      inner_describe, inner_add.
Qed.

Lemma inner_serve_hit e l : only_events Q (serve_hit env e l).
Proof. unfold serve_hit; unf; only_tac. Qed.

Lemma inner_resolve c p ctx : only_events Q (resolve env c p ctx).
Proof.
  unfold resolve; unf; only_tac;
    auto using inner_get_embedding, inner_connect_to_cluster, inner_search,
      inner_select_cache_entry, inner_resolve_miss, inner_serve_hit.
Qed.

Lemma set_secret_raises s e w :
  get_secret_value env s = Raise e ->
  PostgreSQLService.set_secret env s w
  = (Raise e, add_events [GetSecretValue s; Log ERROR "Error retrieving secret: {e}"] w).
Proof.
  intros H. unfold PostgreSQLService.set_secret, try_except, bind, emit, lift, log, raise.
  rewrite H. cbn. by rewrite add_events_add_events.
Qed.

Lemma connect_to_db_raises sec u p e w :
  db_secret w = sec -> truthy sec = true ->
  getitem sec "username" = Ok u -> getitem sec "password" = Ok p ->
  psycopg_connect env sec = Raise e ->
  PostgreSQLService.connect_to_db env w
  = (Raise e,
     add_events [PgConnect; Log ERROR "Error connecting to database or retrieving secret: {e}"] w).
Proof.
  intros Hs Ht Hu Hp Hc.
  unfold PostgreSQLService.connect_to_db, try_except, bind, get, emit, lift, log, raise.
  rewrite Hs, Ht. simpl. rewrite Hu, Hp. simpl. rewrite Hc. cbn.
  by rewrite add_events_add_events.
Qed.

End Inner.

(** X7 (lambda_handler, the [try ... finally]): when the validation passes
    and the connection is opened, the handler closes it as its last call,
    whether the body of the [try] returns or raises; between the opening
    and the closing no connection is opened or closed. *)
Theorem connection_is_closed env prompt ctx w secret u p :
  PostgresValidation.is_valid_postgres_identifier (RDS_DATABASE_NAME env)
  || PostgresValidation.is_valid_postgres_identifier (RDS_SCHEMA env) = true ->
  get_secret_value env (SECRET_NAME env) = Ok secret ->
  truthy secret = true ->
  getitem secret "username" = Ok u ->
  getitem secret "password" = Ok p ->
  psycopg_connect env secret = Ok tt ->
  exists evs,
    trace (snd (answer_from_data env prompt ctx w))
    = (trace w ++ [GetSecretValue (SECRET_NAME env); PgConnect] ++ evs
         ++ [Log INFO "Closing connection"; Log INFO "End"; PgClose])%list
    /\ forallb (fun e => negb (is_connection_event e)) evs = true.
Proof.
  intros Hvalid Hsec Htruthy Hu Hp Hconn.
  unfold answer_from_data. rewrite Hvalid. cbn [negb].
  rewrite (bind_ok _ _ _ _ _ (set_secret_ok env _ _ _ Hsec)).
  erewrite bind_ok; [|eapply connect_to_db_ok; eauto; reflexivity].
  cbn [PostgreSQLService.conn_truthy negb].
  match goal with |- context [try_finally ?m ?c ?w0] =>
    destruct (inner_resolve env tt prompt ctx w0) as (evs & Htr & Hall);
    unfold try_finally; destruct (m w0) as [r w1]
  end.
  rewrite !bind_log. unfold PostgreSQLService.close, emit.
  rewrite !add_events_add_events. exists evs. split; [|exact Hall].
  cbn [snd fst trace add_events]. cbn [snd fst trace add_events set_db_secret] in Htr.
  rewrite Htr. rewrite <- !app_assoc. reflexivity.
Qed.

Lemma connection_is_closed_witness :
  exists evs,
    trace (snd (answer_from_data Demo.env "How many properties are there?" [] (Demo.world None)))
    = (trace (Demo.world None) ++ [GetSecretValue (SECRET_NAME Demo.env); PgConnect] ++ evs
         ++ [Log INFO "Closing connection"; Log INFO "End"; PgClose])%list
    /\ forallb (fun e => negb (is_connection_event e)) evs = true.
Proof.
  exact (connection_is_closed Demo.env "How many properties are there?" [] (Demo.world None)
           (PDict [("username", PStr "u"); ("password", PStr "p")]) (PStr "u") (PStr "p")
           eq_refl eq_refl eq_refl eq_refl eq_refl eq_refl).
Defined.

(** X8 (lambda_handler, set_secret, connect_to_db): when the validation
    passes and the secret cannot be read, or the connection cannot be
    opened, the handler raises the exception of the failing call; before
    that it has read the secret, tried to connect at most, and logged:
    nothing is embedded, the cache is not contacted, no statement is run
    and no connection is closed. *)
Theorem database_errors_are_fatal env prompt ctx w e :
  PostgresValidation.is_valid_postgres_identifier (RDS_DATABASE_NAME env)
  || PostgresValidation.is_valid_postgres_identifier (RDS_SCHEMA env) = true ->
  (get_secret_value env (SECRET_NAME env) = Raise e
   \/ exists secret u p,
        get_secret_value env (SECRET_NAME env) = Ok secret
        /\ truthy secret = true
        /\ getitem secret "username" = Ok u
        /\ getitem secret "password" = Ok p
        /\ psycopg_connect env secret = Raise e) ->
  fst (answer_from_data env prompt ctx w) = Raise e
  /\ exists evs,
       trace (snd (answer_from_data env prompt ctx w)) = (trace w ++ evs)%list
       /\ forallb is_connection_setup evs = true
       /\ existsb (fun ev => is_log ev) evs = true.
Proof.
  intros Hvalid H. unfold answer_from_data. rewrite Hvalid. cbn [negb].
  destruct H as [Hsec | (secret & u & p & Hsec & Htruthy & Hu & Hp & Hconn)].
  - rewrite (bind_raised _ _ _ _ _ (set_secret_raises env _ _ _ Hsec)).
    split; [reflexivity|]. eexists. repeat split; reflexivity.
  - rewrite (bind_ok _ _ _ _ _ (set_secret_ok env _ _ _ Hsec)).
    erewrite bind_raised; [|eapply connect_to_db_raises; eauto; reflexivity].
    split; [reflexivity|]. eexists. cbn [snd trace add_events set_db_secret].
    rewrite <- app_assoc. repeat split; reflexivity.
Qed.

Lemma database_errors_are_fatal_witness :
  fst (answer_from_data Demo.refused_env "How many properties are there?" [] (Demo.world None))
  = Raise (Exception "connection refused").
Proof.
  apply (database_errors_are_fatal Demo.refused_env "How many properties are there?" []
           (Demo.world None) (Exception "connection refused") eq_refl).
  right. exists (PDict [("username", PStr "u"); ("password", PStr "p")]), (PStr "u"), (PStr "p").
  repeat split; reflexivity.
Defined.

(** X9 (lambda_handler): every response that the handler returns has the
    status code 200; the response with the status 500 that the branch
    [if not sql:] builds, and the one that [get_sql_from_bedrock] builds,
    are never returned. *)
Theorem responses_have_status_200 env event w response :
  returns (lambda_handler env event) w response ->
  status_200 response /\ response <> TextToSQL.no_sql_response.
Proof.
  intros H. pose proof (handler_status_200 env event w response H) as Hs.
  split; [exact Hs|]. intros ->. discriminate Hs.
Qed.

Lemma responses_have_status_200_witness :
  exists response,
    returns (lambda_handler Demo.env Demo.request) (Demo.world None) response
    /\ status_200 response.
Proof.
  eexists. split; [vm_compute; reflexivity|].
  apply (responses_have_status_200 Demo.env Demo.request (Demo.world None)).
  vm_compute. reflexivity.
Defined.

(** X10 (lambda_handler, the guard): when neither the database name nor
    the schema name is a valid identifier, a request that is not answered
    as a follow-up raises before any call but its two logs: the secret is
    not read and nothing in the world changes. *)
Theorem both_names_invalid_is_rejected env event w :
  conversation_context event = None \/ conversation_context event = Some [] ->
  PostgresValidation.is_valid_postgres_identifier (RDS_DATABASE_NAME env) = false ->
  PostgresValidation.is_valid_postgres_identifier (RDS_SCHEMA env) = false ->
  lambda_handler env event w
  = (Raise (Exception "'{RDS_SCHEMA}' or '{RDS_DATABASE_NAME}' is not a valid PostgreSQL name."),
     add_events [Log DEBUG "{event}"; Log INFO "Start"] w).
Proof.
  intros Hctx H1 H2. rewrite (no_context_runs_pipeline env event w Hctx).
  by apply guard_rejects_both_invalid.
Qed.

Lemma both_names_invalid_is_rejected_witness :
  fst (lambda_handler (Demo.env_with "pg_catalog" "select" Demo.describe
                         (Ok (PDict [("is_follow_up", PBool false); ("answer", PNone)])) [])
         Demo.request (Demo.world None))
  = Raise (Exception "'{RDS_SCHEMA}' or '{RDS_DATABASE_NAME}' is not a valid PostgreSQL name.").
Proof.
  rewrite (both_names_invalid_is_rejected
             (Demo.env_with "pg_catalog" "select" Demo.describe
                (Ok (PDict [("is_follow_up", PBool false); ("answer", PNone)])) [])
             Demo.request (Demo.world None) (or_introl eq_refl) eq_refl eq_refl).
  reflexivity.
Defined.

(* ===================================================================== *)
(** * Answers of the models that cannot be used                           *)
(* ===================================================================== *)

Section ModelAnswers.
Context (env : Env).

Lemma check_unparseable fp text e w :
  invoke_model env (FollowUpPrompt fp) = Ok text ->
  loads_follow_up env text = Raise e ->
  TextToSQL.check_if_follow_up_question env fp w
  = (Ok (PDict [ ("is_follow_up", PBool false); ("answer", PNone) ]),
     add_events [ InvokeModel (FollowUpPrompt fp);
                  Log ERROR "Error parsing follow-up check response: {e}" ] w).
Proof.
  intros Hm Hl.
  unfold TextToSQL.check_if_follow_up_question, TextToSQL.__call_bedrock,
    bind, try_except, lift, log, emit, ret.
  rewrite Hm, Hl. cbn. by rewrite add_events_add_events.
Qed.

Lemma check_parsed fp text v w :
  invoke_model env (FollowUpPrompt fp) = Ok text ->
  loads_follow_up env text = Ok v ->
  TextToSQL.check_if_follow_up_question env fp w
  = (Ok v, add_events [InvokeModel (FollowUpPrompt fp)] w).
Proof.
  intros Hm Hl.
  unfold TextToSQL.check_if_follow_up_question, TextToSQL.__call_bedrock,
    bind, try_except, lift, log, emit, ret.
  by rewrite Hm, Hl.
Qed.

Lemma get_sql_run query schema text w :
  invoke_model env (SqlPrompt query schema) = Ok text ->
  TextToSQL.get_sql_from_bedrock env query schema w
  = match TextToSQL.findall "<sql>" "</sql>" text with
    | [] => ret TextToSQL.no_sql_response
    | sql0 :: _ =>
        bind (match TextToSQL.findall "<params>" "</params>" text with
              | [] => ret (PList [])
              | params0 :: _ =>
                  try_except (lift (literal_eval env params0)) (fun _ => true)
                    (fun _ =>
                       bind (log ERROR "Error parsing parameters: {e}") (fun _ =>
                       bind (log ERROR "Raw parameters string: {params_match[0]}") (fun _ =>
                       ret (PList []))))
              end)
          (fun params => ret (PTuple [PStr sql0; params]))
    end (add_events [ Log DEBUG "{sql_prompt}"; InvokeModel (SqlPrompt query schema);
                      Log DEBUG "{sql_statements}"; Log DEBUG "{params_match}" ] w).
Proof.
  intros Hm. unfold TextToSQL.get_sql_from_bedrock, TextToSQL.__call_bedrock. cbv zeta.
  rewrite bind_log. unfold bind at 1. unfold bind at 1. unfold emit at 1. unfold lift at 1.
  rewrite Hm. rewrite !bind_log, !add_events_add_events. reflexivity.
Qed.

End ModelAnswers.

(** X11 (check_if_follow_up_question, lambda_handler): when the answer of
    the classifier cannot be parsed, the check logs the error and answers
    that the question is no follow-up, and the handler goes on with the
    data pipeline for the prompt. *)
Theorem unparseable_follow_up_check_is_no_follow_up env event w m ctx text e :
  conversation_context event = Some (m :: ctx) ->
  invoke_model env (FollowUpPrompt (full_prompt_of (m :: ctx) (query event))) = Ok text ->
  loads_follow_up env text = Raise e ->
  lambda_handler env event w
  = answer_from_data env (query event) (m :: ctx)
      (add_events [ Log DEBUG "{event}"; Log INFO "Start";
                    InvokeModel (FollowUpPrompt (full_prompt_of (m :: ctx) (query event)));
                    Log ERROR "Error parsing follow-up check response: {e}" ] w).
Proof.
  intros Hctx Hm Hl. unfold lambda_handler. rewrite Hctx.
  change (default [] (Some (m :: ctx))) with (m :: ctx).
  rewrite !bind_log, add_events_add_events. unfold follow_up.
  unfold bind at 1.
  rewrite (bind_ok _ _ _ _ _ (check_unparseable env _ text e _ Hm Hl)).
  rewrite add_events_add_events. reflexivity.
Qed.

Lemma unparseable_follow_up_check_is_no_follow_up_witness :
  lambda_handler Demo.garbled_env Demo.follow_up_request (Demo.world None)
  = answer_from_data Demo.garbled_env (query Demo.follow_up_request) [Demo.turn]
      (add_events [ Log DEBUG "{event}"; Log INFO "Start";
                    InvokeModel (FollowUpPrompt (full_prompt_of [Demo.turn]
                                                   (query Demo.follow_up_request)));
                    Log ERROR "Error parsing follow-up check response: {e}" ]
         (Demo.world None)).
Proof.
  exact (unparseable_follow_up_check_is_no_follow_up Demo.garbled_env Demo.follow_up_request
           (Demo.world None) Demo.turn [] "is_follow_up: false"
           (ValueError "Expecting value") eq_refl eq_refl eq_refl).
Defined.

(** X12 (lambda_handler): the fallback of the check covers the parsing
    only.  When the parsed answer of the classifier has no [is_follow_up]
    (or is no dict), the subscription in the handler raises, and the
    request ends there: after the call of the model nothing else is
    called. *)
Theorem follow_up_check_without_flag_raises env event w m ctx text v e :
  conversation_context event = Some (m :: ctx) ->
  invoke_model env (FollowUpPrompt (full_prompt_of (m :: ctx) (query event))) = Ok text ->
  loads_follow_up env text = Ok v ->
  getitem v "is_follow_up" = Raise e ->
  lambda_handler env event w
  = (Raise e,
     add_events [ Log DEBUG "{event}"; Log INFO "Start";
                  InvokeModel (FollowUpPrompt (full_prompt_of (m :: ctx) (query event))) ] w).
Proof.
  intros Hctx Hm Hl Hg. unfold lambda_handler. rewrite Hctx.
  change (default [] (Some (m :: ctx))) with (m :: ctx).
  rewrite !bind_log, add_events_add_events. unfold follow_up.
  unfold bind at 1.
  rewrite (bind_ok _ _ _ _ _ (check_parsed env _ text v _ Hm Hl)).
  rewrite Hg, bind_lift_raise, add_events_add_events. reflexivity.
Qed.

Lemma follow_up_check_without_flag_raises_witness :
  fst (lambda_handler
         (Demo.env_with "postgres" "public" Demo.describe (Ok (PList [])) [])
         Demo.follow_up_request (Demo.world None))
  = Raise (TypeError "object is not subscriptable").
Proof.
  rewrite (follow_up_check_without_flag_raises
             (Demo.env_with "postgres" "public" Demo.describe (Ok (PList [])) [])
             Demo.follow_up_request (Demo.world None) Demo.turn [] "is_follow_up: false"
             (PList []) (TypeError "object is not subscriptable")
             eq_refl eq_refl eq_refl eq_refl).
  reflexivity.
Defined.

(** X13 (get_sql_from_bedrock): when the answer of the model has a
    [<sql>] block, the function returns the pair of the first statement
    and its parameters, and the parameters are the empty list when the
    answer has no [<params>] block or when the first one is no Python
    literal; the function does not raise. *)
Theorem get_sql_parameters_default_to_empty env query schema w text sql0 rest :
  invoke_model env (SqlPrompt query schema) = Ok text ->
  TextToSQL.findall "<sql>" "</sql>" text = sql0 :: rest ->
  (TextToSQL.findall "<params>" "</params>" text = []
   \/ exists params0 more e,
        TextToSQL.findall "<params>" "</params>" text = params0 :: more
        /\ literal_eval env params0 = Raise e) ->
  returns (TextToSQL.get_sql_from_bedrock env query schema) w (PTuple [PStr sql0; PList []]).
Proof.
  intros Hm Hsql Hp. unfold returns. rewrite (get_sql_run env query schema text w Hm), Hsql.
  destruct Hp as [-> | (params0 & more & e & -> & He)].
  - reflexivity.
  - unfold bind, try_except, lift, log, emit, ret. rewrite He. reflexivity.
Qed.

Lemma get_sql_parameters_default_to_empty_witness :
  returns (TextToSQL.get_sql_from_bedrock
             (Demo.env_with "postgres" "public"
                (fun _ => Ok "<sql>SELECT count(*) FROM t</sql>")
                (Ok PNone) [])
             "How many properties are there?" "Table: t (Schema: public)")
    (Demo.world None) (PTuple [PStr "SELECT count(*) FROM t"; PList []]).
Proof.
  apply (get_sql_parameters_default_to_empty
           (Demo.env_with "postgres" "public"
              (fun _ => Ok "<sql>SELECT count(*) FROM t</sql>") (Ok PNone) [])
           "How many properties are there?" "Table: t (Schema: public)" (Demo.world None)
           "<sql>SELECT count(*) FROM t</sql>" "SELECT count(*) FROM t" [] eq_refl eq_refl).
  left. reflexivity.
Defined.

(** X14 (compare_embeddings, get_embedding): when the embedding model
    fails, [compare_embeddings] raises the exception of the model
    unchanged, after the error has been logged by [get_embedding] and by
    [compare_embeddings]; the table of embeddings is not queried. *)
Theorem compare_embeddings_reraises env user_prompt top_k w e :
  invoke_embedding env user_prompt = Raise e ->
  Indexer.compare_embeddings env user_prompt top_k w
  = (Raise e,
     add_events [ Log DEBUG "Generating embedding for {text}";
                  InvokeEmbedding user_prompt;
                  Log ERROR "Error generating embedding: {e}";
                  Log ERROR "Error in compare_embeddings: {str(e)}" ] w).
Proof.
  intros H. unfold Indexer.compare_embeddings, Embed.get_embedding.
  unfold try_except, bind, log, emit, lift, raise. rewrite H. cbn.
  by rewrite !add_events_add_events.
Qed.

Lemma compare_embeddings_reraises_witness :
  fst (Indexer.compare_embeddings Demo.throttled_env "How many properties are there?" 5
         (Demo.world None))
  = Raise (Exception "ThrottlingException").
Proof.
  rewrite (compare_embeddings_reraises Demo.throttled_env "How many properties are there?" 5
             (Demo.world None) (Exception "ThrottlingException") eq_refl).
  reflexivity.
Defined.

(* ===================================================================== *)
(** * Cache hits                                                          *)
(* ===================================================================== *)

Section LogsOnly.
Context {A B : Type}.

Lemma logs_ret (a : A) : logs_only (ret a).
Proof. intros w. exists []. by rewrite add_events_nil. Qed.

Lemma logs_raise e : logs_only (@raise A e).
Proof. intros w. exists []. by rewrite add_events_nil. Qed.

Lemma logs_lift (r : result A) : logs_only (lift r).
Proof. intros w. exists []. by rewrite add_events_nil. Qed.

Lemma logs_log lvl msg : logs_only (log lvl msg).
Proof. intros w. by exists [Log lvl msg]. Qed.

Lemma logs_bind (m : M A) (k : A -> M B) :
  logs_only m -> (forall a, logs_only (k a)) -> logs_only (bind m k).
Proof.
  intros Hm Hk w. unfold bind. destruct (Hm w) as (e1 & H1 & F1).
  destruct (m w) as [[a|e] w1]; simpl in *; subst w1; [|eauto].
  destruct (Hk a (add_events e1 w)) as (e2 & H2 & F2).
  exists (e1 ++ e2)%list. rewrite H2, add_events_add_events, forallb_app, F1, F2. done.
Qed.

Lemma logs_try_except (m : M A) handles h :
  logs_only m -> (forall e, logs_only (h e)) -> logs_only (try_except m handles h).
Proof.
  intros Hm Hh w. unfold try_except. destruct (Hm w) as (e1 & H1 & F1).
  destruct (m w) as [[a|e] w1]; simpl in *; subst w1; [eauto|].
  destruct (handles e); [|eauto].
  destruct (Hh e (add_events e1 w)) as (e2 & H2 & F2).
  exists (e1 ++ e2)%list. rewrite H2, add_events_add_events, forallb_app, F1, F2. done.
Qed.

Lemma yields_lift (r : result A) : yields (fun a => r = Ok a) (lift r).
Proof. intros w a H. exact H. Qed.

End LogsOnly.

Ltac logs_step :=
  lazymatch goal with
  | |- logs_only (bind _ _) => apply logs_bind; [|intros]
  | |- logs_only (ret _) => apply logs_ret
  | |- logs_only (raise _) => apply logs_raise
  | |- logs_only (lift _) => apply logs_lift
  | |- logs_only (log _ _) => apply logs_log
  | |- logs_only (try_except _ _ _) => apply logs_try_except; [|intros]
  | |- logs_only (match ?x with _ => _ end) => destruct x
  end.

Lemma serve_hit_logs_only env entry cache_lookup : logs_only (serve_hit env entry cache_lookup).
Proof. unfold serve_hit. repeat logs_step. Qed.

Lemma serve_hit_served_from env entry cache_lookup :
  truthy entry = true -> yields (served_from entry) (serve_hit env entry cache_lookup).
Proof.
  intros Ht. unfold serve_hit. rewrite Ht.
  ystep.
  eapply yields_bind; [apply (yields_ret (fun a => a = entry)); reflexivity|intros ? ->].
  do 4 ystep.
  eapply yields_bind; [apply yields_lift|intros text_response Htr].
  eapply yields_bind; [apply yields_lift|intros query_results Hqr].
  ystep.
  eapply yields_bind; [apply yields_lift|intros cache_id Hid].
  apply yields_ret. eexists. split; [reflexivity|].
  rewrite Htr, Hqr, Hid. repeat split.
Qed.

(** X15 (lambda_handler, the branch of a cache hit): a hit is served from
    the entry alone.  The branch changes nothing in the world and calls
    nothing but the logger: no model is invoked, no statement is run and
    the cache is not written to; the response that it returns carries the
    answer, the query results and the key of the entry. *)
Theorem cache_hit_is_served_from_the_entry env entry cache_lookup w :
  truthy entry = true ->
  (exists evs, snd (serve_hit env entry cache_lookup w) = add_events evs w
               /\ forallb is_log evs = true)
  /\ (forall response,
        returns (serve_hit env entry cache_lookup) w response -> served_from entry response).
Proof.
  intros Ht. split; [apply serve_hit_logs_only|].
  intros response H. exact (serve_hit_served_from env entry cache_lookup Ht w response H).
Qed.

Lemma cache_hit_is_served_from_the_entry_witness :
  exists response,
    returns (serve_hit Demo.env Demo.stored_entry Demo.lookup)
      (Demo.world None) response
    /\ served_from Demo.stored_entry response.
Proof.
  eexists. split; [vm_compute; reflexivity|].
  apply (cache_hit_is_served_from_the_entry Demo.env Demo.stored_entry
           Demo.lookup (Demo.world None) eq_refl).
  vm_compute. reflexivity.
Defined.

(* ===================================================================== *)
(** * Identifiers followed by a line feed                                 *)
(* ===================================================================== *)

Lemma append_cons c s t : (String c s ++ t)%string = String c (s ++ t).
Proof. reflexivity. Qed.

Lemma append_nil t : ("" ++ t)%string = t.
Proof. reflexivity. Qed.

Lemma match_rest_line_feed s :
  forallb PostgresValidation.rest_class (list_ascii_of_string s) = true ->
  PostgresValidation.match_rest (s ++ nl) = true.
Proof.
  induction s as [|c s IH]; [reflexivity|]. cbn [list_ascii_of_string forallb].
  intros [Hc Hs]%andb_prop. rewrite append_cons. cbn [PostgresValidation.match_rest].
  rewrite Hc. by apply IH.
Qed.

Lemma prefix_pg_line_feed name :
  String.prefix "pg_" name = false -> String.prefix "pg_" (name ++ nl) = false.
Proof.
  destruct name as [|c1 [|c2 [|c3 rest]]]; rewrite ?append_cons, ?append_nil;
    cbn [String.prefix nl];
    repeat (match goal with |- context [ascii_dec ?a ?b] => destruct (ascii_dec a b) end;
            try done).
  destruct rest; discriminate.
Qed.

Lemma lower_line_feed name :
  PostgresValidation.lower (name ++ nl) = (PostgresValidation.lower name ++ nl)%string.
Proof.
  induction name as [|c s IH]; [reflexivity|].
  rewrite append_cons. cbn [PostgresValidation.lower]. by rewrite IH, append_cons.
Qed.

Lemma length_line_feed name : String.length (name ++ nl) = S (String.length name).
Proof.
  induction name as [|c s IH]; [reflexivity|].
  rewrite append_cons. cbn [String.length]. by rewrite IH.
Qed.

Lemma last_char_line_feed s :
  String.substring (String.length s) 1 (s ++ nl) = nl.
Proof.
  induction s as [|c s IH]; [reflexivity|].
  rewrite append_cons. cbn [String.length String.substring]. exact IH.
Qed.

Lemma line_feed_not_reserved s : PostgresValidation.is_reserved (s ++ nl) = false.
Proof.
  unfold PostgresValidation.is_reserved.
  destruct (existsb _ _) eqn:E; [|reflexivity].
  apply existsb_exists in E as (word & Hin & Heq). apply String.eqb_eq in Heq. subst word.
  assert (H : forallb (fun word => negb (String.eqb
                         (String.substring (String.length word - 1) 1 word) nl))
                PostgresValidation.POSTGRES_RESERVED_WORDS = true) by (vm_compute; reflexivity).
  rewrite forallb_forall in H. specialize (H _ Hin).
  rewrite length_line_feed in H.
  replace (S (String.length s) - 1)%nat with (String.length s) in H by lia.
  rewrite last_char_line_feed in H. discriminate H.
Qed.

(** X16 (is_valid_postgres_identifier): the [$] of the pattern also
    matches before a line feed that ends the name, and the test of the
    reserved words compares the whole name; so every name made of a letter
    or underscore and of letters, digits, underscores and dollar signs,
    that does not start with [pg_] and has at most 62 bytes, is accepted
    when a line feed follows it, also when the name is a reserved word. *)
Theorem name_with_line_feed_is_valid name :
  plain_name name = true ->
  String.prefix "pg_" name = false ->
  (String.length name <= 62)%nat ->
  PostgresValidation.is_valid_postgres_identifier (name ++ nl) = true.
Proof.
  intros Hplain Hpg Hlen. unfold PostgresValidation.is_valid_postgres_identifier.
  assert (Hm : PostgresValidation.re_match_pattern (name ++ nl) = true).
  { unfold PostgresValidation.re_match_pattern. rewrite (prefix_pg_line_feed _ Hpg).
    destruct name as [|c s]; [discriminate|]. cbn [plain_name] in Hplain.
    apply andb_prop in Hplain as [Hc Hs]. rewrite append_cons. cbn [negb andb].
    rewrite Hc. by apply match_rest_line_feed. }
  rewrite Hm. cbn [negb]. rewrite length_line_feed.
  destruct (Z.ltb_spec 63 (Z.of_nat (S (String.length name)))); [lia|].
  by rewrite lower_line_feed, line_feed_not_reserved.
Qed.

Lemma name_with_line_feed_is_valid_witness :
  PostgresValidation.is_valid_postgres_identifier "select" = false
  /\ PostgresValidation.is_valid_postgres_identifier ("select" ++ nl) = true.
Proof.
  split; [reflexivity|].
  apply (name_with_line_feed_is_valid "select" eq_refl eq_refl). simpl. lia.
Defined.

(* ===================================================================== *)
(** * The wire form of a vector: its length                               *)
(* ===================================================================== *)

(** X17 (_vector_to_bytes): the wire form of a vector has four bytes for
    every element, and the wire form of a concatenation is the
    concatenation of the wire forms. *)
Theorem vector_to_bytes_length vector :
  length (Cache._vector_to_bytes vector) = (4 * length vector)%nat
  /\ forall more, Cache._vector_to_bytes (vector ++ more)
                  = (Cache._vector_to_bytes vector ++ Cache._vector_to_bytes more)%list.
Proof.
  unfold Cache._vector_to_bytes. split.
  - induction vector as [|x v IH]; [reflexivity|].
    cbn [flat_map]. rewrite length_app, IH. unfold Float32.pack_f, Float32.le_bytes.
    cbn [length]. lia.
  - intros more. apply flat_map_app.
Qed.

(* ===================================================================== *)
(** * A cache miss is written to the cache                                *)
(* ===================================================================== *)


Section Miss.
Context (env : Env).







End Miss.



(* ===================================================================== *)
(** * From the lookup to the response of a hit                            *)
(* ===================================================================== *)

Section Served.
Context (env : Env).

Lemma search_result_docs vector top_k w cache_lookup :
  fst (Cache.search env vector top_k w) = Ok cache_lookup ->
  exists docs, cache_lookup = map (Cache.doc_dict env) docs.
Proof.
  unfold Cache.search, Cache.on_client, Cache.command, bind, get, emit, log, raise, ret.
  cbn. destruct (valkey_client w); cbn; [|discriminate].
  destruct (cluster_fault w); cbn; [discriminate|].
  intros [= <-]. eauto.
Qed.

Lemma serve_hit_doc doc cache_lookup w :
  (forall s e, json_loads env s = Raise e -> exists msg, e = ValueError msg) ->
  exists response, fst (serve_hit env (Cache.doc_dict env doc) cache_lookup w) = Ok response.
Proof.
  intros Hjson. unfold serve_hit.
  change (truthy (Cache.doc_dict env doc)) with true. cbv iota.
  rewrite bind_log, bind_ret.
  change (getitem (Cache.doc_dict env doc) "vector_score")
    with (@Ok pyval (PFloat (py_round env (1 - doc_score doc)%float 2))).
  rewrite bind_lift_ok, bind_log.
  change (entry_get (Cache.doc_dict env doc) "sql_statement" PNone)
    with (Ok (Cache.attr (doc_sql_statement doc))).
  rewrite bind_lift_ok.
  match goal with |- context [bind ?block _ _] =>
    assert (Hblock : exists x, block = ret x)
  end.
  { destruct (doc_sql_statement doc) as [s|]; cbn [Cache.attr truthy]; [|eauto].
    destruct (negb (String.eqb s "")); [|eauto].
    destruct (String.prefix "[" s); [|eauto].
    destruct (json_loads env s) as [v|e] eqn:E.
    - exists v. reflexivity.
    - destruct (Hjson s e E) as (msg & ->). exists (PStr s). reflexivity. }
  destruct Hblock as (x & ->). rewrite bind_ret.
  change (getitem (Cache.doc_dict env doc) "text_response")
    with (Ok (Cache.attr (doc_text_response doc))).
  rewrite bind_lift_ok.
  change (getitem (Cache.doc_dict env doc) "query_results")
    with (Ok (Cache.attr (doc_query_results doc))).
  rewrite bind_lift_ok.
  change (entry_get (Cache.doc_dict env doc) "column_names" (PList []))
    with (Ok (Cache.attr (doc_column_names doc))).
  rewrite bind_lift_ok.
  change (getitem (Cache.doc_dict env doc) "id") with (@Ok pyval (PStr (doc_id doc))).
  rewrite bind_lift_ok. unfold ret. eauto.
Qed.

End Served.

(** X19 (CacheService.search, lambda_handler): what the lookup returns
    can always be admitted and served.  On the result of a lookup the
    admission returns a decision and only logs, a hit is an entry of the
    result, and the branch of the hit returns a response for it, which
    carries the answer, the results and the key of the entry: no
    subscription of an entry raises.  (The JSON decoder is assumed to raise
    nothing but its decoding error.) *)
Theorem lookup_result_is_served env vector top_k w cache_lookup :
  returns (Cache.search env vector top_k) w cache_lookup ->
  (forall s e, json_loads env s = Raise e -> exists msg, e = ValueError msg) ->
  forall prompt w1,
  exists decision evs,
    select_cache_entry env cache_lookup prompt w1 = (Ok decision, add_events evs w1)
    /\ forallb is_log evs = true
    /\ forall entry, decision = Some entry ->
         In entry cache_lookup
         /\ forall w2, exists response,
              returns (serve_hit env entry cache_lookup) w2 response
              /\ served_from entry response.
Proof.
  intros Hsearch Hjson prompt w1.
  pose proof (search_returns_entries env vector top_k w cache_lookup Hsearch) as Hwf.
  destruct (search_result_docs env vector top_k w cache_lookup Hsearch) as (docs & Hdocs).
  destruct (select_cache_entry_run env cache_lookup prompt w1 Hwf) as (evs & Hlog & Hrun).
  eexists _, evs. split; [exact Hrun|]. split; [exact Hlog|].
  intros entry Hentry.
  assert (Hin : In entry cache_lookup).
  { destruct (last_exact_match prompt cache_lookup None) as [E|] eqn:HE.
    - injection Hentry as <-.
      destruct (last_exact_match_some prompt cache_lookup None E HE) as [[Hin _]|]; done.
    - destruct cache_lookup as [|top rest]; [done|].
      destruct (VECTOR_SCORE_THRESHOLD <=? entry_score top)%float; [|done].
      injection Hentry as <-. by left. }
  split; [exact Hin|]. intros w2.
  rewrite Hdocs in Hin. apply in_map_iff in Hin as (doc & <- & _).
  destruct (serve_hit_doc env doc cache_lookup w2 Hjson) as (response & Hresp).
  exists response. split; [exact Hresp|].
  exact (serve_hit_served_from env (Cache.doc_dict env doc) cache_lookup eq_refl w2 response
           Hresp).
Qed.

Lemma lookup_result_is_served_witness :
  exists decision evs,
    select_cache_entry Demo.warm_env Demo.lookup "How many properties are there?"
      Demo.connected
    = (Ok decision, add_events evs Demo.connected)
    /\ forallb is_log evs = true.
Proof.
  destruct (lookup_result_is_served Demo.warm_env Demo.unit_vector 20 Demo.connected
              Demo.lookup eq_refl
              (fun s e (H : json_loads Demo.warm_env s = Raise e) =>
                 match H in (_ = r) return (match r with
                                            | Ok _ => True
                                            | Raise e0 => exists msg, e0 = ValueError msg
                                            end) with
                 | eq_refl => I
                 end)
              "How many properties are there?" Demo.connected)
    as (decision & evs & H1 & H2 & _).
  exists decision, evs. split; assumption.
Defined.

(* ===================================================================== *)
(** * The wire form of a vector: the round trip                           *)
(* ===================================================================== *)

(** ** The number of digits of a mantissa *)

Lemma digits2_pos_bounds m :
  2 ^ (Zpos (digits2_pos m) - 1) <= Zpos m < 2 ^ Zpos (digits2_pos m).
Proof.
  induction m as [m IH|m IH|]; cbn [digits2_pos]; [| |by vm_compute].
  - rewrite Pos2Z.inj_succ. replace (Z.succ (Zpos (digits2_pos m)) - 1)
      with (Z.succ (Zpos (digits2_pos m) - 1)) by lia.
    rewrite !Z.pow_succ_r by lia. lia.
  - rewrite Pos2Z.inj_succ. replace (Z.succ (Zpos (digits2_pos m)) - 1)
      with (Z.succ (Zpos (digits2_pos m) - 1)) by lia.
    rewrite !Z.pow_succ_r by lia. lia.
Qed.

Lemma Zdigits2_bounds m :
  0 < m -> 0 < Zdigits2 m /\ 2 ^ (Zdigits2 m - 1) <= m < 2 ^ Zdigits2 m.
Proof.
  destruct m as [|p|p]; try lia. intros _. cbn [Zdigits2].
  split; [lia|apply digits2_pos_bounds].
Qed.

Lemma Zdigits2_unique m D :
  0 < D -> 2 ^ (D - 1) <= m < 2 ^ D -> Zdigits2 m = D.
Proof.
  intros HD [Hlo Hhi].
  assert (Hm : 0 < m).
  { pose proof (Z.pow_pos_nonneg 2 (D - 1)). lia. }
  destruct (Zdigits2_bounds m Hm) as (HD0 & Hlo0 & Hhi0).
  destruct (Z.lt_trichotomy (Zdigits2 m) D) as [H|[H|H]]; [|done|].
  - pose proof (Z.pow_le_mono_r 2 (Zdigits2 m) (D - 1)). lia.
  - pose proof (Z.pow_le_mono_r 2 D (Zdigits2 m - 1)). lia.
Qed.

Lemma Zdigits2_div m n :
  0 < m -> 0 <= n -> Zdigits2 (m / 2 ^ n) = Z.max 0 (Zdigits2 m - n).
Proof.
  intros Hm Hn. destruct (Zdigits2_bounds m Hm) as (HD & Hlo & Hhi).
  assert (Hp : 0 < 2 ^ n) by (apply Z.pow_pos_nonneg; lia).
  destruct (Z_lt_le_dec n (Zdigits2 m)) as [H|H].
  - rewrite Z.max_r by lia. apply Zdigits2_unique; [lia|]. split.
    + apply Z.div_le_lower_bound; [done|].
      rewrite <- Z.pow_add_r by lia.
      replace (n + (Zdigits2 m - n - 1)) with (Zdigits2 m - 1) by lia. done.
    + apply Z.div_lt_upper_bound; [done|].
      rewrite <- Z.pow_add_r by lia.
      replace (n + (Zdigits2 m - n)) with (Zdigits2 m) by lia. done.
  - rewrite Z.max_l by lia. rewrite Z.div_small; [reflexivity|].
    pose proof (Z.pow_le_mono_r 2 (Zdigits2 m) n). lia.
Qed.

Lemma Zdigits2_succ m :
  0 <= m -> Zdigits2 (m + 1) = Zdigits2 m \/ Zdigits2 (m + 1) = Zdigits2 m + 1.
Proof.
  intros Hm. destruct (Z.eq_dec m 0) as [->|Hne]; [by right|].
  destruct (Zdigits2_bounds m) as (HD & Hlo & Hhi); [lia|].
  destruct (Z.eq_dec (m + 1) (2 ^ Zdigits2 m)) as [He|He].
  - right. apply Zdigits2_unique; [lia|].
    replace (Zdigits2 m + 1 - 1) with (Zdigits2 m) by lia.
    rewrite Z.pow_add_r by lia. change (2 ^ 1) with 2. lia.
  - left. apply Zdigits2_unique; [lia|]. lia.
Qed.

(** ** Shifts to the right *)

Lemma shr_1_m r : 0 <= shr_m r -> shr_m (shr_1 r) = shr_m r / 2.
Proof.
  destruct r as [m b s]. cbn [shr_m shr_1]. intros Hm.
  destruct m as [|[p|p|]|p]; cbn [shr_m]; try lia; try reflexivity.
  - rewrite (Pos2Z.inj_xI p). apply (Z.div_unique _ _ _ 1); lia.
  - rewrite (Pos2Z.inj_xO p). apply (Z.div_unique _ _ _ 0); lia.
Qed.

Lemma iter_pos_shr_m p : forall r,
  0 <= shr_m r -> shr_m (SpecFloat.iter_pos shr_1 p r) = shr_m r / 2 ^ Zpos p.
Proof.
  assert (Hdiv : forall a b, 0 <= a -> 0 < b -> 0 <= a / b).
  { intros a b Ha Hb. apply Z.div_pos; lia. }
  induction p as [p IH|p IH|]; intros r Hr; cbn [SpecFloat.iter_pos].
  - assert (H1 : 0 <= shr_m (shr_1 r)) by (rewrite shr_1_m by done; apply Hdiv; lia).
    assert (Hp : 0 < 2 ^ Zpos p) by (apply Z.pow_pos_nonneg; lia).
    assert (H2 : 0 <= shr_m (SpecFloat.iter_pos shr_1 p (shr_1 r))).
    { rewrite IH by done. by apply Hdiv. }
    rewrite IH, IH, shr_1_m by done.
    rewrite !Z.div_div by lia. f_equal.
    rewrite (Pos2Z.inj_xI p). replace (2 * Zpos p + 1) with (1 + Zpos p + Zpos p) by lia.
    rewrite !Z.pow_add_r by lia. change (2 ^ 1) with 2. lia.
  - assert (Hp : 0 < 2 ^ Zpos p) by (apply Z.pow_pos_nonneg; lia).
    assert (H2 : 0 <= shr_m (SpecFloat.iter_pos shr_1 p r)).
    { rewrite IH by done. by apply Hdiv. }
    rewrite IH, IH by done.
    rewrite !Z.div_div by lia. f_equal.
    rewrite (Pos2Z.inj_xO p). replace (2 * Zpos p) with (Zpos p + Zpos p) by lia.
    rewrite !Z.pow_add_r by lia. lia.
  - by apply shr_1_m.
Qed.

Lemma shr_spec r e n :
  0 <= shr_m r ->
  shr_m (fst (shr r e n)) = shr_m r / 2 ^ Z.max 0 n /\ snd (shr r e n) = e + Z.max 0 n.
Proof.
  intros Hr. destruct n as [|p|p]; cbn [shr fst snd].
  - change (Z.max 0 0) with 0. rewrite Z.div_1_r. lia.
  - rewrite Z.max_r by lia. split; [by apply iter_pos_shr_m|reflexivity].
  - rewrite Z.max_l by lia. change (2 ^ 0) with 1. rewrite Z.div_1_r. lia.
Qed.

Lemma shr_record_of_loc_m m l : shr_m (shr_record_of_loc m l) = m.
Proof. by destruct l as [|[]]. Qed.

Lemma shr_fexp_spec m e l :
  0 <= m ->
  let n := Z.max 0 (SpecFloat.fexp Float32.prec Float32.emax (Zdigits2 m + e) - e) in
  shr_m (fst (SpecFloat.shr_fexp Float32.prec Float32.emax m e l)) = m / 2 ^ n
  /\ snd (SpecFloat.shr_fexp Float32.prec Float32.emax m e l) = e + n.
Proof.
  intros Hm n. unfold SpecFloat.shr_fexp.
  pose proof (shr_spec (shr_record_of_loc m l) e
                (SpecFloat.fexp Float32.prec Float32.emax (Zdigits2 m + e) - e)) as H.
  rewrite shr_record_of_loc_m in H. by apply H.
Qed.

Lemma round_nearest_even_cases m l :
  round_nearest_even m l = m \/ round_nearest_even m l = m + 1.
Proof. destruct l as [|[]]; cbn [round_nearest_even]; auto. destruct (Z.even m); auto. Qed.

Lemma fexp_single x : SpecFloat.fexp Float32.prec Float32.emax x = Z.max (x - 24) (-149).
Proof. reflexivity. Qed.

(** ** Rounding to binary32 gives a binary32 number *)

Lemma binary_round_aux_single s m e l :
  0 < m -> e <= SpecFloat.fexp Float32.prec Float32.emax (Zdigits2 m + e) ->
  is_single (SpecFloat.binary_round_aux Float32.prec Float32.emax s m e l) = true.
Proof.
  intros Hm He. unfold SpecFloat.binary_round_aux.
  destruct (shr_fexp_spec m e l) as [H1m H1e]; [lia|].
  destruct (SpecFloat.shr_fexp Float32.prec Float32.emax m e l) as [r1 e1]. cbn [fst snd] in H1m, H1e.
  set (m1 := round_nearest_even (shr_m r1) (loc_of_shr_record r1)).
  assert (Hm' : 0 <= shr_m r1).
  { rewrite H1m. apply Z.div_pos; [lia|]. apply Z.pow_pos_nonneg; lia. }
  assert (Hd' : Zdigits2 (shr_m r1)
                = Z.max 0 (Zdigits2 m
                           - Z.max 0 (SpecFloat.fexp Float32.prec Float32.emax (Zdigits2 m + e) - e))).
  { rewrite H1m. apply Zdigits2_div; lia. }
  assert (Hm1 : 0 <= m1 /\ (Zdigits2 m1 = Zdigits2 (shr_m r1)
                            \/ Zdigits2 m1 = Zdigits2 (shr_m r1) + 1)).
  { subst m1. destruct (round_nearest_even_cases (shr_m r1) (loc_of_shr_record r1)) as [->| ->].
    - split; [lia|by left]. 
    - split; [lia|]. by apply Zdigits2_succ. }
  destruct Hm1 as [Hm1 Hd1].
  destruct (shr_fexp_spec m1 e1 loc_Exact Hm1) as [H2m H2e].
  destruct (SpecFloat.shr_fexp Float32.prec Float32.emax m1 e1 loc_Exact) as [r2 e2].
  cbn [fst snd] in H2m, H2e.
  destruct (shr_m r2) as [|p|p] eqn:Hr2; [reflexivity| |reflexivity].
  change (Float32.emax - Float32.prec) with 104.
  destruct (Z.leb_spec e2 104) as [Hle|Hgt]; [|reflexivity].
  unfold is_single. cbn [SpecFloat.valid_binary]. unfold SpecFloat.bounded, SpecFloat.canonical_mantissa.
  change (Float32.emax - Float32.prec) with 104.
  apply andb_true_intro. split; [|lia].
  apply Z.eqb_eq.
  assert (Hm1pos : 0 < m1).
  { destruct (Z.eq_dec m1 0) as [Hz|]; [|lia]. rewrite Hz, Z.div_0_l in H2m; [lia|].
    apply Z.pow_nonzero; lia. }
  assert (Hd2 : Zpos (digits2_pos p)
                = Z.max 0 (Zdigits2 m1
                           - Z.max 0 (SpecFloat.fexp Float32.prec Float32.emax (Zdigits2 m1 + e1) - e1))).
  { change (Zpos (digits2_pos p)) with (Zdigits2 (Zpos p)). rewrite H2m.
    apply Zdigits2_div; lia. }
  destruct (Zdigits2_bounds m Hm) as (HD & _).
  rewrite fexp_single in *. lia.
Qed.

Lemma iter_xO_spec d m : Zpos (Pos.iter xO m d) = Zpos m * 2 ^ Zpos d.
Proof.
  revert m. induction d as [|d IH] using Pos.peano_ind; intros m.
  - change (Pos.iter xO m 1) with (xO m). change (2 ^ 1) with 2. lia.
  - rewrite Pos.iter_succ, (Pos2Z.inj_xO (Pos.iter xO m d)), IH, Pos2Z.inj_succ,
      Z.pow_succ_r by lia. lia.
Qed.

Lemma Zdigits2_shl m d :
  0 < m -> 0 <= d -> Zdigits2 (m * 2 ^ d) = Zdigits2 m + d.
Proof.
  intros Hm Hd. destruct (Zdigits2_bounds m Hm) as (HD & Hlo & Hhi).
  assert (Hp : 0 < 2 ^ d) by (apply Z.pow_pos_nonneg; lia).
  apply Zdigits2_unique; [lia|].
  replace (Zdigits2 m + d - 1) with (Zdigits2 m - 1 + d) by lia.
  rewrite !Z.pow_add_r by lia. nia.
Qed.

Lemma binary_round_single s m e :
  is_single (SpecFloat.binary_round Float32.prec Float32.emax s m e) = true.
Proof.
  unfold SpecFloat.binary_round, shl_align.
  destruct (SpecFloat.fexp Float32.prec Float32.emax (Zpos (digits2_pos m) + e) - e) as [|d|d] eqn:Hd.
  - apply binary_round_aux_single; [lia|]. cbn [Zdigits2]. lia.
  - apply binary_round_aux_single; [lia|]. cbn [Zdigits2]. lia.
  - apply binary_round_aux_single; [lia|].
    rewrite iter_xO_spec, Zdigits2_shl by lia. cbn [Zdigits2].
    replace (Zpos (digits2_pos m) + Zpos d
             + SpecFloat.fexp Float32.prec Float32.emax (Zpos (digits2_pos m) + e))
      with (Zpos (digits2_pos m) + e) by lia.
    lia.
Qed.

Lemma to_single_is_single x : is_single (Float32.to_single x) = true.
Proof.
  unfold Float32.to_single. destruct (Prim2SF x); try reflexivity. apply binary_round_single.
Qed.

(** ** The interchange encoding *)

Lemma single_cases m e :
  SpecFloat.bounded Float32.prec Float32.emax m e = true ->
  (Zpos m < 0x800000 /\ e = -149)
  \/ (0x800000 <= Zpos m < 0x1000000 /\ -149 <= e <= 104).
Proof.
  unfold SpecFloat.bounded, SpecFloat.canonical_mantissa.
  intros [Hc He]%andb_prop. apply Z.eqb_eq in Hc. apply Z.leb_le in He.
  rewrite fexp_single in Hc. change (Float32.emax - Float32.prec) with 104 in He.
  pose proof (digits2_pos_bounds m) as [Hlo Hhi].
  destruct (Z_lt_le_dec (Zpos (digits2_pos m)) 24) as [H|H].
  - left. pose proof (Z.pow_le_mono_r 2 (Zpos (digits2_pos m)) 23).
    change (2 ^ 23) with 0x800000 in *. lia.
  - right. assert (Zpos (digits2_pos m) = 24) as Heq by lia. rewrite Heq in Hlo, Hhi.
    change (2 ^ (24 - 1)) with 0x800000 in Hlo. change (2 ^ 24) with 0x1000000 in Hhi. lia.
Qed.

Lemma single_of_bits_fields sgn biased frac :
  0 <= biased < 256 -> 0 <= frac < 0x800000 ->
  Float32.single_of_bits (Float32.sign_bit sgn + biased * 0x800000 + frac)
  = if biased =? 0 then
      if frac =? 0 then S754_zero sgn else S754_finite sgn (Z.to_pos frac) (-149)
    else if biased =? 255 then
      if frac =? 0 then S754_infinity sgn else S754_nan
    else S754_finite sgn (Z.to_pos (frac + 0x800000)) (biased - 150).
Proof.
  intros Hb Hf. unfold Float32.single_of_bits. cbv zeta.
  assert (H1 : (0x80000000 <=? Float32.sign_bit sgn + biased * 0x800000 + frac) = sgn).
  { destruct sgn; unfold Float32.sign_bit; [apply Z.leb_le|apply Z.leb_gt]; lia. }
  assert (H2 : ((Float32.sign_bit sgn + biased * 0x800000 + frac) / 0x800000) mod 256 = biased).
  { destruct sgn; unfold Float32.sign_bit; Z.div_mod_to_equations; lia. }
  assert (H3 : (Float32.sign_bit sgn + biased * 0x800000 + frac) mod 0x800000 = frac).
  { destruct sgn; unfold Float32.sign_bit; Z.div_mod_to_equations; lia. }
  rewrite H1, H2, H3. reflexivity.
Qed.

Lemma single_of_bits_of_single f :
  is_single f = true -> Float32.single_of_bits (Float32.bits_of_single f) = f.
Proof.
  destruct f as [s|s| |s m e]; cbn [Float32.bits_of_single].
  - intros _. replace (Float32.sign_bit s) with (Float32.sign_bit s + 0 * 0x800000 + 0) by lia.
    by rewrite single_of_bits_fields by lia.
  - intros _. replace (Float32.sign_bit s + 0x7f800000)
      with (Float32.sign_bit s + 255 * 0x800000 + 0) by lia.
    by rewrite single_of_bits_fields by lia.
  - intros _. reflexivity.
  - intros H. apply single_cases in H as [[Hm He]|[Hm He]].
    + destruct (Z.ltb_spec (Zpos m) 0x800000); [|lia].
      replace (Float32.sign_bit s + Zpos m)
        with (Float32.sign_bit s + 0 * 0x800000 + Zpos m) by lia.
      rewrite single_of_bits_fields by lia. subst e. reflexivity.
    + destruct (Z.ltb_spec (Zpos m) 0x800000); [lia|].
      rewrite single_of_bits_fields by lia.
      destruct (Z.eqb_spec (e + 150) 0); [lia|].
      destruct (Z.eqb_spec (e + 150) 255); [lia|].
      replace (Zpos m - 0x800000 + 0x800000) with (Zpos m) by lia.
      replace (e + 150 - 150) with e by lia. reflexivity.
Qed.

Lemma bits_of_single_range f :
  is_single f = true -> 0 <= Float32.bits_of_single f < 0x100000000.
Proof.
  destruct f as [s|s| |s m e]; cbn [Float32.bits_of_single].
  - destruct s; unfold Float32.sign_bit; lia.
  - destruct s; unfold Float32.sign_bit; lia.
  - lia.
  - intros H. apply single_cases in H as [[Hm He]|[Hm He]].
    + destruct (Z.ltb_spec (Zpos m) 0x800000); [|lia].
      destruct s; unfold Float32.sign_bit; lia.
    + destruct (Z.ltb_spec (Zpos m) 0x800000); [lia|].
      destruct s; unfold Float32.sign_bit; lia.
Qed.

(** ** Bytes *)

Lemma Z_of_byte_of_Z z : Float32.Z_of_byte (Float32.byte_of_Z z) = z mod 256.
Proof.
  unfold Float32.Z_of_byte, Float32.byte_of_Z.
  pose proof (Z.mod_pos_bound z 256 eq_refl) as Hb.
  destruct (Byte.of_N (Z.to_N (z mod 256))) as [b|] eqn:E.
  - apply Byte.to_of_N in E. rewrite E. apply Z2N.id. lia.
  - apply Byte.of_N_None_iff in E. lia.
Qed.

Lemma word_of_le_bytes_spec w :
  0 <= w < 0x100000000 ->
  word_of_le_bytes (Float32.byte_of_Z w) (Float32.byte_of_Z (w / 0x100))
    (Float32.byte_of_Z (w / 0x10000)) (Float32.byte_of_Z (w / 0x1000000)) = w.
Proof.
  intros Hw. unfold word_of_le_bytes. rewrite !Z_of_byte_of_Z.
  Z.div_mod_to_equations. lia.
Qed.

Lemma unpack_pack_f x rest :
  unpack_vector (Float32.pack_f x ++ rest) = Float32.to_single x :: unpack_vector rest.
Proof.
  unfold Float32.pack_f, Float32.le_bytes. cbn [app unpack_vector].
  rewrite word_of_le_bytes_spec by apply bits_of_single_range, to_single_is_single.
  by rewrite single_of_bits_of_single by apply to_single_is_single.
Qed.

(** X20 (_vector_to_bytes): the wire form of a vector, read back four
    bytes at a time as binary32 numbers, gives for every element the
    binary32 number to which the conversion of [array("f", ...)] rounds it
    (to nearest, ties to even, overflow to an infinity), and each of these
    is a binary32 number. *)
Theorem vector_round_trip vector :
  unpack_vector (Cache._vector_to_bytes vector) = map Float32.to_single vector
  /\ forallb is_single (map Float32.to_single vector) = true.
Proof.
  unfold Cache._vector_to_bytes. induction vector as [|x v [IH1 IH2]]; [done|].
  cbn [flat_map map forallb]. rewrite unpack_pack_f, IH1, IH2, to_single_is_single. done.
Qed.

(** The wire forms of 1.0 and of 0.1, whose binary32 neighbour is
    0x3dcccccd. *)
Example pack_f_examples :
  Float32.pack_f 1%float = [Byte.x00; Byte.x00; Byte.x80; Byte.x3f]
  /\ Float32.pack_f 0.1%float = [Byte.xcd; Byte.xcc; Byte.xcc; Byte.x3d].
Proof. split; vm_compute; reflexivity. Qed.

(* ===================================================================== *)
(** * The indexer: the descriptors of the tables                          *)
(* ===================================================================== *)

Lemma key_eqb_spec a b : Metadata.key_eqb a b = true <-> a = b.
Proof.
  destruct a as [a1 a2], b as [b1 b2]. unfold Metadata.key_eqb. cbn [fst snd].
  rewrite andb_true_iff, !String.eqb_eq. split; [by intros [-> ->]|by intros [= -> ->]].
Qed.

Lemma key_eqb_refl a : Metadata.key_eqb a a = true.
Proof. by apply key_eqb_spec. Qed.

Lemma key_eqb_neq a b : a <> b -> Metadata.key_eqb a b = false.
Proof.
  intros H. destruct (Metadata.key_eqb a b) eqn:E; [|reflexivity].
  by apply key_eqb_spec in E.
Qed.

Lemma key_dec (a b : Metadata.table_key) : a = b \/ a <> b.
Proof.
  destruct (Metadata.key_eqb a b) eqn:E; [left; by apply key_eqb_spec|].
  right. intros ->. by rewrite key_eqb_refl in E.
Qed.

Lemma append_row_new tables key row :
  ~ In key (map fst tables) ->
  Metadata.append_row tables key row = (tables ++ [(key, [row])])%list.
Proof.
  induction tables as [|[k rows] rest IH]; [reflexivity|]. cbn [map fst In].
  intros H. cbn [Metadata.append_row app].
  rewrite key_eqb_neq by tauto. rewrite IH by tauto. reflexivity.
Qed.

Lemma append_row_keys tables key row :
  In key (map fst tables) -> map fst (Metadata.append_row tables key row) = map fst tables.
Proof.
  induction tables as [|[k rows] rest IH]; [done|]. cbn [map fst In Metadata.append_row].
  intros H. destruct (Metadata.key_eqb k key) eqn:E; [reflexivity|].
  cbn [map fst]. f_equal. apply IH. destruct H as [->|H]; [|done].
  by rewrite key_eqb_refl in E.
Qed.

Lemma append_row_In tables key row k columns :
  List.NoDup (map fst tables) ->
  In (k, columns) (Metadata.append_row tables key row) ->
  (k <> key /\ In (k, columns) tables)
  \/ (k = key /\ exists old, In (key, old) tables /\ columns = (old ++ [row])%list)
  \/ (k = key /\ ~ In key (map fst tables) /\ columns = [row]).
Proof.
  induction tables as [|[k0 rows] rest IH]; cbn [map fst Metadata.append_row In].
  - intros _ [[= <- <-]|[]]. right. right. tauto.
  - intros Hnd. inversion Hnd as [|? ? Hnotin Hnd']; subst.
    destruct (Metadata.key_eqb k0 key) eqn:E.
    + apply key_eqb_spec in E. subst k0. cbn [In]. intros [[= <- <-]|Hin].
      * right. left. split; [done|]. exists rows. split; [by left|done].
      * left. split; [|by right]. intros ->. apply Hnotin.
        change key with (fst (key, columns)). by apply in_map.
    + cbn [In]. intros [[= <- <-]|Hin].
      * left. split; [|by left]. intros ->. by rewrite key_eqb_refl in E.
      * destruct (IH Hnd' Hin) as [[H1 H2]|[[H1 (old & H2 & H3)]|[H1 [H2 H3]]]].
        -- left. split; [done|by right].
        -- right. left. split; [done|]. exists old. split; [by right|done].
        -- right. right. split; [done|]. split; [|done].
           intros [Hk|Hk]; [|done]. subst k0. by rewrite key_eqb_refl in E.
Qed.

Lemma rows_of_app k rows row :
  rows_of k (rows ++ [row])
  = (rows_of k rows ++ (if Metadata.key_eqb (Metadata.key_of row) k then [row] else []))%list.
Proof. unfold rows_of. rewrite List.filter_app. cbn [List.filter]. reflexivity. Qed.

Lemma grouped_nil : grouped [] [].
Proof. split; [constructor|]. split; [intros k c []|intros r []]. Qed.

Lemma key_in_dec (k : Metadata.table_key) l : In k l \/ ~ In k l.
Proof.
  induction l as [|a l [IH|IH]]; [right; by intros []| |].
  - left. by right.
  - destruct (key_dec a k) as [->|H]; [left; by left|]. right. by intros [|].
Qed.

Lemma filter_none {A} (f : A -> bool) l :
  (forall x, In x l -> f x = false) -> List.filter f l = [].
Proof.
  induction l as [|a l IH]; [reflexivity|]. intros H. cbn [List.filter].
  rewrite (H a) by (by left). apply IH. intros x Hx. apply H. by right.
Qed.

Lemma grouped_step tables rows row :
  grouped tables rows ->
  grouped (Metadata.append_row tables (Metadata.key_of row) row) (rows ++ [row]).
Proof.
  intros (Hnd & Hcols & Hkeys).
  destruct (key_in_dec (Metadata.key_of row) (map fst tables)) as [Hin|Hnotin].
  - split; [by rewrite append_row_keys|]. split.
    + intros k columns H. rewrite rows_of_app.
      destruct (append_row_In _ _ _ _ _ Hnd H) as [[H1 H2]|[[-> (old & H2 & ->)]|[_ [H2 _]]]].
      * rewrite (key_eqb_neq (Metadata.key_of row) k) by congruence.
        rewrite app_nil_r. by apply Hcols.
      * rewrite key_eqb_refl. destruct (Hcols _ _ H2) as [<- _].
        split; [reflexivity|]. by destruct old.
      * contradiction.
    + intros r [Hr|[<-|[]]]%in_app_or; rewrite append_row_keys by done; [by apply Hkeys|done].
  - rewrite (append_row_new _ _ _ Hnotin). split; [|split].
    + rewrite map_app. cbn [map fst]. apply List.NoDup_app; [done|repeat constructor; by intros []|].
      intros k Hk [<-|[]]. contradiction.
    + intros k columns [H|[[= <- <-]|[]]]%in_app_or; rewrite rows_of_app.
      * assert (k <> Metadata.key_of row).
        { intros ->. apply Hnotin. change (Metadata.key_of row)
            with (fst (Metadata.key_of row, columns)). by apply in_map. }
        rewrite (key_eqb_neq (Metadata.key_of row) k) by congruence.
        rewrite app_nil_r. by apply Hcols.
      * rewrite key_eqb_refl.
        assert (Hnone : rows_of (Metadata.key_of row) rows = []).
        { apply filter_none. intros r Hr. apply key_eqb_neq. intros Heq.
          apply Hnotin. rewrite <- Heq. by apply Hkeys. }
        rewrite Hnone. split; [reflexivity|discriminate].
    + intros r [Hr|[<-|[]]]%in_app_or; rewrite map_app; apply in_or_app.
      * left. by apply Hkeys.
      * right. by left.
Qed.

Lemma group_rows_grouped rows : grouped (Metadata.group_rows rows) rows.
Proof.
  unfold Metadata.group_rows. induction rows as [|row rows IH] using rev_ind.
  - apply grouped_nil.
  - rewrite fold_left_app. cbn [fold_left]. by apply grouped_step.
Qed.

(** X21 (create_embedding_string): the function returns one table
    definition for every table that has a row in the query result and no
    two for the same table; the text of a definition is the header of the
    table followed by the lines of all the rows of the table, in the order
    of the query result, wherever they stand in it; its hash is the digest
    of that text, and its database is the configured one. *)
Theorem create_embedding_string_groups env query_result :
  let metadata := Metadata.create_embedding_string env query_result in
  List.NoDup (map definition_key metadata)
  /\ (forall d, In d metadata ->
        rows_of (definition_key d) query_result <> []
        /\ Metadata.embedding_text d
           = Metadata.table_string (definition_key d)
               (rows_of (definition_key d) query_result)
        /\ Metadata.embedding_hash d = sha256_hexdigest env (Metadata.embedding_text d)
        /\ Metadata.database d = db_name env)
  /\ (forall row, In row query_result -> In (Metadata.key_of row) (map definition_key metadata)).
Proof.
  cbv zeta. unfold Metadata.create_embedding_string.
  destruct (group_rows_grouped query_result) as (Hnd & Hcols & Hkeys).
  assert (Hmap : map definition_key
                   (map (fun entry : Metadata.table_key * list Metadata.column_row =>
                           {| Metadata.database := db_name env;
                              Metadata.schema := fst (fst entry);
                              Metadata.table := snd (fst entry);
                              Metadata.embedding_text :=
                                Metadata.table_string (fst entry) (snd entry);
                              Metadata.embedding_hash :=
                                sha256_hexdigest env
                                  (Metadata.table_string (fst entry) (snd entry)) |})
                      (Metadata.group_rows query_result))
                 = map fst (Metadata.group_rows query_result)).
  { rewrite map_map. apply map_ext. by intros [[a b] c]. }
  rewrite Hmap. split; [exact Hnd|]. split; [|exact Hkeys].
  intros d Hd. apply in_map_iff in Hd as ([[sch tab] columns] & <- & Hin).
  destruct (Hcols _ _ Hin) as [Heq Hne]. unfold definition_key. cbn [Metadata.schema
    Metadata.table Metadata.embedding_text Metadata.embedding_hash Metadata.database fst snd].
  rewrite <- Heq. done.
Qed.

(* ===================================================================== *)
(** * The indexer: a second run                                           *)
(* ===================================================================== *)

Section Indexing.
Context (env : Env).



End Indexing.



(* ===================================================================== *)
(** * The indexer: failures and the guard                                 *)
(* ===================================================================== *)

Section IndexingFails.
Context (env : Env).

Lemma get_embedding_raises text e w :
  invoke_embedding env text = Raise e ->
  Embed.get_embedding env text w
  = (Raise e, add_events [ Log DEBUG "Generating embedding for {text}";
                           InvokeEmbedding text;
                           Log ERROR "Error generating embedding: {e}" ] w).
Proof.
  intros H. unfold Embed.get_embedding, try_except, bind, log, emit, lift, raise.
  rewrite H. cbn. by rewrite !add_events_add_events.
Qed.

Lemma generate_embeddings_fails metadata : forall w d e,
  In d metadata -> invoke_embedding env (Metadata.embedding_text d) = Raise e ->
  exists e' evs,
    Metadata.generate_embeddings env metadata w = (Raise e', add_events evs w)
    /\ List.filter is_insert evs = [].
Proof.
  induction metadata as [|d0 rest IH]; intros w d e Hin He; [done|].
  cbn [Metadata.generate_embeddings].
  destruct (invoke_embedding env (Metadata.embedding_text d0)) as [v|e0] eqn:E0.
  - rewrite (bind_ok _ _ _ _ _ (get_embedding_ok env _ _ w E0)).
    destruct Hin as [->|Hin]; [congruence|].
    match goal with |- context [bind (Metadata.generate_embeddings env rest) _ ?w0] =>
      destruct (IH w0 d e Hin He) as (e' & evs & Hrun & Hins)
    end.
    rewrite (bind_raised _ _ _ _ _ Hrun), add_events_add_events.
    eexists _, _. split; [reflexivity|]. rewrite List.filter_app, Hins. reflexivity.
  - rewrite (bind_raised _ _ _ _ _ (get_embedding_raises _ _ w E0)).
    eexists _, _. split; reflexivity.
Qed.

Lemma only_generate_embeddings P metadata :
  (forall ev, P ev = true) -> only_events P (Metadata.generate_embeddings env metadata).
Proof.
  intros HP. induction metadata as [|d rest IH]; cbn [Metadata.generate_embeddings].
  - apply only_ret.
  - unfold Embed.get_embedding, log.
    repeat first [ apply IH | apply only_emit; apply HP | only_step ].
Qed.

Lemma only_store_embeddings P metadata :
  (forall ev, P ev = true) -> only_events P (Indexer.store_embeddings metadata).
Proof.
  intros HP. induction metadata as [|d rest IH]; cbn [Indexer.store_embeddings].
  - apply only_ret.
  - cbv zeta. unfold Indexer.select_id, Indexer.insert_row, log.
    repeat first [ apply IH | apply only_emit; apply HP | only_step ].
Qed.

End IndexingFails.

(** X23 (indexer_handler.lambda_handler, generate_embeddings): the
    embeddings of all the table definitions are computed before anything
    is stored.  When the embedding model fails for one of them, the handler
    raises, no insertion has been sent and the table of embeddings is as it
    was, whatever the position of the failing definition; the connection is
    closed as the last call. *)
Theorem failed_embedding_stores_nothing env secret_id rows w secret u p d e :
  PostgresValidation.is_valid_postgres_identifier (RDS_DATABASE_NAME env)
  || PostgresValidation.is_valid_postgres_identifier (RDS_SCHEMA env) = true ->
  get_secret_value env secret_id = Ok secret ->
  truthy secret = true ->
  getitem secret "username" = Ok u ->
  getitem secret "password" = Ok p ->
  psycopg_connect env secret = Ok tt ->
  In d (Metadata.create_embedding_string env rows) ->
  invoke_embedding env (Metadata.embedding_text d) = Raise e ->
  let w' := snd (IndexerHandler.lambda_handler env secret_id (Ok rows) w) in
  (exists e', fst (IndexerHandler.lambda_handler env secret_id (Ok rows) w) = Raise e')
  /\ embeddings w' = embeddings w
  /\ exists evs,
       trace w' = (trace w ++ evs
                   ++ [Log INFO "Closing connection"; Log INFO "End"; PgClose])%list
       /\ List.filter is_insert evs = [].
Proof.
  intros Hvalid Hsec Htruthy Hu Hp Hconn Hin He. cbv zeta.
  unfold IndexerHandler.lambda_handler. rewrite Hvalid. cbn [negb].
  rewrite (bind_ok _ _ _ _ _ (set_secret_ok env _ _ _ Hsec)).
  erewrite bind_ok; [|eapply connect_to_db_ok; eauto; reflexivity].
  cbn [PostgreSQLService.conn_truthy negb].
  unfold try_finally.
  match goal with |- context [bind (IndexerHandler.fetch_metadata _ _) _ ?w1] =>
    assert (Hfetch : IndexerHandler.fetch_metadata (Ok rows) tt w1
                     = (Ok rows, add_events [PgExecute IndexerHandler.metadata_query PNone] w1))
      by reflexivity
  end.
  rewrite (bind_ok _ _ _ _ _ Hfetch). cbv zeta.
  match goal with |- context [bind (Metadata.generate_embeddings env ?md) _ ?w2] =>
    destruct (generate_embeddings_fails env md w2 d e Hin He) as (e' & evs & Hgen & Hins)
  end.
  rewrite (bind_raised _ _ _ _ _ Hgen).
  rewrite !bind_log. unfold PostgreSQLService.close, emit. rewrite !add_events_add_events.
  cbn [fst snd]. split; [eauto|]. split; [reflexivity|].
  exists ([ GetSecretValue secret_id; PgConnect;
            PgExecute IndexerHandler.metadata_query PNone ] ++ evs)%list.
  cbn [trace add_events snd set_db_secret]. rewrite <- !app_assoc.
  split; [reflexivity|]. rewrite !List.filter_app, Hins. reflexivity.
Qed.

Lemma failed_embedding_stores_nothing_witness :
  embeddings (snd (IndexerHandler.lambda_handler Demo.throttled_env "indexer-secret"
                     (Ok Demo.catalog) (Demo.world None)))
  = embeddings (Demo.world None).
Proof.
  exact (proj1 (proj2
           (failed_embedding_stores_nothing Demo.throttled_env "indexer-secret" Demo.catalog
              (Demo.world None)
              (PDict [("username", PStr "u"); ("password", PStr "p")]) (PStr "u") (PStr "p")
              (Metadata.Build_table_definition "postgres" "public" "u"
                 (Metadata.table_string ("public", "u") (rows_of ("public", "u") Demo.catalog))
                 (Metadata.table_string ("public", "u") (rows_of ("public", "u") Demo.catalog)))
              (Exception "ThrottlingException")
              eq_refl eq_refl eq_refl eq_refl eq_refl eq_refl
              (or_intror (or_introl eq_refl)) eq_refl))).
Defined.

(** X24 (indexer_handler.lambda_handler, the guard): the guard of the
    indexer is that of the prompt handler.  It raises, before any call,
    exactly when neither the database name nor the schema name is a valid
    identifier; when one of the two is valid, whatever the other, the
    handler goes on and its first call reads the secret. *)
Theorem indexer_guard env secret_id catalog :
  (PostgresValidation.is_valid_postgres_identifier (RDS_DATABASE_NAME env) = false ->
   PostgresValidation.is_valid_postgres_identifier (RDS_SCHEMA env) = false ->
   forall w,
     IndexerHandler.lambda_handler env secret_id catalog w
     = (Raise (Exception
                 "'{RDS_SCHEMA}' or '{RDS_DATABASE_NAME}' is not a valid PostgreSQL name."), w))
  /\ (PostgresValidation.is_valid_postgres_identifier (RDS_DATABASE_NAME env)
      || PostgresValidation.is_valid_postgres_identifier (RDS_SCHEMA env) = true ->
      begins_with (GetSecretValue secret_id)
        (IndexerHandler.lambda_handler env secret_id catalog)).
Proof.
  split.
  - intros H1 H2 w. unfold IndexerHandler.lambda_handler. by rewrite H1, H2.
  - intros H. unfold IndexerHandler.lambda_handler. rewrite H. cbn [negb].
    apply (begins_bind (fun _ => true)).
    + unfold PostgreSQLService.set_secret.
      apply (begins_try_except (fun _ => true)); [|intros; repeat only_step].
      apply (begins_bind (fun _ => true)); [apply begins_emit|intros; repeat only_step].
    + intros _. unfold PostgreSQLService.connect_to_db, IndexerHandler.fetch_metadata,
        PostgreSQLService.close.
      repeat only_step;
        auto using only_generate_embeddings, only_store_embeddings.
Qed.

Lemma indexer_guard_witness :
  exists evs,
    trace (snd (IndexerHandler.lambda_handler Demo.invalid_schema_env "indexer-secret"
                  (Ok Demo.catalog) (Demo.world None)))
    = (trace (Demo.world None) ++ GetSecretValue "indexer-secret" :: evs)%list.
Proof.
  exact (proj2 (indexer_guard Demo.invalid_schema_env "indexer-secret" (Ok Demo.catalog))
           eq_refl (Demo.world None)).
Defined.

(* ===================================================================== *)
(** * The statement taken from the answer of the model                    *)
(* ===================================================================== *)

Lemma prefix_split pat s :
  String.prefix pat s = true ->
  s = (pat ++ String.substring (String.length pat) (String.length s - String.length pat) s)%string.
Proof.
  revert s. induction pat as [|a pat IH]; intros s H.
  - rewrite append_nil. cbn [String.length]. rewrite Nat.sub_0_r.
    clear H. induction s as [|c s IHs]; [reflexivity|].
    cbn [String.length String.substring]. by rewrite <- IHs.
  - destruct s as [|c s]; [discriminate|]. cbn [String.prefix] in H.
    destruct (ascii_dec a c) as [->|]; [|discriminate].
    rewrite append_cons. cbn [String.length String.substring Nat.sub]. f_equal. by apply IH.
Qed.

Lemma prefix_append pat s : String.prefix pat (pat ++ s) = true.
Proof.
  induction pat as [|a pat IH]; [by destruct s|].
  rewrite append_cons. cbn [String.prefix]. by destruct (ascii_dec a a).
Qed.

Lemma split_at_first_spec pat s before after :
  TextToSQL.split_at_first pat s = Some (before, after) ->
  s = (before ++ pat ++ after)%string.
Proof.
  revert before. induction s as [|c s IH]; intros before; cbn [TextToSQL.split_at_first].
  - destruct (String.prefix pat "") eqn:E; [|discriminate].
    intros [= <- <-]. rewrite append_nil. by apply prefix_split.
  - destruct (String.prefix pat (String c s)) eqn:E.
    + intros [= <- <-]. rewrite append_nil. by apply prefix_split.
    + destruct (TextToSQL.split_at_first pat s) as [[b a]|]; [|discriminate].
      intros [= <- <-]. rewrite append_cons. f_equal. by apply IH.
Qed.

(** The text before the first occurrence holds no occurrence. *)
Lemma split_at_first_first pat s before after :
  pat <> "" ->
  TextToSQL.split_at_first pat s = Some (before, after) ->
  forall b a, before <> (b ++ pat ++ a)%string.
Proof.
  intros Hpat. revert before. induction s as [|c s IH]; intros before;
    cbn [TextToSQL.split_at_first].
  - destruct (String.prefix pat "") eqn:E; [|discriminate].
    destruct pat; [done|discriminate].
  - destruct (String.prefix pat (String c s)) eqn:E.
    + intros [= <- <-] b a Hb. destruct b; [|discriminate]. rewrite append_nil in Hb.
      destruct pat; [done|discriminate].
    + destruct (TextToSQL.split_at_first pat s) as [[b0 a0]|] eqn:Es; [|discriminate].
      intros [= <- <-] b a Hb.
      destruct b as [|c' b].
      * rewrite append_nil in Hb.
        rewrite (split_at_first_spec pat s b0 a0 Es) in E.
        rewrite <- append_cons, Hb in E.
        assert (Hassoc : forall x y z : string, ((x ++ y) ++ z = x ++ y ++ z)%string).
        { intros x y z. induction x as [|cx x IHx]; [reflexivity|].
          by rewrite !append_cons, IHx. }
        rewrite Hassoc, prefix_append in E. discriminate.
      * rewrite append_cons in Hb. injection Hb as -> Hb. by apply (IH b0 eq_refl b a).
Qed.

Lemma findall_first open close s g rest :
  TextToSQL.findall open close s = g :: rest ->
  exists before tail after,
    TextToSQL.split_at_first open s = Some (before, tail)
    /\ TextToSQL.split_at_first close tail = Some (g, after).
Proof.
  unfold TextToSQL.findall. cbn [TextToSQL.findall_between].
  destruct (TextToSQL.split_at_first open s) as [[before tail]|]; [|discriminate].
  destruct (TextToSQL.split_at_first close tail) as [[g' after]|] eqn:E; [|discriminate].
  intros [= -> _]. by exists before, tail, after.
Qed.

(** X25 (get_sql_from_bedrock): the statement that the function returns
    is a piece of the answer of the model: the text between the first
    [<sql>] of the answer and the first [</sql>] after it; no [<sql>] stands
    before it and it holds no [</sql>]. *)
Theorem returned_statement_is_between_the_tags env query schema w text sql params :
  invoke_model env (SqlPrompt query schema) = Ok text ->
  returns (TextToSQL.get_sql_from_bedrock env query schema) w (PTuple [PStr sql; params]) ->
  exists before after,
    text = (before ++ "<sql>" ++ sql ++ "</sql>" ++ after)%string
    /\ (forall b a, before <> (b ++ "<sql>" ++ a)%string)
    /\ (forall b a, sql <> (b ++ "</sql>" ++ a)%string).
Proof.
  intros Hm. unfold returns. rewrite (get_sql_run env query schema text w Hm).
  destruct (TextToSQL.findall "<sql>" "</sql>" text) as [|sql0 rest] eqn:Hf; [discriminate|].
  intros Hret.
  assert (sql0 = sql) as ->.
  { unfold bind in Hret.
    match type of Hret with context [match ?x with (_, _) => _ end] =>
      destruct x as [[p|e] w1]
    end; [|discriminate].
    by injection Hret. }
  destruct (findall_first _ _ _ _ _ Hf) as (before & tail & after & H1 & H2).
  exists before, after. split; [|split].
  - rewrite (split_at_first_spec _ _ _ _ H1), (split_at_first_spec _ _ _ _ H2). reflexivity.
  - by apply (split_at_first_first "<sql>" text before tail).
  - by apply (split_at_first_first "</sql>" tail sql after).
Qed.

Lemma returned_statement_is_between_the_tags_witness :
  exists before after,
    "Here it is: <sql>SELECT count(*) FROM t WHERE c = %s</sql> <params>['x']</params>"
    = (before ++ "<sql>" ++ "SELECT count(*) FROM t WHERE c = %s" ++ "</sql>" ++ after)%string.
Proof.
  destruct (returned_statement_is_between_the_tags Demo.env "How many properties are there?"
              "Table: t (Schema: public)" (Demo.world None)
              "Here it is: <sql>SELECT count(*) FROM t WHERE c = %s</sql> <params>['x']</params>"
              "SELECT count(*) FROM t WHERE c = %s" (PList [PStr "x"]) eq_refl eq_refl)
    as (before & after & H & _).
  by exists before, after.
Defined.
